(** * TrainVision-AI: the schedule reconciliation and visualisation logic of
      [rail-frontend/src/App.tsx], embedded in Rocq.

    Conventions of the embedding.

    - JavaScript numbers that hold epoch milliseconds, counts and platform
      numbers are integers ([Z]); numbers obtained by division (delays in
      minutes, percentages, map coordinates, interpolation ratios) are exact
      rationals ([Q]), compared with [==].  Rounding of IEEE doubles is not
      modelled.
    - Optional fields ([field?: T]) are [option T]; the truthiness tests of the
      source ([!t.scheduled_arrival], [a || b]) are written out.
    - [new Date(s).getTime()] depends on the host's time zone for strings
      without a zone suffix, so it is a parameter [getTime] of the development;
      closed examples instantiate it with [utc_ms], which reads
      [YYYY-MM-DDTHH:MM:SS] as UTC.
    - [Math.random()] is an explicit stream of draws that the code consumes in
      order.
    - React state is a record; a function declared in the component body reads
      the state of the render that created it, which is passed explicitly. *)

From Stdlib Require Import ZArith QArith Qminmax Qround List String Ascii Bool Lia.
Import ListNotations.

Open Scope string_scope.
Open Scope Z_scope.

(** ** Domain model (App.tsx, lines 5-47) *)

Record Train := mkTrain {
  tr_id : string;
  tr_type : option string;
  priority : option Z;
  scheduled_arrival : option string;
  scheduled_departure : option string;
  origin : option string;
  destination : option string;
  platform_pref : option Z
}.

Record ScheduleEntry := mkEntry {
  train_id : string;
  station_id : string;
  assigned_platform : Z;
  actual_arrival : string;
  actual_departure : string;
  reason : option string
}.

Record ScheduleResponse := mkResponse {
  resp_schedule : list ScheduleEntry;
  delays_before_min : option (list Q);
  delays_after_min : option (list Q)
}.

Record Station := mkStation {
  st_id : string;
  platforms : Z;
  station_code : option string;
  station_name : option string;
  latitude : option Q;
  longitude : option Q;
  is_junction : option bool
}.

(** An element of the [trainPositions] array pushed over the socket. *)
Record TrainPosition := mkPosition {
  pos_train_id : string;
  pos_status : string;
  from_station : string;
  to_station : string;
  progress : option Q
}.

(** ** JavaScript helpers *)

(** Truthiness of an optional string: [undefined] and the empty string are
    falsy. *)
Definition truthy (o : option string) : option string :=
  match o with
  | Some s => if String.eqb s "" then None else Some s
  | None => None
  end.

(** [Math.round]: the nearest integer, halves towards plus infinity.  It is
    applied here to the exact value; the program applies it to the binary64
    value, which can lie on the other side of a tie (23/40*100 is computed as
    57.49999999999999 and rounds to 57, where the exact 57.5 rounds to 58).
    Properties are therefore stated up to the direction of a tie. *)
Definition Math_round (x : Q) : Z := Qfloor (x + (1 # 2))%Q.

(** [Math.floor]. *)
Definition Math_floor (x : Q) : Z := Qfloor x.

(** [x.toFixed(1)], for [x >= 0], denotes the decimal with one fractional
    digit nearest to [x], the larger one on a tie; the result is kept as its
    number of tenths.  As for [Math_round], the program applies it to the
    binary64 value, which can lie on the other side of a tie. *)
Definition toFixed1 (x : Q) : Z := Qfloor (x * 10 + (1 # 2))%Q.

(** [Array.prototype.find]. *)
Fixpoint find_first {A} (p : A -> bool) (l : list A) : option A :=
  match l with
  | [] => None
  | x :: r => if p x then Some x else find_first p r
  end.

(** [l.length === 0]. *)
Definition is_empty {A} (l : list A) : bool :=
  match l with [] => true | _ => false end.

(** [l || []]. *)
Definition list_or_empty {A} (o : option (list A)) : list A :=
  match o with Some l => l | None => [] end.

(** Equality of two snapshots as [JSON.stringify] sees it, the keys of every
    entry being written in the same order. *)
Definition entry_eqb (a b : ScheduleEntry) : bool :=
  String.eqb (train_id a) (train_id b) &&
  String.eqb (station_id a) (station_id b) &&
  Z.eqb (assigned_platform a) (assigned_platform b) &&
  String.eqb (actual_arrival a) (actual_arrival b) &&
  String.eqb (actual_departure a) (actual_departure b) &&
  match reason a, reason b with
  | Some x, Some y => String.eqb x y
  | None, None => true
  | _, _ => false
  end.

Fixpoint snapshot_eqb (a b : list ScheduleEntry) : bool :=
  match a, b with
  | [], [] => true
  | x :: a', y :: b' => entry_eqb x y && snapshot_eqb a' b'
  | _, _ => false
  end.

(** ** A concrete clock for closed examples

    [utc_ms] reads the fixed-width form [YYYY-MM-DDTHH:MM:SS] as a UTC instant
    and returns epoch milliseconds (days counted with the usual civil-calendar
    formula); any other string is mapped to [0]. *)

Definition digit (c : ascii) : option Z :=
  let n := Z.of_nat (nat_of_ascii c) in
  if (48 <=? n) && (n <=? 57) then Some (n - 48) else None.

Fixpoint digits (acc : Z) (l : list ascii) : option Z :=
  match l with
  | [] => Some acc
  | c :: r => match digit c with
              | Some d => digits (acc * 10 + d) r
              | None => None
              end
  end.

Definition num (s : string) (from len : nat) : option Z :=
  let cs := list_ascii_of_string (String.substring from len s) in
  if Nat.eqb (List.length cs) len then digits 0 cs else None.

Definition days_from_civil (y m d : Z) : Z :=
  let y' := if m <=? 2 then y - 1 else y in
  let era := y' / 400 in
  let yoe := y' - era * 400 in
  let mp := (m + 9) mod 12 in
  let doy := (153 * mp + 2) / 5 + d - 1 in
  let doe := yoe * 365 + yoe / 4 - yoe / 100 + doy in
  era * 146097 + doe - 719468.

Definition utc_ms (s : string) : Z :=
  match num s 0 4, num s 5 2, num s 8 2, num s 11 2, num s 14 2, num s 17 2 with
  | Some y, Some mo, Some d, Some h, Some mi, Some se =>
      if Nat.eqb (String.length s) 19
      then (((days_from_civil y mo d * 24 + h) * 60 + mi) * 60 + se) * 1000
      else 0
  | _, _, _, _, _, _ => 0
  end.

(** The outcome of running a block: a value, or an exception on its way up. *)
Inductive Completion (A : Type) : Type :=
| Normal (a : A)
| Throw.
Arguments Normal {A} a.
Arguments Throw {A}.

(** A JavaScript number that may be [NaN] ([None]); every operation below
    yields [NaN] as soon as an operand is [NaN]. *)
Definition JsNum := option Q.

Definition lift2 (f : Q -> Q -> Q) (a b : JsNum) : JsNum :=
  match a, b with
  | Some x, Some y => Some (f x y)
  | _, _ => None
  end.

Definition nadd := lift2 Qplus.
Definition nsub := lift2 Qminus.
Definition nmul := lift2 Qmult.
Definition ndiv := lift2 Qdiv.
Definition nmax := lift2 Qmax.
Definition nmin := lift2 Qmin.

(** [Math.min(...l)] and [Math.max(...l)] on a non-empty array. *)
Definition Math_min_list (l : list JsNum) : JsNum :=
  match l with
  | [] => None
  | x :: r => fold_left nmin r x
  end.

Definition Math_max_list (l : list JsNum) : JsNum :=
  match l with
  | [] => None
  | x :: r => fold_left nmax r x
  end.

(** ** Random draws

    [Math.random()] returns the next element of a stream of draws from
    [0, 1); a computation that draws threads the stream. *)
Definition Rng := nat -> Q.
Definition Rand (A : Type) := Rng -> A * Rng.

Definition ret {A} (a : A) : Rand A := fun g => (a, g).

Definition bind {A B} (m : Rand A) (k : A -> Rand B) : Rand B :=
  fun g => let (a, g') := m g in k a g'.

Notation "x <- m ;; k" := (bind m (fun x => k))
  (at level 61, m at next level, right associativity).

Definition Math_random : Rand Q :=
  fun g => (g 0%nat, fun n => g (S n)).

Fixpoint mapM {A B} (f : A -> Rand B) (l : list A) : Rand (list B) :=
  match l with
  | [] => ret []
  | x :: r => y <- f x ;; ys <- mapM f r ;; ret (y :: ys)
  end.

(** ** Property order of a plain object

    [Object.entries] lists the keys that are array indices first, in
    ascending numeric order, then the other string keys in insertion
    order. *)
Definition array_index (k : string) : option Z :=
  match list_ascii_of_string k with
  | [] => None
  | c :: r =>
      if Ascii.eqb c "0" && negb (is_empty r) then None
      else match digits 0 (c :: r) with
           | Some n => if n <? 4294967295 then Some n else None
           | None => None
           end
  end.

Fixpoint insert_index {V} (n : Z) (kv : string * V)
    (l : list (Z * (string * V))) : list (Z * (string * V)) :=
  match l with
  | [] => [(n, kv)]
  | (m, kv') :: r =>
      if n <? m then (n, kv) :: l else (m, kv') :: insert_index n kv r
  end.

Definition Object_entries {V} (o : list (string * V)) : list (string * V) :=
  let indexed :=
    fold_left (fun acc kv =>
                 match array_index (fst kv) with
                 | Some n => insert_index n kv acc
                 | None => acc
                 end) o [] in
  let named :=
    filter (fun kv => match array_index (fst kv) with
                      | Some _ => false
                      | None => true
                      end) o in
  (map snd indexed ++ named)%list.

(** ** Changed-train set (App.tsx, lines 1964-1975)

    A JavaScript [Set] of strings keeps its elements in insertion order and
    without duplicates. *)

Definition set_has (x : string) (s : list string) : bool :=
  existsb (String.eqb x) s.

Definition set_add (x : string) (s : list string) : list string :=
  if set_has x s then s else (s ++ [x])%list.

Definition differs (before after : ScheduleEntry) : bool :=
  negb (Z.eqb (assigned_platform before) (assigned_platform after)) ||
  negb (String.eqb (actual_arrival before) (actual_arrival after)) ||
  negb (String.eqb (actual_departure before) (actual_departure after)).

(** The body of [afterEntries.forEach(after => ...)]. *)
Definition changed_step (beforeEntries : list ScheduleEntry)
    (changed : list string) (after : ScheduleEntry) : list string :=
  match find_first (fun b => String.eqb (train_id b) (train_id after))
                   beforeEntries with
  | Some before =>
      if differs before after then set_add (train_id after) changed
      else changed
  | None => changed
  end.

Definition changedTrains (beforeEntries afterEntries : list ScheduleEntry)
    : list string :=
  fold_left (changed_step beforeEntries) afterEntries [].

(** ** Reconciliation state (App.tsx, lines 64-72, 732-770, 951-967) *)

Record AppState := mkState {
  schedule : list ScheduleEntry;
  baselineSchedule : list ScheduleEntry;
  previousSchedule : list ScheduleEntry;
  delaysBefore : list Q;
  delaysAfter : list Q;
  loading : bool
}.

(** The state of the first render: every [useState] initial value. *)
Definition initialState : AppState := mkState [] [] [] [] [] false.

Definition setSchedule v (st : AppState) : AppState :=
  mkState v (baselineSchedule st) (previousSchedule st)
          (delaysBefore st) (delaysAfter st) (loading st).
Definition setBaselineSchedule v (st : AppState) : AppState :=
  mkState (schedule st) v (previousSchedule st)
          (delaysBefore st) (delaysAfter st) (loading st).
Definition setPreviousSchedule v (st : AppState) : AppState :=
  mkState (schedule st) (baselineSchedule st) v
          (delaysBefore st) (delaysAfter st) (loading st).
Definition setDelaysBefore v (st : AppState) : AppState :=
  mkState (schedule st) (baselineSchedule st) (previousSchedule st)
          v (delaysAfter st) (loading st).
Definition setDelaysAfter v (st : AppState) : AppState :=
  mkState (schedule st) (baselineSchedule st) (previousSchedule st)
          (delaysBefore st) v (loading st).
Definition setLoading v (st : AppState) : AppState :=
  mkState (schedule st) (baselineSchedule st) (previousSchedule st)
          (delaysBefore st) (delaysAfter st) v.

(** What an awaited [fetch] followed by [json()] can do: reject (network
    failure, unreadable body), answer with a status outside 2xx, or answer
    [ok] with a body. *)
Inductive Fetch (A : Type) : Type :=
| Rejected
| NotOk
| Ok (body : A).
Arguments Rejected {A}.
Arguments NotOk {A}.
Arguments Ok {A} body.

(** The inner [try] of [fetchSchedule]: the baseline request. *)
Definition fetchBaseline (b : Fetch (list ScheduleEntry)) (st : AppState)
    : AppState :=
  match b with
  | Ok baselineData => setBaselineSchedule baselineData st
  | NotOk => st
  | Rejected => st
  end.

(** [fetchSchedule].  [seen] is the state of the render whose closure is
    running: the identifiers [schedule] and [baselineSchedule] in the body
    denote [schedule seen] and [baselineSchedule seen].  [r] is the outcome of
    [GET /schedule] and [b] that of [GET /baseline] (requested only on the
    last branch).  The [JSON.stringify] comparison is structural equality of
    the two snapshots. *)
Definition fetchSchedule (seen : AppState) (r : Fetch ScheduleResponse)
    (b : Fetch (list ScheduleEntry)) (st : AppState) : AppState :=
  let st1 := setLoading true st in
  let st5 :=
    match r with
    | Rejected => st1
    | NotOk => st1
    | Ok data =>
        let st2 :=
          if negb (is_empty (schedule seen)) && is_empty (baselineSchedule seen)
          then setBaselineSchedule (schedule seen) st1
          else if negb (is_empty (schedule seen)) &&
                  negb (snapshot_eqb (schedule seen) (resp_schedule data))
          then setPreviousSchedule (schedule seen) st1
          else st1 in
        let st3 := setSchedule (resp_schedule data) st2 in
        let st4 := setDelaysAfter (list_or_empty (delays_after_min data))
                     (setDelaysBefore (list_or_empty (delays_before_min data))
                        st3) in
        if is_empty (baselineSchedule seen) then fetchBaseline b st4 else st4
    end in
  setLoading false st5.

(** [resetSystem].  [reset] is the outcome of [POST /reset]; the nested
    [fetchSchedule] belongs to the same render as [resetSystem] itself. *)
Definition resetSystem (seen : AppState) (reset : Fetch unit)
    (r : Fetch ScheduleResponse) (b : Fetch (list ScheduleEntry))
    (st : AppState) : AppState :=
  match reset with
  | Rejected => st
  | NotOk => st
  | Ok _ =>
      let st1 := setSchedule []
                   (setPreviousSchedule [] (setBaselineSchedule [] st)) in
      fetchSchedule seen r b st1
  end.

(** The steps of the running console that write a snapshot.

    - [Poll]: a tick of the 3-second interval, and the call made on mount.
      The interval is installed once, by an effect with an empty dependency
      list (lines 673-693), so every tick runs the [fetchSchedule] of the
      first render, whose [schedule] and [baselineSchedule] are the initial
      empty arrays.
    - [RefreshAll], [Refresh], [Reset]: buttons of the latest render (lines
      1581, 1538-1552, 1558-1562); their closures read the state displayed
      when they are pressed.  The override and delay handlers refresh the
      schedule in the same two ways. *)
Inductive Event :=
| Poll (r : Fetch ScheduleResponse) (b : Fetch (list ScheduleEntry))
| RefreshAll (r : Fetch ScheduleResponse) (b : Fetch (list ScheduleEntry))
| Refresh (r : Fetch ScheduleResponse) (b : Fetch (list ScheduleEntry))
| Reset (reset : Fetch unit) (r : Fetch ScheduleResponse)
        (b : Fetch (list ScheduleEntry)).

Definition step (st : AppState) (ev : Event) : AppState :=
  match ev with
  | Poll r b => fetchSchedule initialState r b st
  | RefreshAll r b => fetchSchedule st r b st
  | Refresh r b =>
      fetchSchedule st r b
        (setSchedule [] (setPreviousSchedule (schedule st) (setLoading true st)))
  | Reset reset r b => resetSystem st reset r b st
  end.

Definition run (evs : list Event) : AppState := fold_left step evs initialState.

(** ** Helpers of the component body (App.tsx, lines 101-124) *)

Section WithClock.

(** [getTime s] stands for [new Date(s).getTime()]. *)
Variable getTime : string -> Z.

Section WithTrains.

Variable trains : list Train.

Definition getTrain (id : string) : option Train :=
  find_first (fun t => String.eqb (tr_id t) id) trains.

Definition isDelayed (entry : ScheduleEntry) : bool :=
  match getTrain (train_id entry) with
  | None => false
  | Some t =>
      match truthy (scheduled_arrival t) with
      | None => false
      | Some sa =>
          let scheduled := getTime sa in
          let actual := getTime (actual_arrival entry) in
          2 * 60 * 1000 <? actual - scheduled
      end
  end.

(** The lookup table [colorByType]; keys inherited from [Object.prototype]
    are not modelled. *)
Definition colorByType (ty : string) : option string :=
  if String.eqb ty "Express" then Some "#3b82f6"
  else if String.eqb ty "Local" then Some "#22c55e"
  else if String.eqb ty "Intercity" then Some "#f59e0b"
  else if String.eqb ty "Freight" then Some "#8b5cf6"
  else None.

Definition baseColor (t : option Train) : string :=
  match t with
  | Some t' =>
      match truthy (tr_type t') with
      | Some ty => match colorByType ty with Some c => c | None => "#64748b" end
      | None => "#64748b"
      end
  | None => "#64748b"
  end.

Definition colorForEntry (entry : ScheduleEntry) : string :=
  if isDelayed entry then "#ef4444" else baseColor (getTrain (train_id entry)).

(** ** KPIs (App.tsx, [computeKPIs], lines 970-993) *)

Inductive KpiValue :=
| KNumber (q : Q)          (* a plain number *)
| KFixed1 (tenths : Z).    (* the string produced by [toFixed(1)] *)

Record KPIs := mkKPIs {
  total : Z;
  ontimePct : Z;
  avgDelay : KpiValue
}.

(** The delay of an entry in minutes, clamped at zero. *)
Definition delayMinutes (scheduled actual : string) : Q :=
  Qmax 0 (inject_Z (getTime actual - getTime scheduled) / 60000)%Q.

(** One iteration of the [forEach] body over the accumulators
    [(ontime, sumDelay)]. *)
Definition kpi_step (acc : Z * Q) (s : ScheduleEntry) : Z * Q :=
  match find_first (fun t => String.eqb (tr_id t) (train_id s)) trains with
  | None => acc
  | Some train =>
      match truthy (scheduled_arrival train) with
      | None => acc
      | Some sa =>
          let delay := delayMinutes sa (actual_arrival s) in
          let sumDelay := (snd acc + delay)%Q in
          (if Qle_bool delay 2 then fst acc + 1 else fst acc, sumDelay)
      end
  end.

Definition computeKPIs (schedule : list ScheduleEntry) : KPIs :=
  match schedule with
  | [] => mkKPIs 0 0 (KNumber 0)
  | _ =>
      let total := Z.of_nat (List.length schedule) in
      let '(ontime, sumDelay) := fold_left kpi_step schedule (0, 0%Q) in
      mkKPIs total
             (Math_round (inject_Z ontime / inject_Z total * 100)%Q)
             (KFixed1 (toFixed1 (sumDelay / inject_Z total)%Q))
  end.

(** The entries that contribute to the KPI sums: those whose train is known
    and has a scheduled arrival, with the delay of each. *)
Definition kpi_delay (s : ScheduleEntry) : option Q :=
  match getTrain (train_id s) with
  | Some train =>
      match truthy (scheduled_arrival train) with
      | Some sa => Some (delayMinutes sa (actual_arrival s))
      | None => None
      end
  | None => None
  end.

Definition ontime_count (schedule : list ScheduleEntry) : Z :=
  Z.of_nat (List.length
    (filter (fun s => match kpi_delay s with
                      | Some d => Qle_bool d 2
                      | None => false
                      end) schedule)).

Fixpoint delay_sum (schedule : list ScheduleEntry) : Q :=
  match schedule with
  | [] => 0
  | s :: r => (match kpi_delay s with Some d => d | None => 0 end
               + delay_sum r)%Q
  end.

(** ** Override impact estimator (App.tsx, [calculateDelayImpact],
      lines 1059-1117) *)

Record Impact := mkImpact {
  current : Q;
  predicted : Q;
  difference : Q
}.

(** The [target_train_impact] object of a simulation payload. *)
Record TargetTrainImpact := mkTarget {
  current_delay : Q;
  predicted_delay : Q;
  delay_change : Q
}.

(** What [POST /simulate-override] can do. *)
Inductive Simulate :=
| FetchRejected      (* [fetch] rejects: the server cannot be reached *)
| HttpError          (* a response whose [ok] is false *)
| BodyUnreadable     (* [response.json()] rejects, or yields [null] *)
| Simulation (target_train_impact : option TargetTrainImpact).

(** The fallback filter: entries at the station of [currentEntry], on the
    requested platform, belonging to another train. *)
Definition conflictingTrains (schedule : list ScheduleEntry)
    (currentEntry : ScheduleEntry) (trainId : string) (newPlatform : Z)
    : list ScheduleEntry :=
  filter (fun s =>
            String.eqb (station_id s) (station_id currentEntry) &&
            Z.eqb (assigned_platform s) newPlatform &&
            negb (String.eqb (train_id s) trainId))
         schedule.

(** The body of the [try] block. *)
Definition calculateDelayImpact_try (schedule : list ScheduleEntry)
    (trainId : string) (newPlatform : Z) (sim : Simulate)
    : Completion (option Impact) :=
  let currentEntry := find_first (fun s => String.eqb (train_id s) trainId)
                                 schedule in
  let train := getTrain trainId in
  match currentEntry, train with
  | Some currentEntry, Some train =>
      match truthy (scheduled_arrival train) with
      | None => Normal None
      | Some sa =>
          let currentDelay := delayMinutes sa (actual_arrival currentEntry) in
          let fallback :=
            let estimatedAdditionalDelay :=
              inject_Z (Z.of_nat (List.length
                 (conflictingTrains schedule currentEntry trainId newPlatform))
                 * 3) in
            let predictedDelay := (currentDelay + estimatedAdditionalDelay)%Q in
            Normal (Some (mkImpact currentDelay predictedDelay
                                   estimatedAdditionalDelay)) in
          match sim with
          | FetchRejected => Throw
          | BodyUnreadable => Throw
          | HttpError => fallback
          | Simulation (Some t) =>
              Normal (Some (mkImpact (current_delay t) (predicted_delay t)
                                     (delay_change t)))
          | Simulation None => fallback
          end
      end
  | _, _ => Normal None
  end.

(** The whole function: the [catch] clause logs and returns [null]. *)
Definition calculateDelayImpact (schedule : list ScheduleEntry)
    (trainId : string) (newPlatform : Z) (sim : Simulate)
    : Completion (option Impact) :=
  match calculateDelayImpact_try schedule trainId newPlatform sim with
  | Normal v => Normal v
  | Throw => Normal None
  end.

(** ** Railway network map (App.tsx, [GeoMap], lines 158-384)

    Of a dot, everything but the [title] tooltip is kept; the [waitReason]
    text is kept as the case that produces it. *)

Definition width : Q := 1000.
Definition height : Q := 320.
Definition padding : Q := 40.

Record Route := mkRoute { r_from : string; r_to : string; tracks : Z }.

Definition routes : list Route :=
  [ mkRoute "HYB" "SC" 2; mkRoute "SC" "KCG" 1; mkRoute "HYB" "KCG" 2 ].

Record Node := mkNode {
  n_id : string;
  n_x : JsNum;
  n_y : JsNum;
  n_platforms : option Z
}.

(** The table [stationPositions]: [(x, y, platforms)]. *)
Definition stationPositions (id : string) : option (Q * Q * Z) :=
  if String.eqb id "HYB" then Some (200%Q, 160%Q, 4)
  else if String.eqb id "SC" then Some (500%Q, 100%Q, 6)
  else if String.eqb id "KCG" then Some (350%Q, 220%Q, 3)
  else None.

Definition hasGeo (stations : list Station) : bool :=
  existsb (fun s => match latitude s, longitude s with
                    | Some _, Some _ => true
                    | _, _ => false
                    end) stations.

Definition nodes (stations : list Station) : Rand (list Node) :=
  if hasGeo stations then
    let lats := map latitude stations in
    let lons := map longitude stations in
    let minLat := Math_min_list lats in
    let maxLat := Math_max_list lats in
    let minLon := Math_min_list lons in
    let maxLon := Math_max_list lons in
    let sx (lon : JsNum) : JsNum :=
      nadd (Some padding)
        (nmul (ndiv (nsub lon minLon)
                    (nmax (Some (1 # 1000000)) (nsub maxLon minLon)))
              (Some (width - 2 * padding)%Q)) in
    let sy (lat : JsNum) : JsNum :=
      nadd (Some padding)
        (nmul (nsub (Some 1%Q)
                 (ndiv (nsub lat minLat)
                       (nmax (Some (1 # 1000000)) (nsub maxLat minLat))))
              (Some (height - 2 * padding)%Q)) in
    ret (map (fun st => mkNode (st_id st) (sx (longitude st))
                               (sy (latitude st)) None)
             stations)
  else
    mapM (fun st =>
            match stationPositions (st_id st) with
            | Some (x, y, p) => ret (mkNode (st_id st) (Some x) (Some y) (Some p))
            | None =>
                rx <- Math_random ;;
                ry <- Math_random ;;
                let fallbackX := (padding + rx * (width - 2 * padding))%Q in
                let fallbackY := (padding + ry * (height - 2 * padding))%Q in
                ret (mkNode (st_id st) (Some fallbackX) (Some fallbackY)
                            (Some (if platforms st =? 0 then 2
                                   else platforms st)))
            end)
         stations.

Definition nodeFor (nodes : list Node) (id : string) : option Node :=
  find_first (fun n => String.eqb (n_id n) id) nodes.

(** [byTrain[e.train_id].push(e)], creating the array on first use. *)
Fixpoint push_entry (e : ScheduleEntry)
    (byTrain : list (string * list ScheduleEntry))
    : list (string * list ScheduleEntry) :=
  match byTrain with
  | [] => [(train_id e, [e])]
  | (k, arr) :: r =>
      if String.eqb k (train_id e) then (k, (arr ++ [e])%list) :: r
      else (k, arr) :: push_entry e r
  end.

(** [Array.prototype.sort] is stable; the comparator orders by the epoch
    value of [actual_arrival]. *)
Fixpoint insert_sorted (e : ScheduleEntry) (l : list ScheduleEntry)
    : list ScheduleEntry :=
  match l with
  | [] => [e]
  | x :: r =>
      if getTime (actual_arrival e) <? getTime (actual_arrival x)
      then e :: l
      else x :: insert_sorted e r
  end.

Definition sort_by_arrival (l : list ScheduleEntry) : list ScheduleEntry :=
  fold_left (fun acc e => insert_sorted e acc) l [].

Definition trainSegments (schedule : list ScheduleEntry)
    : list (string * list ScheduleEntry) :=
  map (fun kv => (fst kv, sort_by_arrival (snd kv)))
      (fold_left (fun byTrain e => push_entry e byTrain) schedule []).

Inductive Status := moving | waiting | delayed | stopped.

Inductive WaitReason :=
| AwaitingDeparture                       (* 'Awaiting departure time' *)
| MovingBetween (src dst : string) (pct : Z)
| ArrivedAtDestination                    (* 'Arrived at destination' *)
| ConflictResolved                        (* 'Platform conflict resolved' *)
| AtPlatform.                             (* 'At platform' *)

Record Dot := mkDot {
  d_id : string;
  d_x : JsNum;
  d_y : JsNum;
  d_fill : string;
  d_status : Status;
  d_trackNumber : option Z;
  d_waitReason : option WaitReason;
  d_progress : option Q
}.

Section WithNodes.

Variable nodeList : list Node.
Variable nowMs : Z.

(** One iteration of the loop over pushed positions: the dot it pushes, if
    any. *)
Definition pushedDot (position : TrainPosition) : option Dot :=
  match getTrain (pos_train_id position) with
  | None => None
  | Some train =>
      let fill := baseColor (Some train) in
      if String.eqb (pos_status position) "waiting" then
        match nodeFor nodeList (from_station position) with
        | Some n => Some (mkDot (pos_train_id position) (n_x n) (n_y n) fill
                                waiting None (Some AwaitingDeparture)
                                (progress position))
        | None => None
        end
      else if String.eqb (pos_status position) "moving" then
        match nodeFor nodeList (from_station position),
              nodeFor nodeList (to_station position) with
        | Some fromNode, Some toNode =>
            let progress' :=
              match progress position with
              | Some p => p
              | None => 0%Q
              end in
            let x := nadd (n_x fromNode)
                       (nmul (nsub (n_x toNode) (n_x fromNode))
                             (Some progress')) in
            let y := nadd (n_y fromNode)
                       (nmul (nsub (n_y toNode) (n_y fromNode))
                             (Some progress')) in
            Some (mkDot (pos_train_id position) x y fill moving None
                        (Some (MovingBetween (from_station position)
                                 (to_station position)
                                 (Math_round (progress' * 100)%Q)))
                        (progress position))
        | _, _ => None
        end
      else if String.eqb (pos_status position) "arrived" then
        match nodeFor nodeList (to_station position) with
        | Some n => Some (mkDot (pos_train_id position) (n_x n) (n_y n) fill
                                stopped None (Some ArrivedAtDestination)
                                (progress position))
        | None => None
        end
      else None
  end.

(** The dot of a train standing at the station of [cur] (lines 317-331). *)
Definition stationDot (tid : string) (cur : ScheduleEntry) (n : Node) : Dot :=
  let curDep := getTime (actual_departure cur) in
  let fill := colorForEntry cur in
  let trainIsDelayed := isDelayed cur in
  let status := if trainIsDelayed then delayed
                else if nowMs <? curDep - 300000 then waiting else stopped in
  let waitReason := match status with
                    | waiting => AwaitingDeparture
                    | delayed => ConflictResolved
                    | _ => AtPlatform
                    end in
  mkDot tid (n_x n) (n_y n) fill status None (Some waitReason) None.

(** The dot of a train between [cur] and [next] (lines 343-361). *)
Definition segmentDot (tid : string) (cur next : ScheduleEntry) (a b : Node)
    : Rand Dot :=
  let segStart := getTime (actual_departure cur) in
  let segEnd := getTime (actual_arrival next) in
  let r := Qmax 0 (Qmin 1 (inject_Z (nowMs - segStart)
                           / Qmax 1 (inject_Z (segEnd - segStart))))%Q in
  let x := nadd (n_x a) (nmul (nsub (n_x b) (n_x a)) (Some r)) in
  let y := nadd (n_y a) (nmul (nsub (n_y b) (n_y a)) (Some r)) in
  let fill := colorForEntry cur in
  let route :=
    find_first (fun r' =>
                  (String.eqb (r_from r') (station_id cur) &&
                   String.eqb (r_to r') (station_id next)) ||
                  (String.eqb (r_to r') (station_id cur) &&
                   String.eqb (r_from r') (station_id next)))
               routes in
  trackNumber <-
    match route with
    | Some route' =>
        u <- Math_random ;;
        ret (Math_floor (u * inject_Z (tracks route'))%Q + 1)
    | None => ret 1
    end ;;
  ret (mkDot tid x y fill moving (Some trackNumber) None None).

(** The loop [for (let i = 0; i < entries.length; i++)] from index [i] on,
    [entries] being the remaining suffix: the dot pushed before [break], or
    [None] when the loop runs to its end with [placed] still false. *)
Fixpoint walk (tid : string) (entries : list ScheduleEntry)
    : Rand (option Dot) :=
  match entries with
  | [] => ret None
  | cur :: rest =>
      let next := hd_error rest in
      let curDep := getTime (actual_departure cur) in
      let segment : Rand (option Dot) :=
        match next with
        | Some next' =>
            let segStart := curDep in
            let segEnd := getTime (actual_arrival next') in
            if (segStart <=? nowMs) && (nowMs <=? segEnd) then
              match nodeFor nodeList (station_id cur),
                    nodeFor nodeList (station_id next') with
              | Some a, Some b =>
                  d <- segmentDot tid cur next' a b ;; ret (Some d)
              | _, _ => walk tid rest
              end
            else walk tid rest
        | None => walk tid rest
        end in
      if (nowMs <=? curDep) || is_empty rest then
        match nodeFor nodeList (station_id cur) with
        | Some n => ret (Some (stationDot tid cur n))
        | None => segment
        end
      else segment
  end.

(** The dots of one train in schedule-fallback mode (lines 308-381). *)
Definition fallbackDots (tid : string) (entries : list ScheduleEntry)
    : Rand (list Dot) :=
  match entries with
  | [] => ret []
  | _ =>
      placed <- walk tid entries ;;
      match placed with
      | Some d => ret [d]
      | None =>
          let last_ := last entries (mkEntry "" "" 0 "" "" None) in
          match nodeFor nodeList (station_id last_) with
          | Some n =>
              ret [mkDot tid (n_x n) (n_y n) (colorForEntry last_) stopped
                         None None None]
          | None => ret []
          end
      end
  end.

Definition trainDots (trainPositions : list TrainPosition)
    (segments : list (string * list ScheduleEntry)) : Rand (list Dot) :=
  if negb (is_empty trainPositions) then
    ret (flat_map (fun position => match pushedDot position with
                                   | Some d => [d]
                                   | None => []
                                   end) trainPositions)
  else
    dss <- mapM (fun kv => fallbackDots (fst kv) (snd kv))
                (Object_entries segments) ;;
    ret (List.concat dss).

End WithNodes.

(** One evaluation of the map for given inputs: the station nodes and the
    train dots. *)
Definition GeoMap (stations : list Station) (schedule : list ScheduleEntry)
    (trainPositions : list TrainPosition) (nowMs : Z)
    : Rand (list Node * list Dot) :=
  ns <- nodes stations ;;
  dots <- trainDots ns nowMs trainPositions (trainSegments schedule) ;;
  ret (ns, dots).

End WithTrains.

(** ** Gantt bar placement (App.tsx, [GanttChart], lines 1400 and 1447-1450) *)

Record TimeWindow := mkWindow { tw_min : Q; tw_max : Q }.

Definition span (timeWindow : TimeWindow) : Q :=
  Qmax 1 (tw_max timeWindow - tw_min timeWindow)%Q.

Definition leftPct (e : ScheduleEntry) (timeWindow : TimeWindow) : Q :=
  let start := getTime (actual_arrival e) in
  Qmax 0 ((inject_Z start - tw_min timeWindow) / span timeWindow * 100)%Q.

Definition widthPct (e : ScheduleEntry) (timeWindow : TimeWindow) : Q :=
  let start := getTime (actual_arrival e) in
  let end_ := getTime (actual_departure e) in
  Qmax (1 # 2) (inject_Z (end_ - start) / span timeWindow * 100)%Q.

End WithClock.

(** ** Shared time window and tick marks (App.tsx, lines 1936-1962 and
      1370-1398) *)

Section WithClockWindows.

Variable getTime : string -> Z.

(** [Math.min(...l)] and [Math.max(...l)] on a non-empty array of
    integers. *)
Definition Zmin_list (l : list Z) : Z :=
  match l with
  | [] => 0
  | x :: r => fold_left Z.min r x
  end.

Definition Zmax_list (l : list Z) : Z :=
  match l with
  | [] => 0
  | x :: r => fold_left Z.max r x
  end.

Definition entry_times (entries : list ScheduleEntry) : list Z :=
  flat_map (fun e => [getTime (actual_arrival e);
                      getTime (actual_departure e)]) entries.

(** [getTimeWindow]; [now1] and [now2] are the two readings of [Date.now()]
    made when [entries] is empty. *)
Definition getTimeWindow (now1 now2 : Z) (entries : list ScheduleEntry)
    : TimeWindow :=
  if is_empty entries then
    mkWindow (inject_Z (now1 - 30 * 60 * 1000))
             (inject_Z (now2 + 30 * 60 * 1000))
  else
    let times := entry_times entries in
    let minTime := Zmin_list times in
    let maxTime := Zmax_list times in
    let timeSpan := maxTime - minTime in
    let padding :=
      Qmax (inject_Z (30 * 60 * 1000))
           (Qmin (inject_Z (2 * 60 * 60 * 1000))
                 (inject_Z timeSpan * (1 # 10))%Q) in
    mkWindow (inject_Z minTime - padding)%Q (inject_Z maxTime + padding)%Q.

Definition sharedWindow (beforeWindow afterWindow : TimeWindow) : TimeWindow :=
  mkWindow (Qmin (tw_min beforeWindow) (tw_min afterWindow))
           (Qmax (tw_max beforeWindow) (tw_max afterWindow)).

End WithClockWindows.

(** [Math.ceil]. *)
Definition Math_ceil (x : Q) : Z := Qceiling x.

Definition tickInterval (timeWindow : TimeWindow) : Z :=
  let totalSpan := (tw_max timeWindow - tw_min timeWindow)%Q in
  if Qle_bool totalSpan (inject_Z (2 * 60 * 60 * 1000)) then 10 * 60 * 1000
  else if Qle_bool totalSpan (inject_Z (8 * 60 * 60 * 1000)) then 30 * 60 * 1000
  else 60 * 60 * 1000.

(** The loop [for (let t = start; t <= end; t += tickInterval)]; [fuel]
    bounds the number of iterations. *)
Fixpoint tick_loop (fuel : nat) (t end_ step_ : Z) : list Z :=
  match fuel with
  | O => []
  | S fuel' =>
      if t <=? end_ then t :: tick_loop fuel' (t + step_) end_ step_ else []
  end.

(** A tick mark: the instant it labels and its offset in percent.  The label
    text and the [isHour] flag, which depend on the locale, are left out. *)
Record Tick := mkTick { tick_time : Z; tick_leftPct : Q }.

Definition ticks (timeWindow : TimeWindow) : list Tick :=
  let interval := tickInterval timeWindow in
  let start := Math_floor (tw_min timeWindow / inject_Z interval)%Q * interval in
  let end_ := Math_ceil (tw_max timeWindow / inject_Z interval)%Q * interval in
  map (fun t => mkTick t ((inject_Z t - tw_min timeWindow)
                          / span timeWindow * 100)%Q)
      (tick_loop (Z.to_nat ((end_ - start) / interval + 1)) start end_ interval).

(** ** Delay arrays and delay bars (App.tsx, lines 998-1056) *)

Section DelayArrays.

Variable getTime : string -> Z.
Variable trains : list Train.

(** [t?.scheduled_arrival || t?.scheduled_departure]. *)
Definition scheduledRef (t : option Train) : option string :=
  match t with
  | Some t' =>
      match truthy (scheduled_arrival t') with
      | Some sa => Some sa
      | None => truthy (scheduled_departure t')
      end
  | None => None
  end.

(** [Number(x.toFixed(1))]: the value rounded to tenths. *)
Definition round_tenths (x : Q) : Q := (inject_Z (toFixed1 x) / 10)%Q.

Definition computeDelayArray (entries : list ScheduleEntry) : list Q :=
  flat_map (fun e =>
              match scheduledRef (getTrain trains (train_id e)) with
              | Some ref =>
                  [round_tenths (delayMinutes getTime ref (actual_arrival e))]
              | None => []
              end) entries.

End DelayArrays.

(** What [DelayBars] draws: the average, the total, and the height in
    percent of each bar. *)
Record DelayBarsView := mkDelayBars {
  db_avg : Q;
  db_total : Q;
  db_heights : list Q
}.

Definition Qsum (l : list Q) : Q := fold_left Qplus l 0%Q.

Definition DelayBars (values : list Q) : DelayBarsView :=
  let maxVal := fold_left Qmax values 2%Q in
  let bars := firstn (Nat.min (List.length values) 12) values in
  let total := Qsum values in
  let avg := if is_empty values then 0%Q
             else (total / inject_Z (Z.of_nat (List.length values)))%Q in
  mkDelayBars avg total (map (fun v => (v / maxVal * 100)%Q) bars).

(** ** Audit log (App.tsx, [fetchLogs], lines 772-781) *)

Record LogEntry := mkLog {
  log_timestamp : string;
  log_action : string;
  log_details : string
}.

(** [data.slice(-50)]. *)
Definition slice_last {A} (n : nat) (l : list A) : list A :=
  skipn (List.length l - n) l.

(** The value of the [logs] state after [fetchLogs]. *)
Definition fetchLogs (r : Fetch (list LogEntry)) (logs : list LogEntry)
    : list LogEntry :=
  match r with
  | Ok data => rev (slice_last 50 data)
  | NotOk => logs
  | Rejected => logs
  end.

(** ** Track occupancy (App.tsx, lines 180-199) *)

Record Occupancy := mkOccupancy {
  occ_route : Route;
  occ_trains : list string;
  occ_conflicts : bool
}.

Definition on_route (trains : list Train) (route : Route)
    (entry : ScheduleEntry) : bool :=
  match getTrain trains (train_id entry) with
  | Some train =>
      match origin train, destination train with
      | Some o, Some d =>
          (String.eqb o (r_from route) && String.eqb d (r_to route)) ||
          (String.eqb o (r_to route) && String.eqb d (r_from route))
      | _, _ => false
      end
  | None => false
  end.

Definition trackOccupancy (trains : list Train) (schedule : list ScheduleEntry)
    : list Occupancy :=
  map (fun route =>
         let ts := map train_id (filter (on_route trains route) schedule) in
         mkOccupancy route ts (tracks route <? Z.of_nat (List.length ts)))
      routes.

(** ** The checks of [submitOverride] before the request (App.tsx,
      lines 1133-1153) *)

Inductive OverrideDecision :=
| NothingSelected
| TrainNotFound          (* 'Train not found in current schedule' *)
| DelayWarning (trainId stationId : string) (platform : Z)
| SendOverride (trainId stationId : string) (platform : Z).

Definition submitOverride_checks (schedule : list ScheduleEntry)
    (selectedTrain : option string) (overridePlatform : Z)
    (delayImpact : option Impact) (forceOverride : bool) : OverrideDecision :=
  match truthy selectedTrain with
  | None => NothingSelected
  | Some sel =>
      match find_first (fun s => String.eqb (train_id s) sel) schedule with
      | None => TrainNotFound
      | Some s =>
          match truthy (Some (station_id s)) with
          | None => TrainNotFound
          | Some stationId =>
              if negb forceOverride &&
                 match delayImpact with
                 | Some i => negb (Qle_bool (difference i) 2)
                 | None => false
                 end
              then DelayWarning sel stationId overridePlatform
              else SendOverride sel stationId overridePlatform
          end
      end
  end.

(** ** The entries of the "before" panel (App.tsx, lines 1897-1931)

    [byId] is a plain object keyed by train id; assigning to a key that is
    present keeps the key's position. *)
Fixpoint obj_set {V} (k : string) (v : V) (o : list (string * V))
    : list (string * V) :=
  match o with
  | [] => [(k, v)]
  | (k', v') :: r =>
      if String.eqb k' k then (k', v) :: r else (k', v') :: obj_set k v r
  end.

Definition Object_values {V} (o : list (string * V)) : list V :=
  map snd (Object_entries o).

Definition synthetic_entry (trains : list Train) (id arrival departure : string)
    (byId : list (string * ScheduleEntry)) : list (string * ScheduleEntry) :=
  match find_first (fun t => String.eqb (tr_id t) id) trains with
  | Some t =>
      obj_set id
        (mkEntry id
           (match truthy (origin t) with Some o => o | None => "HYB" end)
           1
           (match truthy (scheduled_arrival t) with
            | Some a => a | None => arrival end)
           (match truthy (scheduled_departure t) with
            | Some d => d | None => departure end)
           (Some "pre-optimization conflict baseline"))
        byId
  | None => byId
  end.

Definition beforeEntries (trains : list Train) (baseBefore : list ScheduleEntry)
    : list ScheduleEntry :=
  let byId := fold_left (fun o e => obj_set (train_id e) e o) baseBefore [] in
  let byId := synthetic_entry trains "T104" "2025-09-22T09:05:00"
                              "2025-09-22T09:30:00" byId in
  let byId := synthetic_entry trains "T106" "2025-09-22T09:12:00"
                              "2025-09-22T09:22:00" byId in
  Object_values byId.

(** ** Predicates used to state the itinerary properties *)

(** [a] does not arrive after [b]. *)
Definition arrives_before (getTime : string -> Z) (a b : ScheduleEntry) : Prop :=
  getTime (actual_arrival a) <= getTime (actual_arrival b).

(** [e] is an entry of train [k]. *)
Definition of_train (k : string) (e : ScheduleEntry) : bool :=
  String.eqb (train_id e) k.

(** ** Predicates used to state the properties of the fallback dots *)

Section PlacedDots.

Variable getTime : string -> Z.
Variable trains : list Train.
Variable nodeList : list Node.
Variable nowMs : Z.

(** What a placed dot is: the station dot of an entry, drawn without a
    random draw, or the segment dot of two consecutive entries. *)
Definition placed_at_station (tid : string) (entries : list ScheduleEntry)
    (g : Rng) (d : Dot) (g' : Rng) : Prop :=
  exists cur n,
    In cur entries /\ nodeFor nodeList (station_id cur) = Some n /\
    d = stationDot getTime trains nowMs tid cur n /\ g' = g.

Definition placed_on_segment (tid : string) (entries : list ScheduleEntry)
    (g : Rng) (d : Dot) (g' : Rng) : Prop :=
  exists pre cur next post a b,
    entries = (pre ++ cur :: next :: post)%list /\
    nodeFor nodeList (station_id cur) = Some a /\
    nodeFor nodeList (station_id next) = Some b /\
    getTime (actual_departure cur) <= nowMs <= getTime (actual_arrival next) /\
    segmentDot getTime trains nowMs tid cur next a b g = (d, g').

(** Every draw of the stream lies in [0, 1), as those of [Math.random()]
    do. *)
Definition unit_draws (g : Rng) : Prop :=
  forall n : nat, (0 <= g n)%Q /\ (g n < 1)%Q.

End PlacedDots.

(** ** Predicates used to state the properties of the station nodes *)

(** A node with finite coordinates inside the padded canvas. *)
Definition in_canvas (n : Node) : Prop :=
  exists x y : Q,
    n_x n = Some x /\ n_y n = Some y /\
    (40 <= x)%Q /\ (x <= 960)%Q /\ (40 <= y)%Q /\ (y <= 280)%Q.

(** ** Predicates used to state the properties of the reconciliation state *)

(** The event is a tick of the polling interval. *)
Definition is_poll (ev : Event) : Prop :=
  match ev with
  | Poll _ _ => True
  | _ => False
  end.

(** The request did not deliver a body. *)
Definition failed {A} (r : Fetch A) : Prop :=
  match r with
  | Ok _ => False
  | _ => True
  end.

(** ** The estimate as the specification words it

    [3 minutes x count(other entries at same station/platform with overlapping
    occupancy)]: an entry of another train counts only when its occupancy
    window intersects the one of the train's own entry. *)
Definition overlapping (getTime : string -> Z) (a b : ScheduleEntry) : bool :=
  (getTime (actual_arrival a) <=? getTime (actual_departure b)) &&
  (getTime (actual_arrival b) <=? getTime (actual_departure a)).

Definition spec_additionalDelay (getTime : string -> Z)
    (schedule : list ScheduleEntry) (currentEntry : ScheduleEntry)
    (trainId : string) (newPlatform : Z) : Q :=
  inject_Z (3 * Z.of_nat (List.length
    (filter (fun s =>
               String.eqb (station_id s) (station_id currentEntry) &&
               Z.eqb (assigned_platform s) newPlatform &&
               negb (String.eqb (train_id s) trainId) &&
               overlapping getTime s currentEntry)
            schedule))).

(** ** Sample data for the closed examples *)


Definition train_T1 : Train :=
  mkTrain "T1" (Some "Express") None (Some "2025-09-22T09:00:00")
          (Some "2025-09-22T12:00:00") (Some "HYB") (Some "SC") None.

Definition train_T2 : Train :=
  mkTrain "T2" (Some "Local") None (Some "2025-09-22T13:00:00")
          (Some "2025-09-22T13:10:00") (Some "HYB") (Some "KCG") None.

Definition sample_trains : list Train := [train_T1; train_T2].

(** T1 stands at HYB platform 1 from 09:05 to 09:15 (five minutes late); T2
    stands at HYB platform 2 from 13:00 to 13:10. *)
Definition entry_T1 : ScheduleEntry :=
  mkEntry "T1" "HYB" 1 "2025-09-22T09:05:00" "2025-09-22T09:15:00" None.

Definition entry_T2 : ScheduleEntry :=
  mkEntry "T2" "HYB" 2 "2025-09-22T13:00:00" "2025-09-22T13:10:00" None.

Definition sample_schedule : list ScheduleEntry := [entry_T1; entry_T2].

(** Two baselines the server may answer with. *)
Definition baseline_X : list ScheduleEntry :=
  [ mkEntry "T1" "HYB" 1 "2025-09-22T09:00:00" "2025-09-22T09:10:00"
            (Some "initial schedule") ].

Definition baseline_Y : list ScheduleEntry :=
  [ mkEntry "T1" "HYB" 3 "2025-09-22T09:00:00" "2025-09-22T09:10:00"
            (Some "initial schedule") ].

Definition response_of (l : list ScheduleEntry) : ScheduleResponse :=
  mkResponse l None None.

(** A render that shows snapshot [entry_T1] and no baseline. *)
Definition state_A : AppState := mkState [entry_T1] [] [] [] [] false.

(** ** The station status as the specification words it

    [delayed] if the entry's actual arrival exceeds the train's scheduled
    arrival by more than 2 minutes; [waiting] if more than 5 minutes remain
    before the train's scheduled departure; [stopped] otherwise. *)
Definition spec_stationStatus (getTime : string -> Z) (trains : list Train)
    (nowMs : Z) (cur : ScheduleEntry) : Status :=
  if isDelayed getTime trains cur then delayed
  else match getTrain trains (train_id cur) with
       | Some t =>
           match truthy (scheduled_departure t) with
           | Some sd => if nowMs <? getTime sd - 300000 then waiting
                        else stopped
           | None => stopped
           end
       | None => stopped
       end.

(** ** Sample data for the map *)

Definition station_of (id : string) (p : Z) : Station :=
  mkStation id p (Some id) (Some id) None None (Some false).

(** HYB and SC are in the position table; BZA is not. *)
Definition sample_stations : list Station :=
  [station_of "HYB" 4; station_of "SC" 6; station_of "BZA" 2].

Definition draws_low : Rng := fun _ => 1 # 4.
Definition draws_high : Rng := fun _ => 3 # 4.

Definition sample_nodes : list Node := fst (nodes sample_stations draws_low).

(** T1 reaches HYB at 09:01, one minute late, and leaves at 09:10. *)
Definition entry_T1_ontime : ScheduleEntry :=
  mkEntry "T1" "HYB" 1 "2025-09-22T09:01:00" "2025-09-22T09:10:00" None.

(** T1 reaches SC at 09:25, ten minutes after leaving HYB at 09:15. *)
Definition entry_T1_SC : ScheduleEntry :=
  mkEntry "T1" "SC" 2 "2025-09-22T09:25:00" "2025-09-22T09:35:00" None.



(** * Properties *)

From Stdlib Require Import Lqa.

Example utc_ms_2024 : utc_ms "2024-01-01T00:00:00" = 1704067200000.
Proof. reflexivity. Qed.

Example utc_ms_epoch : utc_ms "1970-01-01T00:00:01" = 1000.
Proof. reflexivity. Qed.

(** ** Gantt bar placement *)

Lemma span_ge_1 (w : TimeWindow) : (1 <= span w)%Q.
Proof. unfold span. apply Q.le_max_l. Qed.

(** C8.  For every entry and every window the divisor [span] is at least 1
    (it is exactly 1 on a window of zero span), so the two percentages are
    quotients by a non-zero number; [leftPct] is never negative and [widthPct]
    is never below one half. *)
Theorem gantt_bar_placement_bounds :
  forall (getTime : string -> Z) (e : ScheduleEntry) (w : TimeWindow),
    (1 <= span w)%Q /\
    ~ (span w == 0)%Q /\
    (forall m : Q, span (mkWindow m m) == 1)%Q /\
    (0 <= leftPct getTime e w)%Q /\
    ((1 # 2) <= widthPct getTime e w)%Q.
Proof.
  intros getTime e w.
  assert (H1 := span_ge_1 w).
  repeat split.
  - exact H1.
  - intro H0. rewrite H0 in H1. revert H1. unfold Qle; simpl; lia.
  - intro m. unfold span; simpl.
    rewrite Q.max_l; [reflexivity |].
    setoid_replace (m - m)%Q with 0%Q by ring. unfold Qle; simpl; lia.
  - unfold leftPct. apply Q.le_max_l.
  - unfold widthPct. apply Q.le_max_l.
Qed.

Example gantt_zero_span_bar :
  let e := mkEntry "T1" "HYB" 1 "2025-09-22T09:05:00" "2025-09-22T09:05:00" None in
  let w := mkWindow (inject_Z (utc_ms "2025-09-22T09:05:00"))
                    (inject_Z (utc_ms "2025-09-22T09:05:00")) in
  (leftPct utc_ms e w == 0)%Q /\ (widthPct utc_ms e w == 1 # 2)%Q.
Proof. split; reflexivity. Qed.

(** ** KPIs *)

Section KpiFacts.

Variable getTime : string -> Z.
Variable trains : list Train.

Lemma kpi_step_effect (acc : Z * Q) (s : ScheduleEntry) :
  fst (kpi_step getTime trains acc s)
    = fst acc + ontime_count getTime trains [s] /\
  (snd (kpi_step getTime trains acc s)
    == snd acc + delay_sum getTime trains [s])%Q.
Proof.
  unfold kpi_step, ontime_count, delay_sum, kpi_delay, getTrain.
  cbn [filter].
  destruct (find_first _ trains) as [t|].
  - destruct (truthy (scheduled_arrival t)) as [sa|].
    + destruct (Qle_bool _ 2); cbn [fst snd List.length];
        (split; [lia | ring]).
    + cbn [fst snd List.length]. split; [lia | ring].
  - cbn [fst snd List.length]. split; [lia | ring].
Qed.

Lemma ontime_count_cons (s : ScheduleEntry) (l : list ScheduleEntry) :
  ontime_count getTime trains (s :: l)
    = ontime_count getTime trains [s] + ontime_count getTime trains l.
Proof.
  unfold ontime_count. cbn [filter].
  destruct (kpi_delay getTime trains s) as [d|];
    [destruct (Qle_bool d 2)|]; cbn [List.length]; lia.
Qed.

Lemma delay_sum_cons (s : ScheduleEntry) (l : list ScheduleEntry) :
  (delay_sum getTime trains (s :: l)
    == delay_sum getTime trains [s] + delay_sum getTime trains l)%Q.
Proof. simpl. ring. Qed.

Lemma kpi_fold (l : list ScheduleEntry) :
  forall acc : Z * Q,
    fst (fold_left (kpi_step getTime trains) l acc)
      = fst acc + ontime_count getTime trains l /\
    (snd (fold_left (kpi_step getTime trains) l acc)
      == snd acc + delay_sum getTime trains l)%Q.
Proof.
  induction l as [|s l IH]; intro acc.
  - simpl. split; [unfold ontime_count; simpl; lia | ring].
  - cbn [fold_left].
    destruct (IH (kpi_step getTime trains acc s)) as [Hc Hs].
    destruct (kpi_step_effect acc s) as [Hc1 Hs1].
    split.
    + rewrite Hc, Hc1, (ontime_count_cons s l). lia.
    + rewrite Hs, Hs1, (delay_sum_cons s l). ring.
Qed.

End KpiFacts.

(** C10.  On an empty snapshot the KPIs are exactly [0, 0, 0].  On a
    non-empty snapshot of [n] entries the divisor [n] is positive, [total] is
    [n], the on-time percentage is an integer within one half of 100 times
    the number of on-time entries divided by [n], and the average delay is a
    one-decimal figure within one twentieth of the sum of the delays divided
    by [n]: both are computed over the full entry count.  The bounds are not
    strict, so they do not depend on the side to which a tie is rounded. *)
Theorem computeKPIs_spec :
  forall (getTime : string -> Z) (trains : list Train),
    computeKPIs getTime trains [] = mkKPIs 0 0 (KNumber 0) /\
    forall (e : ScheduleEntry) (rest : list ScheduleEntry),
      let schedule := e :: rest in
      let n := Z.of_nat (List.length schedule) in
      let k := computeKPIs getTime trains schedule in
      let pct := (inject_Z (ontime_count getTime trains schedule)
                  / inject_Z n * 100)%Q in
      let avg := (delay_sum getTime trains schedule / inject_Z n)%Q in
      0 < n /\
      total k = n /\
      (pct - (1 # 2) <= inject_Z (ontimePct k))%Q /\
      (inject_Z (ontimePct k) <= pct + (1 # 2))%Q /\
      exists tenths : Z,
        avgDelay k = KFixed1 tenths /\
        (avg - (1 # 20) <= inject_Z tenths / 10)%Q /\
        (inject_Z tenths / 10 <= avg + (1 # 20))%Q.
Proof.
  intros getTime trains. split; [reflexivity |].
  intros e rest schedule n k pct avg.
  split; [subst n schedule; simpl; lia |].
  subst k. unfold computeKPIs. fold schedule.
  change (match schedule with
          | [] => mkKPIs 0 0 (KNumber 0)
          | _ :: _ =>
              let total := Z.of_nat (List.length schedule) in
              let '(ontime, sumDelay) :=
                fold_left (kpi_step getTime trains) schedule (0, 0%Q) in
              mkKPIs total
                (Math_round (inject_Z ontime / inject_Z total * 100)%Q)
                (KFixed1 (toFixed1 (sumDelay / inject_Z total)%Q))
          end)
    with (let total := Z.of_nat (List.length schedule) in
          let '(ontime, sumDelay) :=
            fold_left (kpi_step getTime trains) schedule (0, 0%Q) in
          mkKPIs total
            (Math_round (inject_Z ontime / inject_Z total * 100)%Q)
            (KFixed1 (toFixed1 (sumDelay / inject_Z total)%Q))).
  cbv zeta. fold n.
  destruct (kpi_fold getTime trains schedule (0, 0%Q)) as [Hc Hs].
  destruct (fold_left (kpi_step getTime trains) schedule (0, 0%Q))
    as [ontime sumDelay].
  cbn [fst snd] in Hc, Hs. unfold schedule at 1 2 3 4.
  cbn [total ontimePct avgDelay].
  rewrite Z.add_0_l in Hc. subst ontime. fold pct.
  assert (Havg : (sumDelay / inject_Z n == avg)%Q)
    by (subst avg; rewrite Hs, Qplus_0_l; reflexivity).
  split; [reflexivity |].
  unfold Math_round, toFixed1.
  pose proof (Qfloor_le (pct + (1 # 2))) as P1.
  pose proof (Qlt_floor (pct + (1 # 2))) as P2.
  rewrite inject_Z_plus in P2. change (inject_Z 1) with 1%Q in P2.
  split; [lra |]. split; [lra |].
  eexists. split; [reflexivity |].
  rewrite (Qfloor_comp _ _ (Qplus_comp _ _ (Qmult_comp _ _ Havg _ _ (Qeq_refl 10))
                                      _ _ (Qeq_refl (1 # 2)))).
  pose proof (Qfloor_le (avg * 10 + (1 # 2))) as A1.
  pose proof (Qlt_floor (avg * 10 + (1 # 2))) as A2.
  rewrite inject_Z_plus in A2. change (inject_Z 1) with 1%Q in A2.
  set (t := inject_Z (Qfloor (avg * 10 + (1 # 2)))) in *.
  split.
  - apply (Qmult_le_r _ _ 10); [reflexivity |].
    setoid_replace (t / 10 * 10)%Q with t by field. lra.
  - apply (Qmult_le_r _ _ 10); [reflexivity |].
    setoid_replace (t / 10 * 10)%Q with t by field. lra.
Qed.

Example computeKPIs_two_entries :
  let trains := [ mkTrain "T1" None None (Some "2025-09-22T09:00:00") None
                          None None None ] in
  let schedule :=
    [ mkEntry "T1" "HYB" 1 "2025-09-22T09:01:00" "2025-09-22T09:10:00" None;
      mkEntry "T9" "HYB" 2 "2025-09-22T09:30:00" "2025-09-22T09:40:00" None ] in
  computeKPIs utc_ms trains schedule = mkKPIs 2 50 (KFixed1 5).
Proof. vm_compute. reflexivity. Qed.

(** ** Changed-train set *)

Lemma find_first_some {A} (p : A -> bool) (l : list A) (x : A) :
  find_first p l = Some x -> In x l /\ p x = true.
Proof.
  induction l as [|y l IH]; simpl; [discriminate |].
  destruct (p y) eqn:Hp.
  - intros [= ->]. auto.
  - intro H. destruct (IH H). auto.
Qed.






(** ** Override impact estimator *)

Lemma conflictingTrains_spec (schedule : list ScheduleEntry) (trainId : string)
    (newPlatform : Z) (currentEntry s : ScheduleEntry) :
  In s (conflictingTrains schedule currentEntry trainId newPlatform) <->
  In s schedule /\
  station_id s = station_id currentEntry /\
  assigned_platform s = newPlatform /\
  train_id s <> trainId.
Proof.
  unfold conflictingTrains. rewrite filter_In, !andb_true_iff, negb_true_iff.
  rewrite !String.eqb_eq, Z.eqb_eq, String.eqb_neq. tauto.
Qed.

Section EstimatorFacts.

Variable getTime : string -> Z.
Variable trains : list Train.
Variable schedule : list ScheduleEntry.
Variable trainId : string.
Variable newPlatform : Z.

(** The result of the fallback branch. *)
Lemma calculateDelayImpact_fallback (sim : Simulate)
    (currentEntry : ScheduleEntry) (train : Train) (sa : string) :
  find_first (fun s => String.eqb (train_id s) trainId) schedule
    = Some currentEntry ->
  getTrain trains trainId = Some train ->
  truthy (scheduled_arrival train) = Some sa ->
  sim = HttpError \/ sim = Simulation None ->
  calculateDelayImpact getTime trains schedule trainId newPlatform sim =
    let currentDelay := delayMinutes getTime sa (actual_arrival currentEntry) in
    let estimatedAdditionalDelay :=
      inject_Z (Z.of_nat (List.length
        (conflictingTrains schedule currentEntry trainId newPlatform)) * 3) in
    Normal (Some (mkImpact currentDelay
                           (currentDelay + estimatedAdditionalDelay)%Q
                           estimatedAdditionalDelay)).
Proof.
  intros He Ht Hs Hsim.
  unfold calculateDelayImpact, calculateDelayImpact_try.
  rewrite He, Ht, Hs. destruct Hsim as [-> | ->]; reflexivity.
Qed.

End EstimatorFacts.

(** C5, as the code has it.  On the fallback path (the server answered with
    an error status, or with a payload without [target_train_impact]) the
    additional delay is 3 minutes for every entry of another train at the
    station of the train's first entry and on the target platform, whether or
    not the occupancy windows overlap; the predicted delay is the current
    delay plus the additional delay; with exactly one such entry the delay
    delta is 3. *)
Theorem fallback_estimate :
  forall (getTime : string -> Z) (trains : list Train)
         (schedule : list ScheduleEntry) (trainId : string) (newPlatform : Z)
         (sim : Simulate) (currentEntry : ScheduleEntry) (train : Train)
         (sa : string),
    find_first (fun s => String.eqb (train_id s) trainId) schedule
      = Some currentEntry ->
    getTrain trains trainId = Some train ->
    truthy (scheduled_arrival train) = Some sa ->
    sim = HttpError \/ sim = Simulation None ->
    exists (impact : Impact) (conflicting : list ScheduleEntry),
      calculateDelayImpact getTime trains schedule trainId newPlatform sim
        = Normal (Some impact) /\
      (forall s, In s conflicting <->
                 In s schedule /\
                 station_id s = station_id currentEntry /\
                 assigned_platform s = newPlatform /\
                 train_id s <> trainId) /\
      conflicting = conflictingTrains schedule currentEntry trainId newPlatform /\
      (current impact ==
         Qmax 0 (inject_Z (getTime (actual_arrival currentEntry) - getTime sa)
                 / 60000))%Q /\
      (difference impact == 3 * inject_Z (Z.of_nat (List.length conflicting)))%Q /\
      (predicted impact == current impact + difference impact)%Q /\
      (List.length conflicting = 1%nat -> difference impact == 3)%Q.
Proof.
  intros getTime trains schedule trainId newPlatform sim currentEntry train sa
         He Ht Hs Hsim.
  eexists. exists (conflictingTrains schedule currentEntry trainId newPlatform).
  split.
  - apply (calculateDelayImpact_fallback getTime trains schedule trainId
             newPlatform sim currentEntry train sa He Ht Hs Hsim).
  - cbv zeta. cbn [current predicted difference].
    split; [intro s; apply conflictingTrains_spec |].
    split; [reflexivity |].
    split; [reflexivity |].
    split; [rewrite inject_Z_mult; ring |].
    split; [reflexivity |].
    intros ->. reflexivity.
Qed.

Lemma fallback_estimate_witness :
  exists impact : Impact,
    calculateDelayImpact utc_ms sample_trains sample_schedule "T1" 2 HttpError
      = Normal (Some impact) /\
    (current impact == 5)%Q /\ (difference impact == 3)%Q /\
    (predicted impact == 8)%Q.
Proof.
  destruct (fallback_estimate utc_ms sample_trains sample_schedule "T1" 2
              HttpError entry_T1 train_T1 "2025-09-22T09:00:00"
              eq_refl eq_refl eq_refl (or_introl eq_refl))
    as (impact & conflicting & Hres & _ & Hc & Hcur & Hdiff & Hpred & Hone).
  exists impact.
  assert (Hd : (difference impact == 3)%Q)
    by (apply Hone; rewrite Hc; reflexivity).
  assert (Hcu : (current impact == 5)%Q)
    by (rewrite Hcur; reflexivity).
  repeat split; try assumption.
  rewrite Hpred, Hcu, Hd. reflexivity.
Defined.

(** C5, as worded, fails: T2 occupies platform 2 of HYB hours after T1 has
    left, so no occupancy window overlaps the one of T1, yet the fallback
    charges 3 minutes for it. *)
Lemma fallback_ignores_overlap :
  overlapping utc_ms entry_T2 entry_T1 = false /\
  (spec_additionalDelay utc_ms sample_schedule entry_T1 "T1" 2 == 0)%Q /\
  exists impact : Impact,
    calculateDelayImpact utc_ms sample_trains sample_schedule "T1" 2 HttpError
      = Normal (Some impact) /\
    (difference impact == 3)%Q /\
    ~ (difference impact
         == spec_additionalDelay utc_ms sample_schedule entry_T1 "T1" 2)%Q.
Proof.
  split; [reflexivity |]. split; [reflexivity |].
  eexists. split; [reflexivity |]. split; [reflexivity |].
  intro H. vm_compute in H. discriminate H.
Qed.

(** C4, as the code has it.  The estimator never throws.  It returns [null]
    exactly when the train's entry, the train, or the train's scheduled
    arrival is missing, or when the request itself rejects or its body cannot
    be read; when the server answers with an error status or with a payload
    that carries no impact, and the train, its scheduled arrival and its entry
    are present, the result is the non-null fallback estimate. *)
Theorem calculateDelayImpact_total :
  forall (getTime : string -> Z) (trains : list Train)
         (schedule : list ScheduleEntry) (trainId : string) (newPlatform : Z)
         (sim : Simulate),
    let result :=
      calculateDelayImpact getTime trains schedule trainId newPlatform sim in
    let located :=
      exists currentEntry train sa,
        find_first (fun s => String.eqb (train_id s) trainId) schedule
          = Some currentEntry /\
        getTrain trains trainId = Some train /\
        truthy (scheduled_arrival train) = Some sa in
    (exists v, result = Normal v) /\
    (result = Normal None <->
       ~ located \/ sim = FetchRejected \/ sim = BodyUnreadable) /\
    (located /\ (sim = HttpError \/ sim = Simulation None) ->
       exists impact, result = Normal (Some impact) /\
         (predicted impact == current impact + difference impact)%Q).
Proof.
  intros getTime trains schedule trainId newPlatform sim result located.
  subst result located.
  unfold calculateDelayImpact, calculateDelayImpact_try.
  destruct (find_first _ schedule) as [e|] eqn:He.
  2:{ split; [eauto |]. split.
      - split; [| reflexivity]. intros _. left.
        intros (e & t & sa & H & _). discriminate H.
      - intros [(e & t & sa & H & _) _]. discriminate H. }
  destruct (getTrain trains trainId) as [t|] eqn:Ht.
  2:{ split; [eauto |]. split.
      - split; [| reflexivity]. intros _. left.
        intros (e' & t & sa & _ & H & _). discriminate H.
      - intros [(e' & t & sa & _ & H & _) _]. discriminate H. }
  destruct (truthy (scheduled_arrival t)) as [sa|] eqn:Hs.
  2:{ split; [eauto |]. split.
      - split; [| reflexivity]. intros _. left.
        intros (e' & t' & sa & _ & [= <-] & H). congruence.
      - intros [(e' & t' & sa & _ & [= <-] & H) _]. congruence. }
  assert (Hloc : exists currentEntry train sa0,
             Some e = Some currentEntry /\ Some t = Some train /\
             truthy (scheduled_arrival train) = Some sa0)
    by (exists e, t, sa; auto).
  destruct sim as [ | | | [ti|]]; cbv zeta.
  - split; [eauto |]. split; [tauto |].
    intros [_ [H | H]]; discriminate H.
  - split; [eauto |]. split.
    + split; [discriminate |].
      intros [H | [H | H]]; [contradiction | discriminate H | discriminate H].
    + intros _. eexists. split; [reflexivity | reflexivity].
  - split; [eauto |]. split; [tauto |].
    intros [_ [H | H]]; discriminate H.
  - split; [eauto |]. split.
    + split; [discriminate |].
      intros [H | [H | H]]; [contradiction | discriminate H | discriminate H].
    + intros [_ [H | H]]; discriminate H.
  - split; [eauto |]. split.
    + split; [discriminate |].
      intros [H | [H | H]]; [contradiction | discriminate H | discriminate H].
    + intros _. eexists. split; [reflexivity | reflexivity].
Qed.

(** C4, as worded, fails: T1 and its entry are in the current snapshot, the
    server cannot be reached, and the estimator returns [null] instead of the
    fallback estimate. *)
Lemma unreachable_server_yields_null :
  find_first (fun s => String.eqb (train_id s) "T1") sample_schedule
    = Some entry_T1 /\
  getTrain sample_trains "T1" = Some train_T1 /\
  calculateDelayImpact utc_ms sample_trains sample_schedule "T1" 2
    FetchRejected = Normal None.
Proof. repeat split. Qed.

(** ** Reconciliation state *)

Lemma snapshot_eqb_refl (l : list ScheduleEntry) : snapshot_eqb l l = true.
Proof.
  induction l as [|e l IH]; [reflexivity |].
  cbn [snapshot_eqb]. rewrite IH, andb_true_r. unfold entry_eqb.
  rewrite !String.eqb_refl, Z.eqb_refl.
  destruct (reason e); [apply String.eqb_refl | reflexivity].
Qed.

(** A [fetchSchedule] whose render shows a baseline does not write the
    baseline. *)
Lemma fetchSchedule_keeps_baseline (seen st : AppState)
    (r : Fetch ScheduleResponse) (b : Fetch (list ScheduleEntry)) :
  baselineSchedule seen <> [] ->
  baselineSchedule (fetchSchedule seen r b st) = baselineSchedule st.
Proof.
  intro Hb. unfold fetchSchedule.
  destruct (baselineSchedule seen) as [|x l]; [congruence |].
  destruct r as [ | | data]; try reflexivity.
  cbn [is_empty andb]. rewrite andb_false_r.
  destruct (negb (is_empty (schedule seen)) &&
            negb (snapshot_eqb (schedule seen) (resp_schedule data)));
    reflexivity.
Qed.

(** A failed schedule request leaves the three snapshots as they are. *)
Lemma fetchSchedule_failure (seen st : AppState)
    (r : Fetch ScheduleResponse) (b : Fetch (list ScheduleEntry)) :
  r = Rejected \/ r = NotOk ->
  let st' := fetchSchedule seen r b st in
  schedule st' = schedule st /\
  baselineSchedule st' = baselineSchedule st /\
  previousSchedule st' = previousSchedule st.
Proof. intros [-> | ->]; repeat split. Qed.

(** A successful reset whose render shows a baseline ends with no baseline. *)
Lemma resetSystem_clears_baseline (seen st : AppState)
    (r : Fetch ScheduleResponse) (b : Fetch (list ScheduleEntry)) :
  baselineSchedule seen <> [] ->
  baselineSchedule (resetSystem seen (Ok tt) r b st) = [].
Proof.
  intro H. unfold resetSystem.
  rewrite (fetchSchedule_keeps_baseline seen _ r b H). reflexivity.
Qed.

(** C1, as the code has it.  From a render with no baseline and a non-empty
    current snapshot [A], ingesting [B] sets the current snapshot to [B]; the
    baseline becomes [A] when the follow-up baseline request does not
    succeed, and the fetched baseline when it does.  When the resulting
    baseline is not empty, a further ingest of the same snapshot, made from
    the render that shows the result, leaves baseline and current as they
    are. *)
Theorem ingest_promotes_current :
  forall (seen st : AppState) (A B : list ScheduleEntry)
         (data : ScheduleResponse) (b : Fetch (list ScheduleEntry)),
    schedule seen = A -> A <> [] -> baselineSchedule seen = [] ->
    resp_schedule data = B ->
    let st1 := fetchSchedule seen (Ok data) b st in
    schedule st1 = B /\
    baselineSchedule st1 = match b with Ok C => C | _ => A end /\
    forall (data2 : ScheduleResponse) (b2 : Fetch (list ScheduleEntry)),
      resp_schedule data2 = B -> baselineSchedule st1 <> [] ->
      let st2 := fetchSchedule st1 (Ok data2) b2 st1 in
      schedule st2 = B /\
      baselineSchedule st2 = baselineSchedule st1 /\
      previousSchedule st2 = previousSchedule st1.
Proof.
  intros seen st A B data b HA Hne Hb HB st1.
  assert (H1 : schedule st1 = B).
  { subst st1. unfold fetchSchedule. rewrite Hb, HA.
    destruct A; [congruence |]. cbn [is_empty negb andb].
    destruct b; cbn; exact HB. }
  assert (H2 : baselineSchedule st1 = match b with Ok C => C | _ => A end).
  { subst st1. unfold fetchSchedule. rewrite Hb, HA.
    destruct A; [congruence |]. cbn [is_empty negb andb].
    destruct b; reflexivity. }
  split; [exact H1 |]. split; [exact H2 |].
  intros data2 b2 HB2 Hne1 st2.
  split; [| split].
  - subst st2. unfold fetchSchedule.
    destruct (baselineSchedule st1); [congruence |].
    cbn [is_empty]. rewrite andb_false_r.
    destruct (negb (is_empty (schedule st1)) && _); cbn; exact HB2.
  - apply fetchSchedule_keeps_baseline. exact Hne1.
  - subst st2. unfold fetchSchedule.
    destruct (baselineSchedule st1); [congruence |].
    cbn [is_empty]. rewrite andb_false_r.
    rewrite HB2, H1, snapshot_eqb_refl. cbn [negb]. rewrite andb_false_r.
    reflexivity.
Qed.

Lemma ingest_promotes_current_witness :
  let st1 := fetchSchedule state_A (Ok (response_of [entry_T2])) NotOk state_A in
  schedule st1 = [entry_T2] /\
  baselineSchedule st1 = [entry_T1] /\
  let st2 := fetchSchedule st1 (Ok (response_of [entry_T2])) Rejected st1 in
  schedule st2 = [entry_T2] /\ baselineSchedule st2 = [entry_T1].
Proof.
  destruct (ingest_promotes_current state_A state_A [entry_T1] [entry_T2]
              (response_of [entry_T2]) NotOk eq_refl
              ltac:(discriminate) eq_refl eq_refl)
    as (H1 & H2 & H3).
  split; [exact H1 |]. split; [exact H2 |].
  destruct (H3 (response_of [entry_T2]) Rejected eq_refl
               ltac:(rewrite H2; discriminate)) as (H4 & H5 & _).
  split; [exact H4 | rewrite H5; exact H2].
Defined.

(** C1, as worded, fails: the render shows [entry_T1] and no baseline, the
    new snapshot is ingested, and the baseline request that follows succeeds;
    the baseline is then the server's one, not the former current
    snapshot. *)
Lemma ingest_baseline_from_server :
  schedule state_A = [entry_T1] /\
  baselineSchedule state_A = [] /\
  let st1 := fetchSchedule state_A (Ok (response_of [entry_T2]))
                           (Ok baseline_X) state_A in
  schedule st1 = [entry_T2] /\
  baselineSchedule st1 = baseline_X /\
  baselineSchedule st1 <> schedule state_A.
Proof.
  repeat split. cbv. intro H. discriminate H.
Qed.

(** C2.  The console is mounted and the first fetch stores the server's
    baseline [baseline_X], which is not empty.  A later tick of the polling
    interval, answered with [baseline_Y], replaces the stored baseline: the
    tick runs the [fetchSchedule] of the first render, for which
    [baselineSchedule] is still the initial empty array. *)
Theorem poll_overwrites_baseline :
  let st := run [Poll (Ok (response_of [entry_T1])) (Ok baseline_X)] in
  let st' := step st (Poll (Ok (response_of [entry_T1])) (Ok baseline_Y)) in
  baselineSchedule st = baseline_X /\
  baselineSchedule st <> [] /\
  schedule st' = schedule st /\
  baselineSchedule st' = baseline_Y /\
  baselineSchedule st' <> baselineSchedule st.
Proof.
  repeat split; cbv; intro H; discriminate H.
Qed.

(** ** Railway network map: schedule-fallback mode *)

Section FallbackFacts.

Variable getTime : string -> Z.
Variable trains : list Train.
Variable nodeList : list Node.
Variable nowMs : Z.

Lemma segmentDot_fields (tid : string) (cur next : ScheduleEntry) (a b : Node)
    (g : Rng) :
  let d := fst (segmentDot getTime trains nowMs tid cur next a b g) in
  let r := Qmax 0 (Qmin 1
             (inject_Z (nowMs - getTime (actual_departure cur))
              / Qmax 1 (inject_Z (getTime (actual_arrival next)
                                  - getTime (actual_departure cur))))%Q) in
  d_status d = moving /\
  d_id d = tid /\
  d_x d = nadd (n_x a) (nmul (nsub (n_x b) (n_x a)) (Some r)) /\
  d_y d = nadd (n_y a) (nmul (nsub (n_y b) (n_y a)) (Some r)).
Proof.
  unfold segmentDot, bind, ret, Math_random.
  destruct (find_first _ routes); cbn; repeat split.
Qed.

(** A dot placed by the loop is either the station dot of one of the
    entries, or a moving dot. *)
Lemma walk_some (tid : string) :
  forall (entries : list ScheduleEntry) (g g' : Rng) (d : Dot),
    walk getTime trains nodeList nowMs tid entries g = (Some d, g') ->
    (exists cur n, In cur entries /\
                   nodeFor nodeList (station_id cur) = Some n /\
                   d = stationDot getTime trains nowMs tid cur n) \/
    d_status d = moving.
Proof.
  induction entries as [|cur rest IH]; intros g g' d H.
  - discriminate H.
  - cbn [walk] in H.
    assert (Hrest : forall g0 g1 d0,
               walk getTime trains nodeList nowMs tid rest g0 = (Some d0, g1) ->
               (exists cur0 n, In cur0 (cur :: rest) /\
                  nodeFor nodeList (station_id cur0) = Some n /\
                  d0 = stationDot getTime trains nowMs tid cur0 n) \/
               d_status d0 = moving).
    { intros g0 g1 d0 H0. destruct (IH g0 g1 d0 H0) as [(c & n & Hin & Hn & Hd) | Hm].
      - left. exists c, n. split; [now right | auto].
      - now right. }
    set (seg := match hd_error rest with
                | Some next' => _
                | None => _
                end) in H.
    assert (Hseg : forall g0 g1 d0, seg g0 = (Some d0, g1) ->
               (exists cur0 n, In cur0 (cur :: rest) /\
                  nodeFor nodeList (station_id cur0) = Some n /\
                  d0 = stationDot getTime trains nowMs tid cur0 n) \/
               d_status d0 = moving).
    { subst seg. intros g0 g1 d0 H0.
      destruct (hd_error rest) as [next'|]; [| eauto].
      destruct ((_ <=? nowMs) && (nowMs <=? _)); [| eauto].
      destruct (nodeFor nodeList (station_id cur)) as [a|]; [| eauto].
      destruct (nodeFor nodeList (station_id next')) as [b|]; [| eauto].
      unfold bind, ret in H0.
      pose proof (segmentDot_fields tid cur next' a b g0) as Hf.
      cbv zeta in Hf.
      destruct (segmentDot getTime trains nowMs tid cur next' a b g0)
        as [d1 g2].
      injection H0 as <- _. right. apply Hf. }
    destruct ((nowMs <=? getTime (actual_departure cur)) || is_empty rest).
    + destruct (nodeFor nodeList (station_id cur)) as [n|] eqn:Hn.
      * unfold ret in H. injection H as <- _.
        left. exists cur, n. split; [now left | auto].
      * eauto.
    + eauto.
Qed.

(** When the loop ends without placing the train, the station of the last
    entry has no node, so the branch after the loop draws nothing. *)
Lemma walk_none (tid : string) :
  forall (entries : list ScheduleEntry) (g g' : Rng) (dflt : ScheduleEntry),
    entries <> [] ->
    walk getTime trains nodeList nowMs tid entries g = (None, g') ->
    nodeFor nodeList (station_id (last entries dflt)) = None.
Proof.
  induction entries as [|cur rest IH]; intros g g' dflt Hne H; [congruence |].
  cbn [walk] in H.
  destruct rest as [|next rest'].
  - cbn [hd_error is_empty] in H. rewrite orb_true_r in H.
    cbn [last]. destruct (nodeFor nodeList (station_id cur)); [| reflexivity].
    discriminate H.
  - change (last (cur :: next :: rest') dflt) with (last (next :: rest') dflt).
    cbn [hd_error is_empty] in H. rewrite orb_false_r in H.
    assert (Hseg : forall g0 g1,
      (if (getTime (actual_departure cur) <=? nowMs) &&
          (nowMs <=? getTime (actual_arrival next))
       then match nodeFor nodeList (station_id cur),
                  nodeFor nodeList (station_id next) with
            | Some a, Some b =>
                d <- segmentDot getTime trains nowMs tid cur next a b ;;
                ret (Some d)
            | _, _ => walk getTime trains nodeList nowMs tid (next :: rest')
            end
       else walk getTime trains nodeList nowMs tid (next :: rest')) g0
      = (None, g1) ->
      nodeFor nodeList (station_id (last (next :: rest') dflt)) = None).
    { intros g0 g1 H0.
      destruct (_ && _).
      - destruct (nodeFor nodeList (station_id cur)) as [a|].
        + destruct (nodeFor nodeList (station_id next)) as [b|].
          * unfold bind, ret in H0.
            destruct (segmentDot getTime trains nowMs tid cur next a b g0).
            discriminate H0.
          * eapply IH; [discriminate | exact H0].
        + eapply IH; [discriminate | exact H0].
      - eapply IH; [discriminate | exact H0]. }
    destruct (nowMs <=? getTime (actual_departure cur)).
    + destruct (nodeFor nodeList (station_id cur)) as [n|].
      * discriminate H.
      * eapply Hseg. exact H.
    + eapply Hseg. exact H.
Qed.

End FallbackFacts.

Lemma isDelayed_iff (getTime : string -> Z) (trains : list Train)
    (cur : ScheduleEntry) :
  isDelayed getTime trains cur = true <->
  exists t sa, getTrain trains (train_id cur) = Some t /\
               truthy (scheduled_arrival t) = Some sa /\
               120000 < getTime (actual_arrival cur) - getTime sa.
Proof.
  unfold isDelayed.
  destruct (getTrain trains (train_id cur)) as [t|].
  - destruct (truthy (scheduled_arrival t)) as [sa|] eqn:Hs.
    + change (2 * 60 * 1000) with 120000. rewrite Z.ltb_lt. split.
      * intro H. exists t, sa. auto.
      * intros (t' & sa' & [= <-] & Hs' & H).
        rewrite Hs in Hs'. injection Hs' as <-. exact H.
    + split; [discriminate |]. intros (t' & sa' & [= <-] & H & _).
      rewrite Hs in H. discriminate H.
  - split; [discriminate |]. intros (t' & sa' & H & _). discriminate H.
Qed.

(** C7, as worded, fails: at 09:08 train T1 stands at HYB, two minutes before
    its entry's departure at 09:10, and is drawn [stopped]; its scheduled
    departure is 12:00, so by the wording it would be [waiting]. *)
Lemma station_status_ignores_scheduled_departure :
  let now := utc_ms "2025-09-22T09:08:00" in
  map d_status
      (fst (fallbackDots utc_ms sample_trains sample_nodes now "T1"
              [entry_T1_ontime] draws_low)) = [stopped] /\
  isDelayed utc_ms sample_trains entry_T1_ontime = false /\
  scheduled_departure train_T1 = Some "2025-09-22T12:00:00" /\
  now < utc_ms "2025-09-22T12:00:00" - 300000 /\
  spec_stationStatus utc_ms sample_trains now entry_T1_ontime = waiting.
Proof. repeat split. Qed.

(** Two entries of one train, given in the order of their arrivals, form
    that train's itinerary. *)
Lemma trainSegments_pair (getTime : string -> Z) (eA eB : ScheduleEntry) :
  train_id eA = train_id eB ->
  getTime (actual_arrival eA) <= getTime (actual_arrival eB) ->
  Object_entries (trainSegments getTime [eA; eB])
    = [(train_id eA, [eA; eB])].
Proof.
  intros Hid Hle. unfold trainSegments. cbn [fold_left push_entry].
  rewrite Hid, String.eqb_refl. cbn [map fst snd app].
  unfold sort_by_arrival. cbn [fold_left insert_sorted].
  replace (getTime (actual_arrival eB) <? getTime (actual_arrival eA))
    with false by (symmetry; apply Z.ltb_ge; exact Hle).
  unfold Object_entries. cbn [fold_left filter fst].
  destruct (array_index (train_id eB)); reflexivity.
Qed.

Lemma half_ratio :
  (Qmax 0 (Qmin 1 (inject_Z 300000 / Qmax 1 (inject_Z 600000))) == 1 # 2)%Q.
Proof. reflexivity. Qed.

(** C6.  A train whose ordered itinerary is [eA; eB], leaving the station of
    [eA] at time T and reaching the station of [eB] at T + 10 minutes, is
    drawn at T + 5 minutes as a single [moving] dot at the midpoint of the
    two station nodes. *)
Theorem midpoint_of_segment :
  forall (getTime : string -> Z) (trains : list Train) (nodeList : list Node)
         (tid : string) (eA eB : ScheduleEntry) (a b : Node)
         (ax ay bx by_ : Q) (g : Rng),
    getTime (actual_arrival eB) = getTime (actual_departure eA) + 600000 ->
    nodeFor nodeList (station_id eA) = Some a ->
    nodeFor nodeList (station_id eB) = Some b ->
    n_x a = Some ax -> n_y a = Some ay ->
    n_x b = Some bx -> n_y b = Some by_ ->
    let nowMs := getTime (actual_departure eA) + 300000 in
    exists (d : Dot) (x y : Q),
      fst (fallbackDots getTime trains nodeList nowMs tid [eA; eB] g) = [d] /\
      d_id d = tid /\
      d_status d = moving /\
      d_x d = Some x /\ d_y d = Some y /\
      (x == (ax + bx) / 2)%Q /\ (y == (ay + by_) / 2)%Q.
Proof.
  intros getTime trains nodeList tid eA eB a b ax ay bx by_ g
         HT Ha Hb Hax Hay Hbx Hby nowMs.
  pose proof (segmentDot_fields getTime trains nowMs tid eA eB a b g) as Hf.
  cbv zeta in Hf. destruct Hf as (Hst & Hid & Hx & Hy).
  unfold fallbackDots, bind. cbn [walk hd_error is_empty].
  rewrite HT, Ha, Hb.
  replace (nowMs <=? getTime (actual_departure eA)) with false
    by (symmetry; apply Z.leb_gt; subst nowMs; lia).
  replace ((getTime (actual_departure eA) <=? nowMs) &&
           (nowMs <=? getTime (actual_departure eA) + 600000)) with true
    by (symmetry; apply andb_true_iff; split; apply Z.leb_le; subst nowMs; lia).
  cbn [orb]. unfold bind, ret.
  destruct (segmentDot getTime trains nowMs tid eA eB a b g) as [d g'].
  cbn [fst] in *.
  rewrite HT in Hx, Hy.
  replace (nowMs - getTime (actual_departure eA)) with 300000 in Hx, Hy
    by (subst nowMs; lia).
  replace (getTime (actual_departure eA) + 600000
           - getTime (actual_departure eA)) with 600000 in Hx, Hy by lia.
  rewrite Hax, Hbx in Hx. rewrite Hay, Hby in Hy. cbn in Hx, Hy.
  eexists d, _, _.
  split; [reflexivity |]. split; [exact Hid |]. split; [exact Hst |].
  split; [exact Hx |]. split; [exact Hy |].
  split; rewrite half_ratio; field.
Qed.

Lemma midpoint_of_segment_witness :
  exists (d : Dot) (x y : Q),
    fst (fallbackDots utc_ms sample_trains sample_nodes
           (utc_ms "2025-09-22T09:15:00" + 300000) "T1"
           [entry_T1; entry_T1_SC] draws_low) = [d] /\
    d_status d = moving /\
    d_x d = Some x /\ d_y d = Some y /\ (x == 350)%Q /\ (y == 130)%Q.
Proof.
  destruct (midpoint_of_segment utc_ms sample_trains sample_nodes "T1"
              entry_T1 entry_T1_SC
              (mkNode "HYB" (Some 200%Q) (Some 160%Q) (Some 4))
              (mkNode "SC" (Some 500%Q) (Some 100%Q) (Some 6))
              200 160 500 100 draws_low
              eq_refl eq_refl eq_refl eq_refl eq_refl eq_refl eq_refl)
    as (d & x & y & Hd & _ & Hs & Hx & Hy & Hxm & Hym).
  exists d, x, y.
  split; [exact Hd |]. split; [exact Hs |].
  split; [exact Hx |]. split; [exact Hy |].
  split; [rewrite Hxm | rewrite Hym]; reflexivity.
Defined.

(** C9.  Two evaluations of the map on the same stations, schedule, (empty)
    pushed positions and the same instant, at which [Math.random()] returns
    1/4 in the one and 3/4 in the other: the station BZA, which has no
    coordinates and no entry in the position table, is placed at (270, 100)
    and at (730, 220), and the train moving from HYB to SC is put on track 1
    and on track 2.  The two outputs differ. *)
Theorem map_output_depends_on_draws :
  let now := utc_ms "2025-09-22T09:20:00" in
  let eval (g : Rng) :=
    fst (GeoMap utc_ms sample_trains sample_stations [entry_T1; entry_T1_SC]
                [] now g) in
  map d_trackNumber (snd (eval draws_low)) = [Some 1] /\
  map d_trackNumber (snd (eval draws_high)) = [Some 2] /\
  (exists x y, nodeFor (fst (eval draws_low)) "BZA"
                 = Some (mkNode "BZA" (Some x) (Some y) (Some 2)) /\
               (x == 270)%Q /\ (y == 100)%Q) /\
  (exists x y, nodeFor (fst (eval draws_high)) "BZA"
                 = Some (mkNode "BZA" (Some x) (Some y) (Some 2)) /\
               (x == 730)%Q /\ (y == 220)%Q) /\
  eval draws_low <> eval draws_high.
Proof.
  cbv zeta.
  split; [reflexivity |]. split; [reflexivity |].
  split; [eexists _, _; split; [reflexivity | split; reflexivity] |].
  split; [eexists _, _; split; [reflexivity | split; reflexivity] |].
  intro H.
  apply (f_equal (fun o => map d_trackNumber (snd o))) in H.
  vm_compute in H. discriminate H.
Qed.

(** The same midpoint through the whole map: stations from the position
    table, the two entries of T1 given out of order, no pushed positions. *)
Example GeoMap_midpoint :
  let out := fst (GeoMap utc_ms sample_trains sample_stations
                    [entry_T1_SC; entry_T1] []
                    (utc_ms "2025-09-22T09:20:00") draws_low) in
  map (fun d => (d_id d, d_status d)) (snd out) = [("T1", moving)] /\
  exists x y, map d_x (snd out) = [Some x] /\ map d_y (snd out) = [Some y] /\
              (x == 350)%Q /\ (y == 130)%Q.
Proof.
  cbv zeta. split; [reflexivity |].
  eexists _, _. split; [reflexivity |]. split; [reflexivity |].
  split; reflexivity.
Qed.

(** * Further properties of the console *)

From Stdlib Require Import Lqa Permutation Sorted.

(** ** Time windows *)

Lemma fold_min_spec (l : list Z) :
  forall x, fold_left Z.min l x <= x /\
            (forall y, In y l -> fold_left Z.min l x <= y) /\
            (fold_left Z.min l x = x \/ In (fold_left Z.min l x) l).
Proof.
  induction l as [|a l IH]; intro x; cbn [fold_left].
  - split; [lia |]. split; [intros y [] | now left].
  - destruct (IH (Z.min x a)) as (H1 & H2 & H3).
    split; [lia |]. split.
    + intros y [<- | Hy]; [lia | auto].
    + destruct H3 as [H3 | H3]; [| right; now right].
      rewrite H3. destruct (Z.min_spec x a) as [[_ ->] | [_ ->]];
        [now left | right; now left].
Qed.

Lemma fold_max_spec (l : list Z) :
  forall x, x <= fold_left Z.max l x /\
            (forall y, In y l -> y <= fold_left Z.max l x) /\
            (fold_left Z.max l x = x \/ In (fold_left Z.max l x) l).
Proof.
  induction l as [|a l IH]; intro x; cbn [fold_left].
  - split; [lia |]. split; [intros y [] | now left].
  - destruct (IH (Z.max x a)) as (H1 & H2 & H3).
    split; [lia |]. split.
    + intros y [<- | Hy]; [lia | auto].
    + destruct H3 as [H3 | H3]; [| right; now right].
      rewrite H3. destruct (Z.max_spec x a) as [[_ ->] | [_ ->]];
        [right; now left | now left].
Qed.

Lemma Zmin_list_spec (l : list Z) :
  l <> [] ->
  In (Zmin_list l) l /\ forall y, In y l -> Zmin_list l <= y.
Proof.
  destruct l as [|x r]; [congruence |]. intros _. cbn [Zmin_list].
  destruct (fold_min_spec r x) as (H1 & H2 & H3). split.
  - destruct H3 as [-> | H3]; [now left | now right].
  - intros y [<- | Hy]; auto.
Qed.

Lemma Zmax_list_spec (l : list Z) :
  l <> [] ->
  In (Zmax_list l) l /\ forall y, In y l -> y <= Zmax_list l.
Proof.
  destruct l as [|x r]; [congruence |]. intros _. cbn [Zmax_list].
  destruct (fold_max_spec r x) as (H1 & H2 & H3). split.
  - destruct H3 as [-> | H3]; [now left | now right].
  - intros y [<- | Hy]; auto.
Qed.

Lemma entry_times_in (getTime : string -> Z) (entries : list ScheduleEntry)
    (e : ScheduleEntry) :
  In e entries ->
  In (getTime (actual_arrival e)) (entry_times getTime entries) /\
  In (getTime (actual_departure e)) (entry_times getTime entries).
Proof.
  intro H. unfold entry_times. split; apply in_flat_map; exists e;
    (split; [exact H | cbn; auto]).
Qed.

(** The padding of a window lies between 30 minutes and 2 hours. *)
Lemma padding_bounds (timeSpan : Z) :
  let padding := Qmax (inject_Z (30 * 60 * 1000))
                   (Qmin (inject_Z (2 * 60 * 60 * 1000))
                         (inject_Z timeSpan * (1 # 10))%Q) in
  (inject_Z 1800000 <= padding)%Q /\ (padding <= inject_Z 7200000)%Q.
Proof.
  cbv zeta. split.
  - apply Q.le_max_l.
  - apply Q.max_lub; [unfold Qle; simpl; lia | apply Q.le_min_l].
Qed.

Lemma window_range :
  forall (getTime : string -> Z) (now1 now2 : Z)
         (e0 : ScheduleEntry) (rest : list ScheduleEntry),
    let entries := e0 :: rest in
    let w := getTimeWindow getTime now1 now2 entries in
    exists (minTime maxTime : Z) (padding : Q),
      In minTime (entry_times getTime entries) /\
      In maxTime (entry_times getTime entries) /\
      (forall e, In e entries ->
         minTime <= getTime (actual_arrival e) <= maxTime /\
         minTime <= getTime (actual_departure e) <= maxTime) /\
      (inject_Z 1800000 <= padding)%Q /\ (padding <= inject_Z 7200000)%Q /\
      (tw_min w == inject_Z minTime - padding)%Q /\
      (tw_max w == inject_Z maxTime + padding)%Q.
Proof.
  intros getTime now1 now2 e0 rest entries w.
  assert (Hne : entry_times getTime entries <> []) by (cbn; discriminate).
  destruct (Zmin_list_spec _ Hne) as [Hmin_in Hmin].
  destruct (Zmax_list_spec _ Hne) as [Hmax_in Hmax].
  set (times := entry_times getTime entries) in *.
  exists (Zmin_list times), (Zmax_list times).
  eexists. split; [exact Hmin_in |]. split; [exact Hmax_in |].
  split.
  { intros e He. destruct (entry_times_in getTime entries e He) as [Ha Hd].
    fold times in Ha, Hd. split; split; auto. }
  destruct (padding_bounds (Zmax_list times - Zmin_list times)) as [Hlo Hhi].
  split; [exact Hlo |]. split; [exact Hhi |].
  subst w. unfold getTimeWindow. cbn [is_empty entries tw_min tw_max].
  split; reflexivity.
Qed.

(** X1.  The window of a non-empty snapshot is the tight range of all its
    arrival and departure instants, widened on both sides by one and the same
    padding of at least 30 minutes and at most 2 hours. *)
Theorem getTimeWindow_nonempty :
  forall (getTime : string -> Z) (now1 now2 : Z)
         (e0 : ScheduleEntry) (rest : list ScheduleEntry),
    let entries := e0 :: rest in
    let w := getTimeWindow getTime now1 now2 entries in
    exists (minTime maxTime : Z) (padding : Q),
      In minTime (entry_times getTime entries) /\
      In maxTime (entry_times getTime entries) /\
      (forall e, In e entries ->
         minTime <= getTime (actual_arrival e) <= maxTime /\
         minTime <= getTime (actual_departure e) <= maxTime) /\
      (inject_Z 1800000 <= padding)%Q /\ (padding <= inject_Z 7200000)%Q /\
      (tw_min w == inject_Z minTime - padding)%Q /\
      (tw_max w == inject_Z maxTime + padding)%Q.
Proof. exact window_range. Qed.

(** X2.  Whatever the snapshot, and provided the clock does not run
    backwards between its two readings, the window spans at least one
    hour. *)
Theorem getTimeWindow_at_least_one_hour :
  forall (getTime : string -> Z) (now1 now2 : Z)
         (entries : list ScheduleEntry),
    now1 <= now2 ->
    let w := getTimeWindow getTime now1 now2 entries in
    (inject_Z 3600000 <= tw_max w - tw_min w)%Q.
Proof.
  intros getTime now1 now2 entries Hnow w.
  destruct entries as [|e0 rest].
  - subst w. unfold getTimeWindow. cbn [is_empty tw_min tw_max].
    unfold Qminus. rewrite <- inject_Z_opp, <- inject_Z_plus, <- Zle_Qle. lia.
  - destruct (window_range getTime now1 now2 e0 rest)
      as (mn & mx & pad & _ & _ & Hall & Hlo & _ & Hmin & Hmax).
    fold w in Hmin, Hmax. rewrite Hmin, Hmax.
    assert (Hle : mn <= mx) by (destruct (Hall e0 (or_introl eq_refl)); lia).
    rewrite Zle_Qle in Hle.
    setoid_replace (inject_Z mx + pad - (inject_Z mn - pad))%Q
      with ((inject_Z mx - inject_Z mn) + (pad + pad))%Q by ring.
    setoid_replace (inject_Z 3600000) with (0 + (inject_Z 1800000 + inject_Z 1800000))%Q
      by reflexivity.
    apply Qplus_le_compat.
    + unfold Qminus. rewrite <- Qle_minus_iff. exact Hle.
    + apply Qplus_le_compat; exact Hlo.
Qed.

Lemma getTimeWindow_at_least_one_hour_witness :
  (inject_Z 3600000
   <= tw_max (getTimeWindow utc_ms 1000 1000 [])
      - tw_min (getTimeWindow utc_ms 1000 1000 []))%Q.
Proof.
  apply (getTimeWindow_at_least_one_hour utc_ms 1000 1000 []). lia.
Defined.

Lemma pct_pos (x s : Q) : (0 < s -> 0 < x -> 0 < x / s * 100)%Q.
Proof.
  intros Hs Hx. apply Qmult_lt_0_compat; [| reflexivity].
  apply Qlt_shift_div_l; [exact Hs |]. now rewrite Qmult_0_l.
Qed.

Lemma pct_lt_100 (x s : Q) : (0 < s -> x < s -> x / s * 100 < 100)%Q.
Proof.
  intros Hs Hx.
  setoid_replace 100%Q with (1 * 100)%Q at 2 by reflexivity.
  apply Qmult_lt_compat_r; [reflexivity |].
  apply Qlt_shift_div_r; [exact Hs |]. now rewrite Qmult_1_l.
Qed.

(** Every instant of an entry lies at least 30 minutes inside the window of
    a snapshot that contains the entry. *)
Lemma window_margin (getTime : string -> Z) (now1 now2 : Z)
    (entries : list ScheduleEntry) (e : ScheduleEntry) :
  In e entries ->
  let w := getTimeWindow getTime now1 now2 entries in
  (tw_min w + inject_Z 1800000 <= inject_Z (getTime (actual_arrival e)))%Q /\
  (inject_Z (getTime (actual_arrival e)) + inject_Z 1800000 <= tw_max w)%Q /\
  (inject_Z (getTime (actual_departure e)) + inject_Z 1800000 <= tw_max w)%Q.
Proof.
  intros He w. destruct entries as [|e0 rest]; [destruct He |].
  destruct (window_range getTime now1 now2 e0 rest)
    as (mn & mx & pad & _ & _ & Hall & Hlo & _ & Hmin & Hmax).
  fold w in Hmin, Hmax. rewrite Hmin, Hmax.
  destruct (Hall e He) as [[Ha1 Ha2] [Hd1 Hd2]].
  rewrite Zle_Qle in Ha1, Ha2, Hd2.
  repeat split.
  - setoid_replace (inject_Z mn - pad + inject_Z 1800000)%Q
      with (inject_Z mn + (inject_Z 1800000 - pad))%Q by ring.
    setoid_replace (inject_Z (getTime (actual_arrival e)))
      with (inject_Z (getTime (actual_arrival e)) + 0)%Q by ring.
    apply Qplus_le_compat; [exact Ha1 |].
    unfold Qminus. rewrite <- (Qplus_opp_r pad).
    apply Qplus_le_compat; [exact Hlo | apply Qle_refl].
  - apply Qplus_le_compat; assumption.
  - apply Qplus_le_compat; assumption.
Qed.

(** X3.  Both comparison panels are drawn in the shared window of the two
    snapshots.  For every entry of either snapshot the divisor is the true
    width of that window, the left offset is the unclamped position of the
    arrival and lies strictly between 0 and 100 percent, and, when the entry
    departs no earlier than it arrives, its departure also lies below 100
    percent: the bar, at its true width, does not leave the axis. *)
Theorem bars_inside_shared_window :
  forall (getTime : string -> Z) (now1 now2 now3 now4 : Z)
         (beforeEntries afterEntries : list ScheduleEntry) (e : ScheduleEntry),
    In e beforeEntries \/ In e afterEntries ->
    let w := sharedWindow (getTimeWindow getTime now1 now2 beforeEntries)
                          (getTimeWindow getTime now3 now4 afterEntries) in
    let start := inject_Z (getTime (actual_arrival e)) in
    let end_ := inject_Z (getTime (actual_departure e)) in
    (span w == tw_max w - tw_min w)%Q /\
    (leftPct getTime e w == (start - tw_min w) / span w * 100)%Q /\
    (0 < leftPct getTime e w)%Q /\
    (leftPct getTime e w < 100)%Q /\
    (getTime (actual_arrival e) <= getTime (actual_departure e) ->
     (leftPct getTime e w + (end_ - start) / span w * 100 < 100)%Q).
Proof.
  intros getTime now1 now2 now3 now4 bE aE e Hin w start end_.
  assert (Hm : (tw_min w + inject_Z 1800000 <= start)%Q /\
               (start + inject_Z 1800000 <= tw_max w)%Q /\
               (end_ + inject_Z 1800000 <= tw_max w)%Q).
  { subst w. unfold sharedWindow. cbn [tw_min tw_max].
    destruct Hin as [Hin | Hin].
    - destruct (window_margin getTime now1 now2 bE e Hin) as (H1 & H2 & H3).
      repeat split.
      + eapply Qle_trans; [| exact H1].
        apply Qplus_le_compat; [apply Q.le_min_l | apply Qle_refl].
      + eapply Qle_trans; [exact H2 | apply Q.le_max_l].
      + eapply Qle_trans; [exact H3 | apply Q.le_max_l].
    - destruct (window_margin getTime now3 now4 aE e Hin) as (H1 & H2 & H3).
      repeat split.
      + eapply Qle_trans; [| exact H1].
        apply Qplus_le_compat; [apply Q.le_min_r | apply Qle_refl].
      + eapply Qle_trans; [exact H2 | apply Q.le_max_r].
      + eapply Qle_trans; [exact H3 | apply Q.le_max_r]. }
  destruct Hm as (H1 & H2 & H3).
  set (m := tw_min w) in *. set (M := tw_max w) in *.
  change (inject_Z 1800000) with (1800000 # 1) in H1, H2, H3.
  assert (Hspan : (span w == M - m)%Q).
  { unfold span. fold m M. apply Q.max_r. lra. }
  assert (Hpos : (0 < span w)%Q) by (rewrite Hspan; lra).
  assert (Hleft : (leftPct getTime e w == (start - m) / span w * 100)%Q).
  { unfold leftPct. fold start m. apply Q.max_r.
    apply Qlt_le_weak. apply pct_pos; [exact Hpos | lra]. }
  split; [exact Hspan |]. split; [exact Hleft |].
  split; [rewrite Hleft; apply pct_pos; [exact Hpos | lra] |].
  split.
  - rewrite Hleft. apply pct_lt_100; [exact Hpos |]. rewrite Hspan. lra.
  - intros _. rewrite Hleft.
    setoid_replace ((start - m) / span w * 100 + (end_ - start) / span w * 100)%Q
      with ((end_ - m) / span w * 100)%Q
      by (field; intro H0; rewrite H0 in Hpos; revert Hpos; apply Qlt_irrefl).
    apply pct_lt_100; [exact Hpos |]. rewrite Hspan. lra.
Qed.

Lemma bars_inside_shared_window_witness :
  let w := sharedWindow (getTimeWindow utc_ms 0 0 [entry_T1])
                        (getTimeWindow utc_ms 0 0 [entry_T2]) in
  (0 < leftPct utc_ms entry_T2 w)%Q /\ (leftPct utc_ms entry_T2 w < 100)%Q.
Proof.
  destruct (bars_inside_shared_window utc_ms 0 0 0 0 [entry_T1] [entry_T2]
              entry_T2 (or_intror (or_introl eq_refl)))
    as (_ & _ & H1 & H2 & _).
  split; assumption.
Defined.

(** ** Tick marks *)

Lemma tick_loop_in (step_ : Z) :
  0 < step_ ->
  forall (fuel : nat) (t end_ x : Z),
    In x (tick_loop fuel t end_ step_) <->
    exists k, 0 <= k < Z.of_nat fuel /\ x = t + k * step_ /\ x <= end_.
Proof.
  intros Hs. induction fuel as [|fuel IH]; intros t end_ x; cbn [tick_loop].
  - split; [intros [] | intros (k & Hk & _); lia].
  - destruct (Z.leb_spec t end_) as [Hle | Hgt].
    + cbn [In]. rewrite IH. split.
      * intros [<- | (k & Hk & -> & Hx)].
        -- exists 0. lia.
        -- exists (k + 1). lia.
      * intros (k & Hk & -> & Hx).
        destruct (Z.eq_dec k 0) as [-> | Hk0]; [left; lia |].
        right. exists (k - 1). lia.
    + split; [intros [] |]. intros (k & Hk & -> & Hx). nia.
Qed.

(** The fuel given to the loop is never what stops it. *)
Lemma tick_loop_full (step_ start end_ x : Z) :
  0 < step_ ->
  (In x (tick_loop (Z.to_nat ((end_ - start) / step_ + 1)) start end_ step_)
   <-> exists k, 0 <= k /\ x = start + k * step_ /\ x <= end_).
Proof.
  intro Hs. rewrite (tick_loop_in step_ Hs). split.
  - intros (k & Hk & Hx). exists k. split; [lia | exact Hx].
  - intros (k & Hk & -> & Hx). exists k. split; [| auto].
    split; [exact Hk |].
    assert (k <= (end_ - start) / step_).
    { apply Z.div_le_lower_bound; lia. }
    lia.
Qed.

Lemma div_lt_iff (a b c : Q) : (0 < b)%Q -> (a / b < c <-> a < c * b)%Q.
Proof.
  intro Hb.
  assert (Hnz : ~ (b == 0)%Q) by (intro H; rewrite H in Hb; revert Hb; apply Qlt_irrefl).
  rewrite <- (Qmult_lt_r (a / b) c b Hb).
  setoid_replace (a / b * b)%Q with a by (field; exact Hnz). reflexivity.
Qed.

Lemma lt_div_iff (a b c : Q) : (0 < b)%Q -> (c < a / b <-> c * b < a)%Q.
Proof.
  intro Hb.
  assert (Hnz : ~ (b == 0)%Q) by (intro H; rewrite H in Hb; revert Hb; apply Qlt_irrefl).
  rewrite <- (Qmult_lt_r c (a / b) b Hb).
  setoid_replace (a / b * b)%Q with a by (field; exact Hnz). reflexivity.
Qed.

Lemma floor_le_iff (q : Q) (j : Z) : Qfloor q <= j <-> (q < inject_Z (j + 1))%Q.
Proof.
  split; intro H.
  - eapply Qlt_le_trans; [apply Qlt_floor |]. rewrite <- Zle_Qle. lia.
  - assert (H' : (inject_Z (Qfloor q) < inject_Z (j + 1))%Q)
      by (eapply Qle_lt_trans; [apply Qfloor_le | exact H]).
    rewrite <- Zlt_Qlt in H'. lia.
Qed.

Lemma le_ceiling_iff (q : Q) (j : Z) : j <= Qceiling q <-> (inject_Z (j - 1) < q)%Q.
Proof.
  split; intro H.
  - eapply Qle_lt_trans; [| apply Qceiling_lt]. rewrite <- Zle_Qle. lia.
  - assert (H' : (inject_Z (j - 1) < inject_Z (Qceiling q))%Q)
      by (eapply Qlt_le_trans; [exact H | apply Qle_ceiling]).
    rewrite <- Zlt_Qlt in H'. lia.
Qed.

Lemma tickInterval_values (w : TimeWindow) :
  tickInterval w = 600000 \/ tickInterval w = 1800000 \/
  tickInterval w = 3600000.
Proof.
  unfold tickInterval. destruct (Qle_bool _ _); [now left |].
  destruct (Qle_bool _ _); [right; now left | right; now right].
Qed.

(** X4.  The tick interval is 10, 30 or 60 minutes, and the tick marks are
    exactly the multiples of the interval that lie less than one interval
    outside the window: every multiple inside the window has a tick, and at
    most one tick precedes the window and one follows it. *)
Theorem ticks_cover_window :
  forall (w : TimeWindow),
    let interval := tickInterval w in
    (interval = 600000 \/ interval = 1800000 \/ interval = 3600000) /\
    (forall t : Z,
       In t (map tick_time (ticks w)) <->
       (exists j, t = j * interval) /\
       (tw_min w < inject_Z (t + interval))%Q /\
       (inject_Z (t - interval) < tw_max w)%Q) /\
    (forall k, In k (ticks w) ->
       (tick_leftPct k
        == (inject_Z (tick_time k) - tw_min w) / span w * 100)%Q).
Proof.
  intros w interval. split; [apply tickInterval_values |].
  assert (HI : 0 < interval)
    by (destruct (tickInterval_values w) as [H | [H | H]];
        subst interval; rewrite H; lia).
  assert (HIq : (0 < inject_Z interval)%Q) by (rewrite Zlt_Qlt in HI; exact HI).
  split.
  - intro t. unfold ticks. fold interval. rewrite map_map. cbn [tick_time].
    rewrite map_id. rewrite (tick_loop_full interval _ _ t HI).
    unfold Math_floor, Math_ceil.
    set (f := Qfloor (tw_min w / inject_Z interval)).
    set (c := Qceiling (tw_max w / inject_Z interval)).
    assert (Hf : forall j, f <= j <-> (tw_min w < inject_Z ((j + 1) * interval))%Q).
    { intro j. subst f. rewrite floor_le_iff, div_lt_iff by exact HIq.
      now rewrite inject_Z_mult. }
    assert (Hc : forall j, j <= c <-> (inject_Z ((j - 1) * interval) < tw_max w)%Q).
    { intro j. subst c. rewrite le_ceiling_iff, lt_div_iff by exact HIq.
      now rewrite inject_Z_mult. }
    split.
    + intros (k & Hk & -> & Hle).
      replace (f * interval + k * interval) with ((f + k) * interval) in * by ring.
      split; [now exists (f + k) |].
      replace ((f + k) * interval + interval) with ((f + k + 1) * interval) by ring.
      replace ((f + k) * interval - interval) with ((f + k - 1) * interval) by ring.
      split; [apply Hf; lia | apply Hc; nia].
    + intros ((j & ->) & H1 & H2).
      replace (j * interval + interval) with ((j + 1) * interval) in H1 by ring.
      replace (j * interval - interval) with ((j - 1) * interval) in H2 by ring.
      apply Hf in H1. apply Hc in H2.
      exists (j - f). split; [lia |]. split; [ring | nia].
  - intros k Hk. unfold ticks in Hk. apply in_map_iff in Hk.
    destruct Hk as (t & <- & _). reflexivity.
Qed.

Example ticks_two_hours :
  map tick_time (ticks (mkWindow (inject_Z 900000) (inject_Z 2700000)))
  = [600000; 1200000; 1800000; 2400000; 3000000].
Proof. reflexivity. Qed.

(** ** Delay arrays, delay bars and KPI bounds *)

Lemma delayMinutes_nonneg (getTime : string -> Z) (scheduled actual : string) :
  (0 <= delayMinutes getTime scheduled actual)%Q.
Proof. unfold delayMinutes. apply Q.le_max_l. Qed.

Lemma round_tenths_spec (x : Q) :
  (0 <= x)%Q ->
  exists k : Z, 0 <= k /\ (round_tenths x == inject_Z k / 10)%Q /\
                (x - (1 # 20) < round_tenths x)%Q /\
                (round_tenths x <= x + (1 # 20))%Q.
Proof.
  intro Hx. unfold round_tenths, toFixed1.
  set (y := (x * 10 + (1 # 2))%Q).
  exists (Qfloor y). split.
  - apply (Z.le_trans _ (Qfloor 0)); [discriminate |].
    apply Qfloor_resp_le. subst y. lra.
  - split; [reflexivity |].
    pose proof (Qfloor_le y) as H1. pose proof (Qlt_floor y) as H2.
    rewrite inject_Z_plus in H2. change (inject_Z 1) with 1%Q in H2.
    set (fl := inject_Z (Qfloor y)) in *.
    split.
    + apply (Qmult_lt_r _ _ 10); [reflexivity |].
      setoid_replace (fl / 10 * 10)%Q with fl by field. subst y. lra.
    + apply (Qmult_le_r _ _ 10); [reflexivity |].
      setoid_replace (fl / 10 * 10)%Q with fl by field. subst y. lra.
Qed.

(** X5.  [computeDelayArray] yields one delay for each entry whose train is
    known and has a scheduled arrival or, failing that, a scheduled
    departure, and none for the others; every delay is a non-negative number
    of tenths of a minute. *)
Theorem computeDelayArray_spec :
  forall (getTime : string -> Z) (trains : list Train)
         (entries : list ScheduleEntry),
    let delays := computeDelayArray getTime trains entries in
    List.length delays
      = List.length
          (filter (fun e => match scheduledRef (getTrain trains (train_id e)) with
                            | Some _ => true
                            | None => false
                            end) entries) /\
    (List.length delays <= List.length entries)%nat /\
    Forall (fun d => exists k : Z, 0 <= k /\ (d == inject_Z k / 10)%Q) delays.
Proof.
  intros getTime trains entries delays. subst delays.
  induction entries as [|e entries (IH1 & IH2 & IH3)].
  - cbn. repeat split; auto.
  - unfold computeDelayArray in *. cbn [flat_map filter].
    destruct (scheduledRef (getTrain trains (train_id e))) as [ref|].
    + cbn [app List.length]. split; [now rewrite IH1 |]. split; [lia |].
      constructor; [| exact IH3].
      destruct (round_tenths_spec _ (delayMinutes_nonneg getTime ref
                                       (actual_arrival e)))
        as (k & Hk & Heq & _).
      exists k. auto.
    + cbn [app List.length]. split; [exact IH1 |]. split; [lia | exact IH3].
Qed.

Lemma fold_Qmax_ge (l : list Q) :
  forall x, (x <= fold_left Qmax l x)%Q /\
            forall v, In v l -> (v <= fold_left Qmax l x)%Q.
Proof.
  induction l as [|a l IH]; intro x; cbn [fold_left].
  - split; [apply Qle_refl | intros v []].
  - destruct (IH (Qmax x a)) as [H1 H2]. split.
    + eapply Qle_trans; [apply Q.le_max_l | exact H1].
    + intros v [<- | Hv]; [| auto].
      eapply Qle_trans; [apply Q.le_max_r | exact H1].
Qed.

(** X6.  [DelayBars] draws at most 12 bars, one for each of the first
    values; the scale maximum is at least 2, so no height is a quotient by
    zero; no bar is higher than 100 percent, and none is negative when the
    values are not; with no values the average is 0. *)
Theorem DelayBars_heights :
  forall (values : list Q),
    let view := DelayBars values in
    List.length (db_heights view) = Nat.min (List.length values) 12 /\
    (2 <= fold_left Qmax values 2)%Q /\
    (forall h, In h (db_heights view) -> (h <= 100)%Q) /\
    ((forall v, In v values -> (0 <= v)%Q) ->
     forall h, In h (db_heights view) -> (0 <= h)%Q) /\
    (values = [] -> db_avg view = 0%Q /\ db_heights view = []).
Proof.
  intros values view. subst view. unfold DelayBars. cbn [db_heights db_avg].
  destruct (fold_Qmax_ge values 2) as [Hmax Hall].
  set (maxVal := fold_left Qmax values 2%Q) in *.
  assert (Hpos : (0 < maxVal)%Q) by lra.
  split.
  { rewrite length_map, length_firstn. lia. }
  split; [exact Hmax |].
  assert (Hbar : forall h,
             In h (map (fun v => (v / maxVal * 100)%Q)
                       (firstn (Nat.min (List.length values) 12) values)) ->
             exists v, In v values /\ h = (v / maxVal * 100)%Q).
  { intros h Hh. apply in_map_iff in Hh. destruct Hh as (v & <- & Hv).
    exists v. split; [| reflexivity].
    rewrite <- (firstn_skipn (Nat.min (List.length values) 12) values).
    apply in_or_app. now left. }
  split.
  { intros h Hh. destruct (Hbar h Hh) as (v & Hv & ->).
    setoid_replace 100%Q with (1 * 100)%Q at 2 by reflexivity.
    apply Qmult_le_compat_r; [| discriminate].
    apply Qle_shift_div_r; [exact Hpos |]. rewrite Qmult_1_l. auto. }
  split.
  { intros Hnn h Hh. destruct (Hbar h Hh) as (v & Hv & ->).
    apply Qmult_le_0_compat; [| discriminate].
    apply Qle_shift_div_l; [exact Hpos |]. rewrite Qmult_0_l. auto. }
  intros ->. split; reflexivity.
Qed.

Example DelayBars_sample :
  map Qred (db_heights (DelayBars [1; 4; 0]%Q)) = [25; 100; 0]%Q.
Proof. reflexivity. Qed.

Lemma ontime_count_bounds (getTime : string -> Z) (trains : list Train)
    (schedule : list ScheduleEntry) :
  0 <= ontime_count getTime trains schedule <= Z.of_nat (List.length schedule).
Proof.
  unfold ontime_count. split; [lia |].
  apply inj_le. apply filter_length_le.
Qed.

Lemma delay_sum_nonneg (getTime : string -> Z) (trains : list Train)
    (schedule : list ScheduleEntry) :
  (0 <= delay_sum getTime trains schedule)%Q.
Proof.
  induction schedule as [|s l IH]; cbn [delay_sum]; [apply Qle_refl |].
  assert (H : (0 <= match kpi_delay getTime trains s with
                    | Some d => d
                    | None => 0
                    end)%Q).
  { unfold kpi_delay. destruct (getTrain trains (train_id s)) as [t|];
      [| apply Qle_refl].
    destruct (truthy (scheduled_arrival t)); [| apply Qle_refl].
    apply delayMinutes_nonneg. }
  lra.
Qed.

(** X7.  For every snapshot the on-time percentage is an integer between 0
    and 100 and the average delay is not negative. *)
Theorem computeKPIs_bounds :
  forall (getTime : string -> Z) (trains : list Train)
         (schedule : list ScheduleEntry),
    let k := computeKPIs getTime trains schedule in
    0 <= ontimePct k <= 100 /\
    match avgDelay k with
    | KNumber q => (q == 0)%Q
    | KFixed1 tenths => 0 <= tenths
    end.
Proof.
  intros getTime trains schedule k. subst k.
  destruct schedule as [|e rest]; [cbn; split; [lia | reflexivity] |].
  set (schedule := e :: rest).
  unfold computeKPIs. fold schedule. cbv zeta. cbn [schedule].
  fold schedule.
  destruct (kpi_fold getTime trains schedule (0, 0%Q)) as [Hc Hs].
  destruct (fold_left (kpi_step getTime trains) schedule (0, 0%Q))
    as [ontime sumDelay].
  cbn [fst snd] in Hc, Hs. cbn [ontimePct avgDelay].
  pose proof (ontime_count_bounds getTime trains schedule) as Hb.
  pose proof (delay_sum_nonneg getTime trains schedule) as Hd.
  set (n := Z.of_nat (List.length schedule)) in *.
  assert (Hn : 0 < n) by (subst n schedule; cbn [List.length]; lia).
  assert (Hnq : (0 < inject_Z n)%Q) by (rewrite Zlt_Qlt in Hn; exact Hn).
  assert (Ho : 0 <= ontime <= n) by lia.
  destruct Ho as [Ho1 Ho2]. rewrite Zle_Qle in Ho1, Ho2.
  assert (Hr0 : (0 <= inject_Z ontime / inject_Z n)%Q).
  { apply Qle_shift_div_l; [exact Hnq |]. rewrite Qmult_0_l. exact Ho1. }
  assert (Hr1 : (inject_Z ontime / inject_Z n <= 1)%Q).
  { apply Qle_shift_div_r; [exact Hnq |]. rewrite Qmult_1_l. exact Ho2. }
  split.
  - unfold Math_round. split.
    + apply (Z.le_trans _ (Qfloor 0)); [discriminate |].
      apply Qfloor_resp_le. lra.
    + apply (Z.le_trans _ (Qfloor (100 + (1 # 2))%Q)); [| discriminate].
      apply Qfloor_resp_le. lra.
  - unfold toFixed1. apply (Z.le_trans _ (Qfloor 0)); [discriminate |].
    apply Qfloor_resp_le.
    assert (Ha : (0 <= sumDelay / inject_Z n)%Q).
    { apply Qle_shift_div_l; [exact Hnq |]. rewrite Qmult_0_l, Hs. lra. }
    lra.
Qed.

(** ** Per-train itineraries *)

Section SegmentFacts.

Variable getTime : string -> Z.

Lemma insert_sorted_perm (e : ScheduleEntry) (l : list ScheduleEntry) :
  Permutation (insert_sorted getTime e l) (e :: l).
Proof.
  induction l as [|x l IH]; cbn [insert_sorted]; [reflexivity |].
  destruct (_ <? _); [reflexivity |].
  rewrite IH. apply perm_swap.
Qed.

Lemma insert_sorted_hd (x e : ScheduleEntry) (l : list ScheduleEntry) :
  arrives_before getTime x e -> HdRel (arrives_before getTime) x l ->
  HdRel (arrives_before getTime) x (insert_sorted getTime e l).
Proof.
  intros Hxe Hl. destruct l as [|y l]; cbn [insert_sorted].
  - now constructor.
  - destruct (_ <? _); constructor; [exact Hxe |].
    now inversion Hl.
Qed.

Lemma insert_sorted_sorted (e : ScheduleEntry) (l : list ScheduleEntry) :
  Sorted (arrives_before getTime) l -> Sorted (arrives_before getTime) (insert_sorted getTime e l).
Proof.
  induction l as [|x l IH]; intro Hs; cbn [insert_sorted].
  - repeat constructor.
  - destruct (Z.ltb_spec (getTime (actual_arrival e)) (getTime (actual_arrival x)))
      as [Hlt | Hge].
    + constructor; [exact Hs |]. constructor. unfold arrives_before. lia.
    + inversion Hs as [| ? ? Hs' Hhd]; subst.
      constructor; [now apply IH |].
      apply insert_sorted_hd; [exact Hge | exact Hhd].
Qed.

Lemma sort_by_arrival_spec (l : list ScheduleEntry) :
  Permutation (sort_by_arrival getTime l) l /\
  Sorted (arrives_before getTime) (sort_by_arrival getTime l).
Proof.
  unfold sort_by_arrival.
  assert (H : forall acc,
             Sorted (arrives_before getTime) acc ->
             Permutation (fold_left (fun acc e => insert_sorted getTime e acc) l acc)
                         (acc ++ l) /\
             Sorted (arrives_before getTime)
                    (fold_left (fun acc e => insert_sorted getTime e acc) l acc)).
  { induction l as [|e l IH]; intros acc Hacc; cbn [fold_left].
    - rewrite app_nil_r. split; [reflexivity | exact Hacc].
    - destruct (IH (insert_sorted getTime e acc)
                   (insert_sorted_sorted e acc Hacc)) as [Hp Hs].
      split; [| exact Hs].
      rewrite Hp, insert_sorted_perm. apply Permutation_middle. }
  destruct (H [] (Sorted_nil _)) as [Hp Hs]. split; [exact Hp | exact Hs].
Qed.

End SegmentFacts.

Lemma push_entry_keys (e : ScheduleEntry)
    (m : list (string * list ScheduleEntry)) (k : string) :
  In k (map fst (push_entry e m)) <-> k = train_id e \/ In k (map fst m).
Proof.
  induction m as [|[k' arr] m IH]; cbn [push_entry map fst In].
  - split; [intros [<- | []]; now left | intros [-> | []]; now left].
  - destruct (String.eqb_spec k' (train_id e)) as [-> | Hne];
      cbn [map fst In]; [intuition congruence |].
    rewrite IH. tauto.
Qed.

Lemma push_entry_nodup (e : ScheduleEntry)
    (m : list (string * list ScheduleEntry)) :
  NoDup (map fst m) -> NoDup (map fst (push_entry e m)).
Proof.
  induction m as [|[k' arr] m IH]; cbn [push_entry map fst]; intro H.
  - repeat constructor. intros [].
  - destruct (String.eqb_spec k' (train_id e)) as [-> | Hne];
      cbn [map fst]; [exact H |].
    inversion H as [| ? ? Hnin Hnd]; subst.
    constructor; [| now apply IH].
    rewrite push_entry_keys. intros [-> | Hin]; [congruence | contradiction].
Qed.

Lemma push_entry_in (e : ScheduleEntry)
    (m : list (string * list ScheduleEntry)) (k : string)
    (arr' : list ScheduleEntry) :
  NoDup (map fst m) ->
  In (k, arr') (push_entry e m) ->
  (k <> train_id e /\ In (k, arr') m) \/
  (k = train_id e /\
   ((exists arr, In (k, arr) m /\ arr' = (arr ++ [e])%list) \/
    (~ In k (map fst m) /\ arr' = [e]))).
Proof.
  induction m as [|[k' arr] m IH]; cbn [push_entry map fst]; intros Hnd Hin.
  - destruct Hin as [[= <- <-] | []]. right. split; [reflexivity |].
    right. split; [intros [] | reflexivity].
  - inversion Hnd as [| ? ? Hnin Hnd']; subst.
    destruct (String.eqb_spec k' (train_id e)) as [-> | Hne].
    + destruct Hin as [[= <- <-] | Hin].
      * right. split; [reflexivity |]. left. exists arr.
        split; [now left | reflexivity].
      * left. split; [| now right]. intros ->. apply Hnin.
        change (train_id e) with (fst (train_id e, arr')). now apply in_map.
    + destruct Hin as [[= <- <-] | Hin].
      * left. split; [exact Hne | now left].
      * destruct (IH Hnd' Hin) as [[H1 H2] | [-> [(a & Ha & ->) | [Hn ->]]]].
        -- left. split; [exact H1 | now right].
        -- right. split; [reflexivity |]. left. exists a.
           split; [now right | reflexivity].
        -- right. split; [reflexivity |]. right. split; [| reflexivity].
           cbn [In]. intros [H | H]; [congruence | contradiction].
Qed.

(** The grouping invariant: the keys are distinct, every entry seen so far
    has its key, and the array of a key holds, in order, the entries of that
    train seen so far. *)
Lemma byTrain_invariant (schedule : list ScheduleEntry) :
  forall (m : list (string * list ScheduleEntry)) (seen : list ScheduleEntry),
    NoDup (map fst m) ->
    (forall e, In e seen -> In (train_id e) (map fst m)) ->
    (forall k arr, In (k, arr) m -> arr <> [] /\ arr = filter (of_train k) seen) ->
    let m' := fold_left (fun byTrain e => push_entry e byTrain) schedule m in
    NoDup (map fst m') /\
    (forall e, In e (seen ++ schedule) -> In (train_id e) (map fst m')) /\
    (forall k arr, In (k, arr) m' ->
                   arr <> [] /\ arr = filter (of_train k) (seen ++ schedule)).
Proof.
  induction schedule as [|e schedule IH]; intros m seen Hnd Hkeys Harr;
    cbn [fold_left].
  - rewrite app_nil_r. auto.
  - replace (seen ++ e :: schedule)%list with ((seen ++ [e]) ++ schedule)%list
      by (rewrite <- app_assoc; reflexivity).
    apply IH.
    + now apply push_entry_nodup.
    + intros x Hx. rewrite push_entry_keys. apply in_app_or in Hx.
      destruct Hx as [Hx | [<- | []]]; [right; auto | now left].
    + intros k arr' Hin. rewrite filter_app. cbn [filter]. unfold of_train at 2.
      destruct (push_entry_in e m k arr' Hnd Hin)
        as [[Hne Hm] | [-> [(a & Ha & ->) | [Hn ->]]]].
      * destruct (String.eqb_spec (train_id e) k) as [Heq | _]; [congruence |].
        rewrite app_nil_r. auto.
      * rewrite String.eqb_refl. destruct (Harr _ _ Ha) as [_ <-].
        split; [| reflexivity]. intro H. now apply app_eq_nil in H as [_ H].
      * rewrite String.eqb_refl. split; [discriminate |].
        assert (Hnil : filter (of_train (train_id e)) seen = []).
        { destruct (filter (of_train (train_id e)) seen) as [|x l] eqn:Hf;
            [reflexivity |].
          assert (Hx : In x (filter (of_train (train_id e)) seen))
            by (rewrite Hf; now left).
          apply filter_In in Hx. destruct Hx as [Hx1 Hx2].
          unfold of_train in Hx2. apply String.eqb_eq in Hx2.
          exfalso. apply Hn. rewrite <- Hx2. auto. }
        now rewrite Hnil.
Qed.

Lemma trainSegments_shape :
  forall (getTime : string -> Z) (schedule : list ScheduleEntry),
    let segs := trainSegments getTime schedule in
    NoDup (map fst segs) /\
    (forall e, In e schedule -> In (train_id e) (map fst segs)) /\
    (forall k arr, In (k, arr) segs ->
       arr <> [] /\
       Permutation arr (filter (of_train k) schedule) /\
       Sorted (arrives_before getTime) arr).
Proof.
  intros getTime schedule segs.
  destruct (byTrain_invariant schedule [] [] (NoDup_nil _)
              (fun e (H : In e []) => match H with end)
              (fun k arr (H : In (k, arr) []) => match H with end))
    as (Hnd & Hkeys & Harr).
  cbn [app] in Hkeys, Harr.
  subst segs. unfold trainSegments.
  set (m := fold_left (fun byTrain e => push_entry e byTrain) schedule []) in *.
  assert (Hfst : map fst (map (fun kv => (fst kv, sort_by_arrival getTime (snd kv))) m)
                 = map fst m)
    by (rewrite map_map; apply map_ext; reflexivity).
  rewrite Hfst. split; [exact Hnd |]. split; [exact Hkeys |].
  intros k arr Hin. apply in_map_iff in Hin.
  destruct Hin as ([k' a] & [= <- <-] & Hm). cbn [fst snd].
  destruct (Harr _ _ Hm) as [Hne Heq].
  destruct (sort_by_arrival_spec getTime a) as [Hp Hs].
  split; [| split; [| exact Hs]].
  - intro H. rewrite H in Hp. apply Permutation_nil in Hp. congruence.
  - rewrite Hp, Heq. reflexivity.
Qed.

(** X8.  [trainSegments] partitions the schedule by train: the keys are
    distinct, every entry's train has a key, and the itinerary of a key is
    not empty, holds exactly the entries of that train and is ordered by
    arrival. *)
Theorem trainSegments_partition :
  forall (getTime : string -> Z) (schedule : list ScheduleEntry),
    let segs := trainSegments getTime schedule in
    NoDup (map fst segs) /\
    (forall e, In e schedule -> In (train_id e) (map fst segs)) /\
    (forall k arr, In (k, arr) segs ->
       arr <> [] /\
       Permutation arr (filter (of_train k) schedule) /\
       Sorted (arrives_before getTime) arr).
Proof. exact trainSegments_shape. Qed.

(** ** Dots of the schedule-fallback mode *)

Section DotFacts.

Variable getTime : string -> Z.
Variable trains : list Train.
Variable nodeList : list Node.
Variable nowMs : Z.

Lemma walk_cases (tid : string) :
  forall (entries : list ScheduleEntry) (g g' : Rng) (d : Dot),
    walk getTime trains nodeList nowMs tid entries g = (Some d, g') ->
    placed_at_station getTime trains nodeList nowMs tid entries g d g' \/
    placed_on_segment getTime trains nodeList nowMs tid entries g d g'.
Proof.
  induction entries as [|cur rest IH]; intros g g' d H; [discriminate H |].
  assert (Hrest : forall g0 g1 d0,
             walk getTime trains nodeList nowMs tid rest g0 = (Some d0, g1) ->
             placed_at_station getTime trains nodeList nowMs tid (cur :: rest) g0 d0 g1 \/
             placed_on_segment getTime trains nodeList nowMs tid (cur :: rest) g0 d0 g1).
  { intros g0 g1 d0 H0. destruct (IH g0 g1 d0 H0) as [Hs | Hs].
    - left. destruct Hs as (c & n & Hin & Hn & Hd & Hg).
      exists c, n. split; [now right | auto].
    - right. destruct Hs as (pre & c & nx & post & a & b & He & Hrest).
      exists (cur :: pre), c, nx, post, a, b. split; [| exact Hrest].
      cbn [app]. now rewrite He. }
  cbn [walk] in H.
  set (seg := match hd_error rest with
              | Some next' => _
              | None => _
              end) in H.
  assert (Hseg : forall g0 g1 d0, seg g0 = (Some d0, g1) ->
             placed_at_station getTime trains nodeList nowMs tid (cur :: rest) g0 d0 g1 \/
             placed_on_segment getTime trains nodeList nowMs tid (cur :: rest) g0 d0 g1).
  { subst seg. intros g0 g1 d0 H0.
    destruct rest as [|next rest']; [discriminate H0 |]. cbn [hd_error] in H0.
    destruct (Z.leb_spec (getTime (actual_departure cur)) nowMs) as [H1 | H1];
      [| now apply Hrest].
    destruct (Z.leb_spec nowMs (getTime (actual_arrival next))) as [H2 | H2];
      [| now apply Hrest].
    cbn [andb] in H0.
    destruct (nodeFor nodeList (station_id cur)) as [a|] eqn:Ha;
      [| now apply Hrest].
    destruct (nodeFor nodeList (station_id next)) as [b|] eqn:Hb;
      [| now apply Hrest].
    unfold bind, ret in H0.
    destruct (segmentDot getTime trains nowMs tid cur next a b g0)
      as [d1 g2] eqn:Hsd.
    injection H0 as <- <-. right.
    exists [], cur, next, rest', a, b. cbn [app]. repeat split; auto. }
  destruct ((nowMs <=? getTime (actual_departure cur)) || is_empty rest).
  - destruct (nodeFor nodeList (station_id cur)) as [n|] eqn:Hn.
    + unfold ret in H. injection H as <- <-.
      left. exists cur, n. split; [now left | auto].
    + now apply Hseg.
  - now apply Hseg.
Qed.

Lemma stationDot_fields (tid : string) (cur : ScheduleEntry) (n : Node) :
  let d := stationDot getTime trains nowMs tid cur n in
  d_id d = tid /\ d_status d <> moving /\ d_trackNumber d = None /\
  d_x d = n_x n /\ d_y d = n_y n.
Proof.
  unfold stationDot. cbn. repeat split.
  destruct (isDelayed getTime trains cur); [discriminate |].
  destruct (nowMs <? _); discriminate.
Qed.

Lemma fallbackDots_cases (tid : string) (entries : list ScheduleEntry)
    (g : Rng) (d : Dot) :
  In d (fst (fallbackDots getTime trains nodeList nowMs tid entries g)) ->
  exists g', placed_at_station getTime trains nodeList nowMs tid entries g d g' \/
             placed_on_segment getTime trains nodeList nowMs tid entries g d g'.
Proof.
  unfold fallbackDots. destruct entries as [|e0 rest]; [intros [] |].
  set (entries := e0 :: rest). unfold bind.
  destruct (walk getTime trains nodeList nowMs tid entries g)
    as [[d0|] g'] eqn:Hw.
  - intros [<- | []]. exists g'. now apply walk_cases.
  - apply (walk_none getTime trains nodeList nowMs tid entries g g'
             (mkEntry "" "" 0 "" "" None)) in Hw; [| discriminate].
    cbv zeta. rewrite Hw. intros [].
Qed.

End DotFacts.

Lemma routes_tracks (route : Route) :
  In route routes -> tracks route = 1 \/ tracks route = 2.
Proof.
  intros [<- | [<- | [<- | []]]]; cbn; auto.
Qed.

Lemma segmentDot_track (getTime : string -> Z) (trains : list Train)
    (nowMs : Z) (tid : string) (cur next : ScheduleEntry) (a b : Node)
    (g : Rng) :
  unit_draws g ->
  exists tn, d_trackNumber (fst (segmentDot getTime trains nowMs tid cur next a b g))
               = Some tn /\ 1 <= tn <= 2.
Proof.
  intro Hg. unfold segmentDot, bind, ret, Math_random.
  destruct (find_first _ routes) as [route|] eqn:Hr; cbn [fst d_trackNumber].
  - eexists. split; [reflexivity |].
    apply find_first_some in Hr. destruct Hr as [Hin _].
    destruct (Hg 0%nat) as [H0 H1]. unfold Math_floor.
    assert (Hlo : 0 <= Qfloor (g 0%nat * inject_Z (tracks route))).
    { apply (Z.le_trans _ (Qfloor 0)); [discriminate |].
      apply Qfloor_resp_le.
      destruct (routes_tracks route Hin) as [-> | ->];
        [change (inject_Z 1) with 1%Q | change (inject_Z 2) with 2%Q]; lra. }
    assert (Hhi : Qfloor (g 0%nat * inject_Z (tracks route)) <= 1).
    { apply floor_le_iff. change (inject_Z (1 + 1)) with 2%Q.
      destruct (routes_tracks route Hin) as [-> | ->];
        [change (inject_Z 1) with 1%Q | change (inject_Z 2) with 2%Q]; lra. }
    lia.
  - exists 1. split; [reflexivity | lia].
Qed.

Lemma fallbackDots_shape :
  forall (getTime : string -> Z) (trains : list Train) (nodeList : list Node)
         (nowMs : Z) (tid : string) (entries : list ScheduleEntry) (g : Rng),
    let dots := fst (fallbackDots getTime trains nodeList nowMs tid entries g) in
    (List.length dots <= 1)%nat /\
    (forall d, In d dots -> d_id d = tid) /\
    (entries = [] -> dots = []) /\
    (forall dflt,
       entries <> [] ->
       nodeFor nodeList (station_id (last entries dflt)) <> None ->
       List.length dots = 1%nat).
Proof.
  intros getTime trains nodeList nowMs tid entries g dots.
  assert (Hid : forall d, In d dots -> d_id d = tid).
  { intros d Hd. subst dots.
    destruct (fallbackDots_cases getTime trains nodeList nowMs tid entries g d Hd)
      as (g' & [(cur & n & _ & _ & -> & _) |
                (pre & cur & next & post & a & b & _ & _ & _ & _ & Hsd)]).
    - apply stationDot_fields.
    - pose proof (segmentDot_fields getTime trains nowMs tid cur next a b g) as Hf.
      cbv zeta in Hf. rewrite Hsd in Hf. apply Hf. }
  subst dots. unfold fallbackDots in *.
  destruct entries as [|e0 rest].
  { cbn. repeat split; auto; try lia. intros dflt H. congruence. }
  set (entries := e0 :: rest) in *. unfold bind in *.
  destruct (walk getTime trains nodeList nowMs tid entries g)
    as [[d0|] g'] eqn:Hw.
  - cbn [fst ret List.length]. repeat split; auto. discriminate.
  - pose proof (walk_none getTime trains nodeList nowMs tid entries g g'
                  (mkEntry "" "" 0 "" "" None)) as Hn.
    cbv zeta. rewrite Hn by (discriminate || exact Hw).
    cbn [fst ret List.length]. split; [lia |]. split; [intros d [] |].
    split; [discriminate |].
    intros dflt _ Hnode. exfalso. apply Hnode.
    apply (walk_none getTime trains nodeList nowMs tid entries g g' dflt);
      [discriminate | exact Hw].
Qed.

(** X9.  In schedule-fallback mode a train gets at most one dot, and the dot
    carries the train's id; a train without entries gets none; a train whose
    last entry is at a station that has a node gets exactly one. *)
Theorem fallbackDots_one_per_train :
  forall (getTime : string -> Z) (trains : list Train) (nodeList : list Node)
         (nowMs : Z) (tid : string) (entries : list ScheduleEntry) (g : Rng),
    let dots := fst (fallbackDots getTime trains nodeList nowMs tid entries g) in
    (List.length dots <= 1)%nat /\
    (forall d, In d dots -> d_id d = tid) /\
    (entries = [] -> dots = []) /\
    (forall dflt,
       entries <> [] ->
       nodeFor nodeList (station_id (last entries dflt)) <> None ->
       List.length dots = 1%nat).
Proof. exact fallbackDots_shape. Qed.

(** X10.  A moving dot of the fallback mode belongs to two consecutive
    entries of the itinerary whose stations both have nodes, at an instant
    between the departure from the first and the arrival at the second; it
    lies on the straight segment between the two nodes, so each of its
    coordinates is between the corresponding coordinates of the nodes. *)
Theorem moving_dot_between_stations :
  forall (getTime : string -> Z) (trains : list Train) (nodeList : list Node)
         (nowMs : Z) (tid : string) (entries : list ScheduleEntry) (g : Rng)
         (d : Dot),
    In d (fst (fallbackDots getTime trains nodeList nowMs tid entries g)) ->
    d_status d = moving ->
    exists pre cur next post a b (r : Q),
      entries = (pre ++ cur :: next :: post)%list /\
      nodeFor nodeList (station_id cur) = Some a /\
      nodeFor nodeList (station_id next) = Some b /\
      getTime (actual_departure cur) <= nowMs <= getTime (actual_arrival next) /\
      (0 <= r)%Q /\ (r <= 1)%Q /\
      d_x d = nadd (n_x a) (nmul (nsub (n_x b) (n_x a)) (Some r)) /\
      d_y d = nadd (n_y a) (nmul (nsub (n_y b) (n_y a)) (Some r)) /\
      (forall ax bx, n_x a = Some ax -> n_x b = Some bx ->
         exists x, d_x d = Some x /\ (Qmin ax bx <= x)%Q /\ (x <= Qmax ax bx)%Q) /\
      (forall ay by_, n_y a = Some ay -> n_y b = Some by_ ->
         exists y, d_y d = Some y /\ (Qmin ay by_ <= y)%Q /\ (y <= Qmax ay by_)%Q).
Proof.
  intros getTime trains nodeList nowMs tid entries g d Hd Hmov.
  destruct (fallbackDots_cases getTime trains nodeList nowMs tid entries g d Hd)
    as (g' & [(cur & n & _ & _ & -> & _) |
              (pre & cur & next & post & a & b & He & Ha & Hb & Ht & Hsd)]).
  { exfalso. revert Hmov. apply stationDot_fields. }
  pose proof (segmentDot_fields getTime trains nowMs tid cur next a b g) as Hf.
  cbv zeta in Hf. rewrite Hsd in Hf. cbn [fst] in Hf.
  destruct Hf as (_ & _ & Hx & Hy).
  set (r := Qmax 0 (Qmin 1 (inject_Z (nowMs - getTime (actual_departure cur))
                            / Qmax 1 (inject_Z (getTime (actual_arrival next)
                                       - getTime (actual_departure cur)))))%Q) in *.
  assert (Hr0 : (0 <= r)%Q) by apply Q.le_max_l.
  assert (Hr1 : (r <= 1)%Q)
    by (apply Q.max_lub; [discriminate | apply Q.le_min_l]).
  assert (Hbetween : forall p q : Q,
             (Qmin p q <= p + (q - p) * r)%Q /\ (p + (q - p) * r <= Qmax p q)%Q).
  { intros p q. destruct (Qlt_le_dec q p) as [Hlt | Hle].
    - rewrite Q.min_r, Q.max_l by lra. split; nra.
    - rewrite Q.min_l, Q.max_r by lra. split; nra. }
  exists pre, cur, next, post, a, b, r.
  repeat (split; [assumption || (apply Ht) |]).
  split.
  - intros ax bx Hax Hbx. rewrite Hx, Hax, Hbx. cbn.
    eexists. split; [reflexivity |]. apply Hbetween.
  - intros ay by_ Hay Hby. rewrite Hy, Hay, Hby. cbn.
    eexists. split; [reflexivity |]. apply Hbetween.
Qed.

Lemma moving_dot_between_stations_witness :
  exists (d : Dot) (x y : Q),
    In d (fst (fallbackDots utc_ms sample_trains sample_nodes
                 (utc_ms "2025-09-22T09:18:00") "T1"
                 [entry_T1; entry_T1_SC] draws_low)) /\
    d_x d = Some x /\ d_y d = Some y /\
    (200 <= x)%Q /\ (x <= 500)%Q /\ (100 <= y)%Q /\ (y <= 160)%Q.
Proof.
  set (d := fst (segmentDot utc_ms sample_trains (utc_ms "2025-09-22T09:18:00")
                   "T1" entry_T1 entry_T1_SC
                   (mkNode "HYB" (Some 200%Q) (Some 160%Q) (Some 4))
                   (mkNode "SC" (Some 500%Q) (Some 100%Q) (Some 6)) draws_low)).
  assert (Hin : In d (fst (fallbackDots utc_ms sample_trains sample_nodes
                             (utc_ms "2025-09-22T09:18:00") "T1"
                             [entry_T1; entry_T1_SC] draws_low)))
    by (left; reflexivity).
  destruct (moving_dot_between_stations utc_ms sample_trains sample_nodes
              (utc_ms "2025-09-22T09:18:00") "T1" [entry_T1; entry_T1_SC]
              draws_low d Hin eq_refl)
    as (pre & cur & next & post & a & b & r & He & Ha & Hb & _ & _ & _ & _ & _
        & Hx & Hy).
  assert (Hcn : cur = entry_T1 /\ next = entry_T1_SC).
  { destruct pre as [|p0 [|p1 [|p2 pre]]]; cbn in He; try discriminate He.
    injection He as <- <- _. split; reflexivity. }
  destruct Hcn as [-> ->].
  injection Ha as <-. injection Hb as <-.
  destruct (Hx 200%Q 500%Q eq_refl eq_refl) as (x & Hdx & Hx1 & Hx2).
  destruct (Hy 160%Q 100%Q eq_refl eq_refl) as (y & Hdy & Hy1 & Hy2).
  exists d, x, y. repeat split; assumption.
Defined.

(** X11.  In schedule-fallback mode only moving dots carry a track number,
    and, the random draws being in [0, 1), the number is 1 or 2. *)
Theorem track_number_range :
  forall (getTime : string -> Z) (trains : list Train) (nodeList : list Node)
         (nowMs : Z) (tid : string) (entries : list ScheduleEntry) (g : Rng)
         (d : Dot),
    unit_draws g ->
    In d (fst (fallbackDots getTime trains nodeList nowMs tid entries g)) ->
    (d_status d <> moving /\ d_trackNumber d = None) \/
    (d_status d = moving /\
     exists tn, d_trackNumber d = Some tn /\ 1 <= tn <= 2).
Proof.
  intros getTime trains nodeList nowMs tid entries g d Hg Hd.
  destruct (fallbackDots_cases getTime trains nodeList nowMs tid entries g d Hd)
    as (g' & [(cur & n & _ & _ & -> & _) |
              (pre & cur & next & post & a & b & _ & _ & _ & _ & Hsd)]).
  - left. split; apply stationDot_fields.
  - right.
    pose proof (segmentDot_fields getTime trains nowMs tid cur next a b g) as Hf.
    pose proof (segmentDot_track getTime trains nowMs tid cur next a b g Hg) as Ht.
    cbv zeta in Hf. rewrite Hsd in Hf, Ht. cbn [fst] in Hf, Ht.
    split; [apply Hf | exact Ht].
Qed.

Lemma track_number_range_witness :
  exists (d : Dot) (tn : Z),
    In d (fst (fallbackDots utc_ms sample_trains sample_nodes
                 (utc_ms "2025-09-22T09:18:00") "T1"
                 [entry_T1; entry_T1_SC] draws_high)) /\
    d_status d = moving /\ d_trackNumber d = Some tn /\ 1 <= tn <= 2.
Proof.
  assert (Hg : unit_draws draws_high)
    by (intro n; split; [discriminate | reflexivity]).
  eexists.
  match goal with
  | |- exists tn, In ?d _ /\ _ =>
      destruct (track_number_range utc_ms sample_trains sample_nodes
                  (utc_ms "2025-09-22T09:18:00") "T1" [entry_T1; entry_T1_SC]
                  draws_high d Hg (or_introl eq_refl))
        as [[H _] | [Hm (tn & Htn & Hr)]]
  end.
  - exfalso. apply H. reflexivity.
  - exists tn. split; [left; reflexivity |]. auto.
Defined.

(** ** Station nodes *)

Lemma nodes_table_in_canvas (stations : list Station) :
  forall g : Rng,
    unit_draws g ->
    let f := fun st : Station =>
      match stationPositions (st_id st) with
      | Some (x, y, p) => ret (mkNode (st_id st) (Some x) (Some y) (Some p))
      | None =>
          rx <- Math_random ;;
          ry <- Math_random ;;
          ret (mkNode (st_id st) (Some (padding + rx * (width - 2 * padding))%Q)
                      (Some (padding + ry * (height - 2 * padding))%Q)
                      (Some (if platforms st =? 0 then 2 else platforms st)))
      end in
    map n_id (fst (mapM f stations g)) = map st_id stations /\
    Forall in_canvas (fst (mapM f stations g)).
Proof.
  induction stations as [|st stations IH]; intros g Hg f.
  - cbn. split; [reflexivity | constructor].
  - cbn [mapM]. unfold bind, ret.
    assert (Hst : exists n g1, f st g = (n, g1) /\ n_id n = st_id st /\
                               in_canvas n /\ unit_draws g1).
    { subst f. cbv beta. unfold stationPositions.
      destruct (String.eqb (st_id st) "HYB");
        [eexists _, _; split; [reflexivity |]; split; [reflexivity |];
         split; [| exact Hg];
         exists 200%Q, 160%Q; cbn; repeat split; discriminate |].
      destruct (String.eqb (st_id st) "SC");
        [eexists _, _; split; [reflexivity |]; split; [reflexivity |];
         split; [| exact Hg];
         exists 500%Q, 100%Q; cbn; repeat split; discriminate |].
      destruct (String.eqb (st_id st) "KCG");
        [eexists _, _; split; [reflexivity |]; split; [reflexivity |];
         split; [| exact Hg];
         exists 350%Q, 220%Q; cbn; repeat split; discriminate |].
      unfold bind, Math_random, ret.
      eexists _, _. split; [reflexivity |]. split; [reflexivity |].
      split; [| intro k; apply (Hg (S (S k)))].
      destruct (Hg 0%nat) as [H0 H1]. destruct (Hg 1%nat) as [H2 H3].
      eexists _, _. cbn [n_x n_y]. split; [reflexivity |].
      split; [reflexivity |].
      unfold padding, width, height. repeat split; lra. }
    destruct Hst as (n & g1 & Hf & Hid & Hc & Hg1). rewrite Hf.
    destruct (IH g1 Hg1) as [IHid IHc]. fold f in IHid, IHc.
    destruct (mapM f stations g1) as [ns g2].
    cbn [fst map] in *. split; [now rewrite Hid, IHid | now constructor].
Qed.

Lemma fold_Qmin_le (l : list Q) :
  forall x, (fold_left Qmin l x <= x)%Q /\
            forall v, In v l -> (fold_left Qmin l x <= v)%Q.
Proof.
  induction l as [|a l IH]; intro x; cbn [fold_left].
  - split; [apply Qle_refl | intros v []].
  - destruct (IH (Qmin x a)) as [H1 H2]. split.
    + eapply Qle_trans; [exact H1 | apply Q.le_min_l].
    + intros v [<- | Hv]; [| auto].
      eapply Qle_trans; [exact H1 | apply Q.le_min_r].
Qed.

Lemma fold_nmin_some (l : list Q) (x : Q) :
  fold_left nmin (map Some l) (Some x) = Some (fold_left Qmin l x).
Proof.
  revert x. induction l as [|a l IH]; intro x; [reflexivity |].
  cbn [map fold_left]. exact (IH (Qmin x a)).
Qed.

Lemma fold_nmax_some (l : list Q) (x : Q) :
  fold_left nmax (map Some l) (Some x) = Some (fold_left Qmax l x).
Proof.
  revert x. induction l as [|a l IH]; intro x; [reflexivity |].
  cbn [map fold_left]. exact (IH (Qmax x a)).
Qed.

(** The extreme values of a non-empty list of finite numbers. *)
Lemma min_max_some (l : list Q) :
  l <> [] ->
  exists m M : Q,
    Math_min_list (map Some l) = Some m /\
    Math_max_list (map Some l) = Some M /\
    forall v, In v l -> (m <= v)%Q /\ (v <= M)%Q.
Proof.
  destruct l as [|x l]; [congruence |]. intros _.
  exists (fold_left Qmin l x), (fold_left Qmax l x).
  cbn [map Math_min_list Math_max_list].
  split; [apply fold_nmin_some |]. split; [apply fold_nmax_some |].
  destruct (fold_Qmin_le l x) as [H1 H2]. destruct (fold_Qmax_ge l x) as [H3 H4].
  intros v [<- | Hv]; split; auto.
Qed.

Lemma scale_in_unit (v m M : Q) :
  (m <= v)%Q -> (v <= M)%Q ->
  let t := ((v - m) / Qmax (1 # 1000000) (M - m))%Q in
  (0 <= t)%Q /\ (t <= 1)%Q.
Proof.
  intros H1 H2 t. subst t.
  assert (Hd : (0 < Qmax (1 # 1000000) (M - m))%Q).
  { eapply Qlt_le_trans; [| apply Q.le_max_l]. reflexivity. }
  assert (Hle : (M - m <= Qmax (1 # 1000000) (M - m))%Q) by apply Q.le_max_r.
  split.
  - apply Qle_shift_div_l; [exact Hd |]. lra.
  - apply Qle_shift_div_r; [exact Hd |]. lra.
Qed.

Lemma nodes_canvas_shape :
  forall (stations : list Station) (g : Rng),
    unit_draws g ->
    hasGeo stations = false \/
    (forall st, In st stations ->
       exists la lo, latitude st = Some la /\ longitude st = Some lo) ->
    let ns := fst (nodes stations g) in
    map n_id ns = map st_id stations /\ Forall in_canvas ns.
Proof.
  intros stations g Hg Hcase ns. subst ns. unfold nodes.
  destruct (hasGeo stations) eqn:Hgeo.
  2:{ apply nodes_table_in_canvas. exact Hg. }
  destruct Hcase as [Hcase | Hall]; [discriminate Hcase |].
  assert (Hne : stations <> []) by (intros ->; discriminate Hgeo).
  set (lat := fun st => match latitude st with Some q => q | None => 0%Q end).
  set (lon := fun st => match longitude st with Some q => q | None => 0%Q end).
  assert (Hlat : map latitude stations = map Some (map lat stations)).
  { rewrite map_map. apply map_ext_in. intros st Hst.
    destruct (Hall st Hst) as (la & lo & Hla & _). subst lat. cbv beta.
    now rewrite Hla. }
  assert (Hlon : map longitude stations = map Some (map lon stations)).
  { rewrite map_map. apply map_ext_in. intros st Hst.
    destruct (Hall st Hst) as (la & lo & _ & Hlo). subst lon. cbv beta.
    now rewrite Hlo. }
  assert (Hne1 : map lat stations <> [])
    by (destruct stations; [congruence | discriminate]).
  assert (Hne2 : map lon stations <> [])
    by (destruct stations; [congruence | discriminate]).
  destruct (min_max_some _ Hne1) as (mLat & MLat & Hmin1 & Hmax1 & Hb1).
  destruct (min_max_some _ Hne2) as (mLon & MLon & Hmin2 & Hmax2 & Hb2).
  cbv zeta. rewrite Hlat, Hlon, Hmin1, Hmax1, Hmin2, Hmax2.
  unfold ret. cbn [fst]. split.
  - rewrite map_map. reflexivity.
  - apply Forall_forall. intros n Hn. apply in_map_iff in Hn.
    destruct Hn as (st & <- & Hst).
    destruct (Hall st Hst) as (la & lo & Hla & Hlo).
    assert (Hla' : In la (map lat stations)).
    { apply in_map_iff. exists st. split; [| exact Hst].
      subst lat. cbv beta. now rewrite Hla. }
    assert (Hlo' : In lo (map lon stations)).
    { apply in_map_iff. exists st. split; [| exact Hst].
      subst lon. cbv beta. now rewrite Hlo. }
    destruct (Hb1 la Hla') as [Ha1 Ha2]. destruct (Hb2 lo Hlo') as [Ho1 Ho2].
    destruct (scale_in_unit la mLat MLat Ha1 Ha2) as [Hy0 Hy1].
    destruct (scale_in_unit lo mLon MLon Ho1 Ho2) as [Hx0 Hx1].
    rewrite Hla, Hlo. cbn [n_x n_y nadd nmul ndiv nsub nmax lift2].
    eexists _, _. split; [reflexivity |]. split; [reflexivity |].
    unfold padding, width, height.
    set (tx := ((lo - mLon) / Qmax (1 # 1000000) (MLon - mLon))%Q) in *.
    set (ty := ((la - mLat) / Qmax (1 # 1000000) (MLat - mLat))%Q) in *.
    repeat split; lra.
Qed.

(** X12.  When the random draws are in [0, 1) and either no station has
    coordinates or every station has both, [nodes] yields one node per
    station, in order and with the station's id, and every node has finite
    coordinates inside the canvas: 40 <= x <= 960 and 40 <= y <= 280. *)
Theorem nodes_in_canvas :
  forall (stations : list Station) (g : Rng),
    unit_draws g ->
    hasGeo stations = false \/
    (forall st, In st stations ->
       exists la lo, latitude st = Some la /\ longitude st = Some lo) ->
    let ns := fst (nodes stations g) in
    map n_id ns = map st_id stations /\ Forall in_canvas ns.
Proof. exact nodes_canvas_shape. Qed.

Lemma nodes_in_canvas_witness :
  Forall in_canvas (fst (nodes sample_stations draws_low)).
Proof.
  apply (nodes_in_canvas sample_stations draws_low).
  - intro n. split; [discriminate | reflexivity].
  - left. reflexivity.
Defined.

Lemma lift2_none_r (f : Q -> Q -> Q) (a : JsNum) : lift2 f a None = None.
Proof. destruct a; reflexivity. Qed.

Lemma fold_lift2_none (f : Q -> Q -> Q) (l : list JsNum) :
  fold_left (lift2 f) l None = None.
Proof. induction l as [|a l IH]; [reflexivity | exact IH]. Qed.

Lemma fold_lift2_in_none (f : Q -> Q -> Q) (l : list JsNum) :
  In None l -> forall x, fold_left (lift2 f) l x = None.
Proof.
  induction l as [|a l IH]; intros Hin x; [destruct Hin |].
  cbn [fold_left]. destruct Hin as [-> | Hin].
  - rewrite lift2_none_r. apply fold_lift2_none.
  - now apply IH.
Qed.

Lemma Math_min_list_nan (l : list JsNum) :
  In None l -> Math_min_list l = None /\ Math_max_list l = None.
Proof.
  destruct l as [|x l]; [intros [] |]. intros [-> | Hin].
  - split; apply fold_lift2_none.
  - split; now apply fold_lift2_in_none.
Qed.

(** X13.  When some station has both coordinates and some station lacks its
    latitude, the vertical coordinate of every node is [NaN], also for the
    stations that have coordinates; likewise for a missing longitude and the
    horizontal coordinate. *)
Theorem nodes_mixed_coordinates :
  forall (stations : list Station) (g : Rng),
    hasGeo stations = true ->
    let ns := fst (nodes stations g) in
    ((exists st, In st stations /\ latitude st = None) ->
     forall n, In n ns -> n_y n = None) /\
    ((exists st, In st stations /\ longitude st = None) ->
     forall n, In n ns -> n_x n = None).
Proof.
  intros stations g Hgeo ns. subst ns. unfold nodes. rewrite Hgeo.
  unfold ret. cbn [fst]. split.
  - intros (st & Hst & Hnone) n Hn.
    assert (HN : In None (map latitude stations))
      by (rewrite <- Hnone; now apply in_map).
    destruct (Math_min_list_nan _ HN) as [Hmin Hmax].
    apply in_map_iff in Hn. destruct Hn as (st' & <- & _).
    cbn [n_y]. rewrite Hmin. unfold nadd, nmul, nsub, ndiv.
    now rewrite !lift2_none_r.
  - intros (st & Hst & Hnone) n Hn.
    assert (HN : In None (map longitude stations))
      by (rewrite <- Hnone; now apply in_map).
    destruct (Math_min_list_nan _ HN) as [Hmin Hmax].
    apply in_map_iff in Hn. destruct Hn as (st' & <- & _).
    cbn [n_x]. rewrite Hmin. unfold nadd, nmul, nsub, ndiv.
    now rewrite !lift2_none_r.
Qed.

Lemma nodes_mixed_coordinates_witness :
  let stations :=
    [ mkStation "HYB" 4 None None (Some (17385 # 1000)) (Some (784867 # 10000))
                (Some true);
      mkStation "BZA" 2 None None None None None ] in
  map n_y (fst (nodes stations draws_low)) = [None; None].
Proof.
  intro stations.
  assert (H : forall n, In n (fst (nodes stations draws_low)) -> n_y n = None).
  { apply (proj1 (nodes_mixed_coordinates stations draws_low eq_refl)).
    exists (mkStation "BZA" 2 None None None None None).
    split; [right; left; reflexivity | reflexivity]. }
  assert (E : exists n1 n2, fst (nodes stations draws_low) = [n1; n2])
    by (eexists _, _; reflexivity).
  destruct E as (n1 & n2 & E). rewrite E in *. cbn [map].
  rewrite (H n1), (H n2) by (cbn; auto). reflexivity.
Defined.

(** ** Dots of the push mode *)



(** ** Reconciliation state: polling, failures, renders with a baseline *)

Lemma poll_step (st : AppState) (r : Fetch ScheduleResponse)
    (b : Fetch (list ScheduleEntry)) :
  let st' := step st (Poll r b) in
  previousSchedule st' = previousSchedule st /\
  loading st' = false /\
  baselineSchedule st' =
    match r, b with
    | Ok _, Ok baselineData => baselineData
    | _, _ => baselineSchedule st
    end /\
  schedule st' = match r with Ok data => resp_schedule data | _ => schedule st end.
Proof.
  destruct r as [ | | data]; [repeat split | repeat split |].
  destruct b; repeat split.
Qed.

(** X15.  As long as only the polling interval has run, the previous
    snapshot is never filled and no snapshot held by the client is ever
    promoted to baseline: the baseline is empty or is the answer of a
    baseline request, and the current snapshot is empty or is the answer of
    a schedule request. *)
Theorem polling_never_promotes :
  forall evs : list Event,
    Forall is_poll evs ->
    let st := run evs in
    previousSchedule st = [] /\
    loading st = false /\
    (baselineSchedule st = [] \/
     exists data baselineData,
       In (Poll (Ok data) (Ok baselineData)) evs /\
       baselineSchedule st = baselineData) /\
    (schedule st = [] \/
     exists data b, In (Poll (Ok data) b) evs /\
                    schedule st = resp_schedule data).
Proof.
  unfold run. induction evs as [|ev evs IH] using rev_ind; intro Hall.
  - cbn. auto.
  - apply Forall_app in Hall. destruct Hall as [Hall Hev].
    inversion Hev as [| ? ? Hp _]; subst.
    destruct ev as [r b | | | ]; try destruct Hp.
    specialize (IH Hall). cbv zeta in IH. destruct IH as (H1 & H2 & H3 & H4).
    rewrite fold_left_app. cbn [fold_left].
    set (st := fold_left step evs initialState) in *.
    destruct (poll_step st r b) as (P1 & P2 & P3 & P4). cbv zeta.
    split; [now rewrite P1 |]. split; [exact P2 |].
    split.
    + rewrite P3. destruct r as [ | | data].
      * destruct H3 as [H3 | (d & bd & Hin & H3)]; [now left |].
        right. exists d, bd. split; [apply in_or_app; now left | exact H3].
      * destruct H3 as [H3 | (d & bd & Hin & H3)]; [now left |].
        right. exists d, bd. split; [apply in_or_app; now left | exact H3].
      * destruct b as [ | | bd].
        -- destruct H3 as [H3 | (d & bd & Hin & H3)]; [now left |].
           right. exists d, bd. split; [apply in_or_app; now left | exact H3].
        -- destruct H3 as [H3 | (d & bd & Hin & H3)]; [now left |].
           right. exists d, bd. split; [apply in_or_app; now left | exact H3].
        -- right. exists data, bd. split; [| reflexivity].
           apply in_or_app. right. now left.
    + rewrite P4. destruct r as [ | | data].
      * destruct H4 as [H4 | (d & b' & Hin & H4)]; [now left |].
        right. exists d, b'. split; [apply in_or_app; now left | exact H4].
      * destruct H4 as [H4 | (d & b' & Hin & H4)]; [now left |].
        right. exists d, b'. split; [apply in_or_app; now left | exact H4].
      * right. exists data, b. split; [| reflexivity].
        apply in_or_app. right. now left.
Qed.

Lemma polling_never_promotes_witness :
  let st := run [ Poll (Ok (response_of [entry_T1])) NotOk;
                  Poll (Ok (response_of [entry_T2])) NotOk ] in
  previousSchedule st = [] /\ baselineSchedule st = [] /\
  schedule st = [entry_T2].
Proof.
  destruct (polling_never_promotes
              [ Poll (Ok (response_of [entry_T1])) NotOk;
                Poll (Ok (response_of [entry_T2])) NotOk ])
    as (H1 & _ & _ & _).
  - repeat constructor.
  - split; [exact H1 |]. split; reflexivity.
Defined.

(** X16.  What a failed schedule request (network failure or error status)
    leaves behind.  On a polling tick and on "Refresh All" the three
    snapshots and the delay arrays are what they were.  On "Refresh" the
    current snapshot stays cleared and the former current snapshot is in
    the previous slot.  After a successful reset all three snapshots are
    empty.  In every case the loading flag is off again. *)
Theorem failed_fetch_effects :
  forall (st : AppState) (r : Fetch ScheduleResponse)
         (b : Fetch (list ScheduleEntry)),
    failed r ->
    (forall ev, ev = Poll r b \/ ev = RefreshAll r b ->
       let st' := step st ev in
       schedule st' = schedule st /\
       baselineSchedule st' = baselineSchedule st /\
       previousSchedule st' = previousSchedule st /\
       delaysBefore st' = delaysBefore st /\
       delaysAfter st' = delaysAfter st /\
       loading st' = false) /\
    (let st' := step st (Refresh r b) in
     schedule st' = [] /\
     previousSchedule st' = schedule st /\
     baselineSchedule st' = baselineSchedule st /\
     loading st' = false) /\
    (let st' := step st (Reset (Ok tt) r b) in
     schedule st' = [] /\ baselineSchedule st' = [] /\
     previousSchedule st' = [] /\ loading st' = false).
Proof.
  intros st r b Hf. destruct r as [ | | data]; [| | destruct Hf].
  - split; [intros ev [-> | ->]; repeat split |]. split; repeat split.
  - split; [intros ev [-> | ->]; repeat split |]. split; repeat split.
Qed.

Lemma failed_fetch_effects_witness :
  let st := mkState [entry_T1] baseline_X [] [] [] false in
  schedule (step st (Poll Rejected NotOk)) = [entry_T1] /\
  schedule (step st (Refresh Rejected NotOk)) = [] /\
  previousSchedule (step st (Refresh Rejected NotOk)) = [entry_T1].
Proof.
  destruct (failed_fetch_effects (mkState [entry_T1] baseline_X [] [] [] false)
              Rejected NotOk I) as (H1 & H2 & _).
  destruct (H1 (Poll Rejected NotOk) (or_introl eq_refl)) as (H3 & _).
  destruct H2 as (H4 & H5 & _).
  split; [exact H3 |]. split; [exact H4 | exact H5].
Defined.

Lemma entry_eqb_eq (a b : ScheduleEntry) : entry_eqb a b = true <-> a = b.
Proof.
  split.
  - unfold entry_eqb. rewrite !andb_true_iff.
    intros (((((H1 & H2) & H3) & H4) & H5) & H6).
    apply String.eqb_eq in H1, H2, H4, H5. apply Z.eqb_eq in H3.
    destruct a as [a1 a2 a3 a4 a5 a6], b as [b1 b2 b3 b4 b5 b6].
    cbn in *. subst.
    destruct a6 as [x|], b6 as [y|]; try discriminate; [| reflexivity].
    apply String.eqb_eq in H6. now subst.
  - intros ->. generalize (snapshot_eqb_refl [b]). cbn [snapshot_eqb].
    now rewrite andb_true_r.
Qed.

Lemma snapshot_eqb_eq (a b : list ScheduleEntry) :
  snapshot_eqb a b = true <-> a = b.
Proof.
  revert b. induction a as [|x a IH]; intros [|y b]; cbn [snapshot_eqb];
    try (split; [discriminate | discriminate]); [tauto |].
  rewrite andb_true_iff, entry_eqb_eq, IH. split.
  - intros [-> ->]. reflexivity.
  - intros [= -> ->]. auto.
Qed.

(** X17.  A [fetchSchedule] whose render shows a baseline, answered with a
    snapshot: the baseline is not written, whatever the baseline endpoint
    would answer; the current snapshot becomes the answer; and the previous
    slot takes the snapshot of the render exactly when that snapshot is not
    empty and differs from the answer. *)
Theorem fetch_with_baseline :
  forall (seen st : AppState) (data : ScheduleResponse)
         (b : Fetch (list ScheduleEntry)),
    baselineSchedule seen <> [] ->
    let st' := fetchSchedule seen (Ok data) b st in
    baselineSchedule st' = baselineSchedule st /\
    schedule st' = resp_schedule data /\
    (schedule seen <> [] /\ schedule seen <> resp_schedule data ->
     previousSchedule st' = schedule seen) /\
    (schedule seen = [] \/ schedule seen = resp_schedule data ->
     previousSchedule st' = previousSchedule st).
Proof.
  intros seen st data b Hb st'. subst st'.
  split; [now apply fetchSchedule_keeps_baseline |].
  unfold fetchSchedule.
  destruct (baselineSchedule seen) as [|x l]; [congruence |].
  cbn [is_empty]. rewrite andb_false_r.
  destruct (snapshot_eqb (schedule seen) (resp_schedule data)) eqn:He.
  - apply snapshot_eqb_eq in He. cbn [negb]. rewrite andb_false_r.
    split; [reflexivity |]. split; [intros [_ H]; contradiction | reflexivity].
  - assert (Hne : schedule seen <> resp_schedule data).
    { intro H. apply snapshot_eqb_eq in H. congruence. }
    cbn [negb]. rewrite andb_true_r.
    destruct (schedule seen) as [|e s]; cbn [is_empty negb].
    + split; [reflexivity |]. split; [intros [H _]; congruence | reflexivity].
    + split; [reflexivity |]. split; [reflexivity |].
      intros [H | H]; [discriminate H | contradiction].
Qed.

Lemma fetch_with_baseline_witness :
  let seen := mkState [entry_T1] baseline_X [] [] [] false in
  let st' := fetchSchedule seen (Ok (response_of [entry_T2])) (Ok baseline_Y)
                           seen in
  baselineSchedule st' = baseline_X /\ schedule st' = [entry_T2] /\
  previousSchedule st' = [entry_T1].
Proof.
  destruct (fetch_with_baseline (mkState [entry_T1] baseline_X [] [] [] false)
              (mkState [entry_T1] baseline_X [] [] [] false)
              (response_of [entry_T2]) (Ok baseline_Y)
              ltac:(discriminate))
    as (H1 & H2 & H3 & _).
  split; [exact H1 |]. split; [exact H2 |].
  apply H3. split; discriminate.
Defined.

(** ** Changed-train set: what it contains *)

Lemma set_has_in (x : string) (s : list string) :
  set_has x s = true <-> In x s.
Proof.
  unfold set_has. rewrite existsb_exists. split.
  - intros (y & Hy & He). apply String.eqb_eq in He. now subst.
  - intro H. exists x. split; [exact H | apply String.eqb_refl].
Qed.

Lemma set_add_spec (x : string) (s : list string) :
  (forall y, In y (set_add x s) <-> y = x \/ In y s) /\
  (NoDup s -> NoDup (set_add x s)).
Proof.
  unfold set_add. destruct (set_has x s) eqn:Hh.
  - apply set_has_in in Hh. split; [| auto].
    intro y. split; [auto |]. intros [-> | H]; auto.
  - assert (Hn : ~ In x s) by (intro H; apply set_has_in in H; congruence).
    split.
    + intro y. rewrite in_app_iff. cbn [In]. intuition congruence.
    + intro Hnd. apply NoDup_app; [exact Hnd | repeat constructor; intros [] |].
      intros y Hy [<- | []]. contradiction.
Qed.

(** The before-entry an after-entry is compared with, when they differ. *)
Lemma changed_fold_spec (before : list ScheduleEntry) :
  forall (after : list ScheduleEntry) (acc : list string),
    (forall tid,
       In tid (fold_left (changed_step before) after acc) <->
       In tid acc \/
       exists a b, In a after /\ train_id a = tid /\
                   find_first (fun b => String.eqb (train_id b) tid) before
                     = Some b /\
                   differs b a = true) /\
    (NoDup acc -> NoDup (fold_left (changed_step before) after acc)).
Proof.
  induction after as [|a after IH]; intro acc; cbn [fold_left].
  - split; [| auto]. intro tid. split; [auto |].
    intros [H | (a & b & [] & _)]. exact H.
  - destruct (IH (changed_step before acc a)) as [IH1 IH2].
    assert (Hstep : (forall tid,
                In tid (changed_step before acc a) <->
                In tid acc \/
                (train_id a = tid /\
                 exists b, find_first (fun b => String.eqb (train_id b) tid)
                                      before = Some b /\
                           differs b a = true)) /\
             (NoDup acc -> NoDup (changed_step before acc a))).
    { unfold changed_step.
      destruct (find_first (fun b => String.eqb (train_id b) (train_id a)) before)
        as [b|] eqn:Hf.
      - destruct (differs b a) eqn:Hd.
        + destruct (set_add_spec (train_id a) acc) as [S1 S2].
          split; [| exact S2]. intro tid. rewrite S1. split.
          * intros [-> | H]; [| now left]. right. split; [reflexivity |].
            exists b. auto.
          * intros [H | [<- _]]; auto.
        + split; [| auto]. intro tid. split; [auto |].
          intros [H | [<- (b' & Hb' & Hd')]]; [exact H |].
          rewrite Hf in Hb'. injection Hb' as <-. congruence.
      - split; [| auto]. intro tid. split; [auto |].
        intros [H | [<- (b' & Hb' & _)]]; [exact H |]. congruence. }
    destruct Hstep as [St1 St2]. split; [| auto].
    intro tid. rewrite IH1, St1. split.
    + intros [[H | [He (b & Hb & Hd)]] | (a' & b & Ha' & He & Hb & Hd)].
      * now left.
      * right. exists a, b. split; [now left | auto].
      * right. exists a', b. split; [now right | auto].
    + intros [H | (a' & b & [<- | Ha'] & He & Hb & Hd)].
      * left. now left.
      * left. right. split; [exact He |]. exists b. auto.
      * right. exists a', b. auto.
Qed.

(** X18.  The changed-train set has no duplicates, and a train id is in it
    exactly when some entry of [after] with that id differs, in platform,
    arrival text or departure text, from the first entry of [before] with
    that id. *)
Theorem changedTrains_spec :
  forall (before after : list ScheduleEntry),
    NoDup (changedTrains before after) /\
    forall tid,
      In tid (changedTrains before after) <->
      exists a b,
        In a after /\ train_id a = tid /\
        find_first (fun b => String.eqb (train_id b) tid) before = Some b /\
        (assigned_platform b <> assigned_platform a \/
         actual_arrival b <> actual_arrival a \/
         actual_departure b <> actual_departure a).
Proof.
  intros before after. unfold changedTrains.
  destruct (changed_fold_spec before after []) as [H1 H2].
  split; [apply H2; constructor |].
  intro tid. rewrite H1.
  assert (Hd : forall a b, differs b a = true <->
             (assigned_platform b <> assigned_platform a \/
              actual_arrival b <> actual_arrival a \/
              actual_departure b <> actual_departure a)).
  { intros a b. unfold differs.
    rewrite !orb_true_iff, !negb_true_iff, Z.eqb_neq, !String.eqb_neq. tauto. }
  split.
  - intros [[] | (a & b & Ha & He & Hb & Hdf)].
    exists a, b. rewrite <- Hd. auto.
  - intros (a & b & Ha & He & Hb & Hdf). right.
    exists a, b. rewrite Hd. auto.
Qed.

(** ** The override checks on top of the fallback estimate *)

(** X20.  With the estimate that the fallback produced for the selected
    train and platform in the modal, an unforced submission is held back for
    confirmation exactly when at least one entry of another train occupies
    that platform at the train's station; a forced submission, and one with
    no such entry, goes to the server. *)
Theorem fallback_estimate_gates_override :
  forall (getTime : string -> Z) (trains : list Train)
         (schedule : list ScheduleEntry) (trainId : string) (newPlatform : Z)
         (sim : Simulate) (currentEntry : ScheduleEntry) (train : Train)
         (sa : string),
    trainId <> "" -> station_id currentEntry <> "" ->
    find_first (fun s => String.eqb (train_id s) trainId) schedule
      = Some currentEntry ->
    getTrain trains trainId = Some train ->
    truthy (scheduled_arrival train) = Some sa ->
    sim = HttpError \/ sim = Simulation None ->
    exists impact,
      calculateDelayImpact getTime trains schedule trainId newPlatform sim
        = Normal (Some impact) /\
      submitOverride_checks schedule (Some trainId) newPlatform (Some impact)
                            true
        = SendOverride trainId (station_id currentEntry) newPlatform /\
      submitOverride_checks schedule (Some trainId) newPlatform (Some impact)
                            false
        = match conflictingTrains schedule currentEntry trainId newPlatform with
          | [] => SendOverride trainId (station_id currentEntry) newPlatform
          | _ :: _ => DelayWarning trainId (station_id currentEntry) newPlatform
          end.
Proof.
  intros getTime trains schedule trainId newPlatform sim currentEntry train sa
         Hid Hst He Ht Hs Hsim.
  eexists. split.
  - apply (calculateDelayImpact_fallback getTime trains schedule trainId
             newPlatform sim currentEntry train sa He Ht Hs Hsim).
  - cbv zeta. unfold submitOverride_checks, truthy.
    apply String.eqb_neq in Hid, Hst. rewrite Hid, He, Hst.
    cbn [negb andb difference]. split; [reflexivity |].
    set (n := List.length (conflictingTrains schedule currentEntry trainId
                                             newPlatform)).
    assert (Hq : Qle_bool (inject_Z (Z.of_nat n * 3)) 2 = (n =? 0)%nat).
    { destruct n as [|n].
      - reflexivity.
      - cbn [Nat.eqb]. apply not_true_is_false. rewrite Qle_bool_iff.
        unfold Qle. cbn [Qnum Qden inject_Z]. lia. }
    rewrite Hq. subst n.
    destruct (conflictingTrains schedule currentEntry trainId newPlatform);
      reflexivity.
Qed.

Lemma fallback_estimate_gates_override_witness :
  exists impact,
    calculateDelayImpact utc_ms sample_trains sample_schedule "T1" 2 HttpError
      = Normal (Some impact) /\
    submitOverride_checks sample_schedule (Some "T1") 2 (Some impact) false
      = DelayWarning "T1" "HYB" 2.
Proof.
  destruct (fallback_estimate_gates_override utc_ms sample_trains
              sample_schedule "T1" 2 HttpError entry_T1 train_T1
              "2025-09-22T09:00:00"
              ltac:(discriminate) ltac:(discriminate)
              eq_refl eq_refl eq_refl (or_introl eq_refl))
    as (impact & H1 & _ & H2).
  exists impact. split; [exact H1 | exact H2].
Defined.

(** ** Audit log *)

(** X21.  After a successful log request the console holds the last 50 log
    entries at most, the most recent first: reversed, they are the tail of
    the answer.  A failed request leaves the log as it was. *)
Theorem fetchLogs_keeps_latest :
  forall (data logs : list LogEntry),
    let logs' := fetchLogs (Ok data) logs in
    List.length logs' = Nat.min (List.length data) 50 /\
    (exists older, data = (older ++ rev logs')%list) /\
    (forall latest older, data = (older ++ [latest])%list ->
                          hd_error logs' = Some latest) /\
    fetchLogs Rejected logs = logs /\ fetchLogs NotOk logs = logs.
Proof.
  intros data logs logs'. subst logs'. unfold fetchLogs, slice_last.
  set (k := (List.length data - 50)%nat).
  split; [rewrite length_rev, length_skipn; subst k; lia |].
  split; [exists (firstn k data); rewrite rev_involutive;
          symmetry; apply firstn_skipn |].
  split; [| split; reflexivity].
  intros latest older ->.
  assert (Hk : (k <= List.length older)%nat)
    by (subst k; rewrite length_app; cbn [List.length]; lia).
  rewrite skipn_app.
  replace (k - List.length older)%nat with 0%nat by lia.
  cbn [skipn]. rewrite rev_app_distr. reflexivity.
Qed.

(** ** Track occupancy *)

Lemma on_route_exclusive (trains : list Train) (e : ScheduleEntry) :
  ((if on_route trains (mkRoute "HYB" "SC" 2) e then 1 else 0) +
   (if on_route trains (mkRoute "SC" "KCG" 1) e then 1 else 0) +
   (if on_route trains (mkRoute "HYB" "KCG" 2) e then 1 else 0) <= 1)%nat.
Proof.
  unfold on_route. destruct (getTrain trains (train_id e)) as [t|]; [| cbn; lia].
  destruct (origin t) as [o|]; [| cbn; lia].
  destruct (destination t) as [d|]; [| cbn; lia].
  cbn [r_from r_to].
  destruct (String.eqb_spec o "HYB"), (String.eqb_spec o "SC"),
           (String.eqb_spec o "KCG"), (String.eqb_spec d "HYB"),
           (String.eqb_spec d "SC"), (String.eqb_spec d "KCG");
    subst; try discriminate; cbn; lia.
Qed.

Lemma filter_length_cons {A} (p : A -> bool) (x : A) (l : list A) :
  List.length (filter p (x :: l))
    = ((if p x then 1 else 0) + List.length (filter p l))%nat.
Proof. cbn [filter]. destruct (p x); reflexivity. Qed.

(** X22.  Occupancy is computed for the three routes, in the order of the
    route table.  A schedule entry is counted on at most one route, so the
    counts of the three routes add up to at most the number of entries; a
    route is flagged as conflicting exactly when more entries than tracks
    are counted on it. *)
Theorem trackOccupancy_counts :
  forall (trains : list Train) (schedule : list ScheduleEntry),
    let occ := trackOccupancy trains schedule in
    map occ_route occ = routes /\
    (fold_right (fun o n => (List.length (occ_trains o) + n)%nat) 0%nat occ
       <= List.length schedule)%nat /\
    (forall o, In o occ ->
       (occ_conflicts o = true <->
        tracks (occ_route o) < Z.of_nat (List.length (occ_trains o))) /\
       forall tid, In tid (occ_trains o) ->
         exists e, In e schedule /\ train_id e = tid /\
                   on_route trains (occ_route o) e = true).
Proof.
  intros trains schedule occ. subst occ. unfold trackOccupancy.
  split; [rewrite map_map; cbn [occ_route]; apply map_id |].
  split.
  - unfold routes. cbn [map fold_right occ_trains]. rewrite !length_map.
    induction schedule as [|e schedule IH]; [cbn; lia |].
    rewrite !filter_length_cons. cbn [List.length].
    pose proof (on_route_exclusive trains e). lia.
  - intros o Ho. apply in_map_iff in Ho. destruct Ho as (route & <- & _).
    cbn [occ_conflicts occ_trains occ_route]. split; [apply Z.ltb_lt |].
    intros tid Ht. apply in_map_iff in Ht. destruct Ht as (e & <- & He).
    apply filter_In in He. destruct He as [He1 He2]. exists e. auto.
Qed.

(** ** Property order and the "before" panel *)

Lemma insert_index_perm {V} (n : Z) (kv : string * V)
    (l : list (Z * (string * V))) :
  Permutation (map snd (insert_index n kv l)) (kv :: map snd l).
Proof.
  induction l as [|[m kv'] l IH]; cbn [insert_index map snd]; [reflexivity |].
  destruct (n <? m); cbn [map snd]; [reflexivity |].
  rewrite IH. apply perm_swap.
Qed.

Lemma filter_partition_perm {A} (p : A -> bool) (l : list A) :
  Permutation (filter p l ++ filter (fun x => negb (p x)) l) l.
Proof.
  induction l as [|x l IH]; [reflexivity |]. cbn [filter].
  destruct (p x); cbn [negb app].
  - now constructor.
  - rewrite <- Permutation_middle. now constructor.
Qed.

(** [Object.entries] lists every property exactly once. *)
Lemma Object_entries_perm {V} (o : list (string * V)) :
  Permutation (Object_entries o) o.
Proof.
  unfold Object_entries.
  set (isidx := fun kv : string * V =>
                  match array_index (fst kv) with
                  | Some _ => true
                  | None => false
                  end).
  set (F := fun (acc : list (Z * (string * V))) (kv : string * V) =>
              match array_index (fst kv) with
              | Some n => insert_index n kv acc
              | None => acc
              end).
  assert (HF : forall l acc,
             Permutation (map snd (fold_left F l acc))
                         (map snd acc ++ filter isidx l)).
  { induction l as [|kv l IH]; intro acc; cbn [fold_left filter].
    - now rewrite app_nil_r.
    - rewrite IH. subst F isidx. cbv beta.
      destruct (array_index (fst kv)) as [n|].
      + rewrite insert_index_perm. cbn [app]. apply Permutation_middle.
      + reflexivity. }
  rewrite (HF o []). cbn [map app].
  rewrite <- (filter_partition_perm isidx o) at 3.
  apply Permutation_app_head.
  assert (Heq : forall kv, negb (isidx kv)
                           = match array_index (fst kv) with
                             | Some _ => false
                             | None => true
                             end)
    by (intro kv; subst isidx; cbv beta; destruct (array_index (fst kv));
        reflexivity).
  rewrite (filter_ext _ _ Heq). reflexivity.
Qed.

Lemma obj_set_keys {V} (k : string) (v : V) (o : list (string * V)) (k' : string) :
  In k' (map fst (obj_set k v o)) <-> k' = k \/ In k' (map fst o).
Proof.
  induction o as [|[k0 v0] o IH]; cbn [obj_set map fst In].
  - intuition congruence.
  - destruct (String.eqb_spec k0 k) as [-> | Hne]; cbn [map fst In];
      [intuition congruence |].
    rewrite IH. tauto.
Qed.

Lemma obj_set_nodup {V} (k : string) (v : V) (o : list (string * V)) :
  NoDup (map fst o) -> NoDup (map fst (obj_set k v o)).
Proof.
  induction o as [|[k0 v0] o IH]; cbn [obj_set map fst]; intro H.
  - repeat constructor. intros [].
  - destruct (String.eqb_spec k0 k) as [-> | Hne]; cbn [map fst]; [exact H |].
    inversion H as [| ? ? Hn Hd]; subst. constructor; [| now apply IH].
    rewrite obj_set_keys. intros [-> | Hin]; [congruence | contradiction].
Qed.

Lemma obj_set_in {V} (k : string) (v : V) (o : list (string * V))
    (k' : string) (v' : V) :
  NoDup (map fst o) ->
  In (k', v') (obj_set k v o) ->
  (k' = k /\ v' = v) \/ (k' <> k /\ In (k', v') o).
Proof.
  induction o as [|[k0 v0] o IH]; cbn [obj_set map fst]; intros Hnd H.
  - destruct H as [[= <- <-] | []]. now left.
  - inversion Hnd as [| ? ? Hn Hd]; subst.
    destruct (String.eqb_spec k0 k) as [-> | Hne].
    + destruct H as [[= <- <-] | H]; [now left |].
      right. split; [| now right]. intros ->. apply Hn.
      change k with (fst (k, v')). now apply in_map.
    + destruct H as [[= <- <-] | H].
      * right. split; [exact Hne | now left].
      * destruct (IH Hd H) as [? | [? ?]]; [now left |].
        right. split; [assumption | now right].
Qed.

Lemma obj_set_has {V} (k : string) (v : V) (o : list (string * V)) :
  In (k, v) (obj_set k v o).
Proof.
  induction o as [|[k0 v0] o IH]; cbn [obj_set]; [now left |].
  destruct (String.eqb_spec k0 k) as [-> | Hne]; [now left | now right].
Qed.

Lemma obj_set_other {V} (k : string) (v : V) (o : list (string * V))
    (k' : string) (v' : V) :
  k' <> k -> In (k', v') o -> In (k', v') (obj_set k v o).
Proof.
  intro Hne. induction o as [|[k0 v0] o IH]; cbn [obj_set]; intro H;
    [destruct H |].
  destruct (String.eqb_spec k0 k) as [-> | Hne0].
  - destruct H as [[= <- <-] | H]; [congruence | now right].
  - destruct H as [H | H]; [now left | right; auto].
Qed.

(** The object [byId] after the loop over [baseBefore]. *)
Lemma byId_spec (baseBefore : list ScheduleEntry) :
  forall (o : list (string * ScheduleEntry)) (seen : list ScheduleEntry),
    NoDup (map fst o) ->
    (forall k v, In (k, v) o -> train_id v = k /\ In v seen) ->
    (forall e, In e seen -> In (train_id e) (map fst o)) ->
    let o' := fold_left (fun o e => obj_set (train_id e) e o) baseBefore o in
    NoDup (map fst o') /\
    (forall k v, In (k, v) o' -> train_id v = k /\ In v (seen ++ baseBefore)) /\
    (forall e, In e (seen ++ baseBefore) -> In (train_id e) (map fst o')).
Proof.
  induction baseBefore as [|e base IH]; intros o seen Hnd Hval Hkey;
    cbn [fold_left].
  - rewrite app_nil_r. auto.
  - replace (seen ++ e :: base)%list with ((seen ++ [e]) ++ base)%list
      by (rewrite <- app_assoc; reflexivity).
    apply IH.
    + now apply obj_set_nodup.
    + intros k v Hin. destruct (obj_set_in _ _ _ _ _ Hnd Hin) as [[-> ->] | [_ H]].
      * split; [reflexivity |]. apply in_or_app. right. now left.
      * destruct (Hval _ _ H). split; [assumption |]. apply in_or_app. now left.
    + intros x Hx. rewrite obj_set_keys. apply in_app_or in Hx.
      destruct Hx as [Hx | [<- | []]]; [right; auto | now left].
Qed.

Lemma synthetic_entry_spec (trains : list Train) (id arrival departure : string)
    (o : list (string * ScheduleEntry)) :
  NoDup (map fst o) ->
  let o' := synthetic_entry trains id arrival departure o in
  NoDup (map fst o') /\
  (forall k v, In (k, v) o' ->
     In (k, v) o \/
     (k = id /\ train_id v = id /\ assigned_platform v = 1 /\
      reason v = Some "pre-optimization conflict baseline")) /\
  (forall k, In k (map fst o) -> In k (map fst o')) /\
  (forall k v, k <> id -> In (k, v) o -> In (k, v) o') /\
  (find_first (fun t => String.eqb (tr_id t) id) trains <> None ->
   exists v, In (id, v) o' /\ train_id v = id /\ assigned_platform v = 1 /\
             reason v = Some "pre-optimization conflict baseline").
Proof.
  intros Hnd o'. subst o'. unfold synthetic_entry.
  destruct (find_first (fun t => String.eqb (tr_id t) id) trains) as [t|].
  - split; [now apply obj_set_nodup |]. split.
    + intros k v Hin. destruct (obj_set_in _ _ _ _ _ Hnd Hin) as [[-> ->] | [_ H]];
        [right; cbn; auto | now left].
    + split; [intros k Hk; rewrite obj_set_keys; now right |].
      split; [intros k v Hne Hin; now apply obj_set_other |].
      intros _. eexists. split; [apply obj_set_has | cbn; auto].
  - split; [exact Hnd |]. split; [auto |]. split; [auto |]. split; [auto |].
    intro H. congruence.
Qed.

Lemma beforeEntries_shape :
  forall (trains : list Train) (baseBefore : list ScheduleEntry),
    let before := beforeEntries trains baseBefore in
    NoDup (map train_id before) /\
    (forall e, In e before ->
       In e baseBefore \/
       ((train_id e = "T104" \/ train_id e = "T106") /\
        assigned_platform e = 1 /\
        reason e = Some "pre-optimization conflict baseline")) /\
    (forall e, In e baseBefore ->
       exists e', In e' before /\ train_id e' = train_id e) /\
    (forall id, id = "T104" \/ id = "T106" ->
       getTrain trains id <> None ->
       exists e, In e before /\ train_id e = id /\ assigned_platform e = 1 /\
                 reason e = Some "pre-optimization conflict baseline").
Proof.
  intros trains baseBefore before. subst before. unfold beforeEntries.
  destruct (byId_spec baseBefore [] [] (NoDup_nil _)
              (fun k v (H : In (k, v) []) => match H with end)
              (fun e (H : In e []) => match H with end))
    as (N0 & V0 & K0).
  cbn [app] in V0, K0.
  set (o0 := fold_left (fun o e => obj_set (train_id e) e o) baseBefore []) in *.
  destruct (synthetic_entry_spec trains "T104" "2025-09-22T09:05:00"
              "2025-09-22T09:30:00" o0 N0) as (N1 & V1 & K1 & O1 & S1).
  set (o1 := synthetic_entry trains "T104" "2025-09-22T09:05:00"
                             "2025-09-22T09:30:00" o0) in *.
  destruct (synthetic_entry_spec trains "T106" "2025-09-22T09:12:00"
              "2025-09-22T09:22:00" o1 N1) as (N2 & V2 & K2 & O2 & S2).
  set (o2 := synthetic_entry trains "T106" "2025-09-22T09:12:00"
                             "2025-09-22T09:22:00" o1) in *.
  cbv zeta.
  assert (Hval : forall k v, In (k, v) o2 ->
             train_id v = k /\
             (In v baseBefore \/
              ((k = "T104" \/ k = "T106") /\ assigned_platform v = 1 /\
               reason v = Some "pre-optimization conflict baseline"))).
  { intros k v H. destruct (V2 _ _ H) as [H1 | (-> & Hid & Hp & Hr)];
      [| split; [exact Hid | right; auto]].
    destruct (V1 _ _ H1) as [H0 | (-> & Hid & Hp & Hr)];
      [| split; [exact Hid | right; auto]].
    destruct (V0 _ _ H0). auto. }
  pose proof (Object_entries_perm o2) as Hperm.
  unfold Object_values.
  assert (Hin : forall kv, In kv (Object_entries o2) <-> In kv o2).
  { intro kv. split; apply Permutation_in;
      [exact Hperm | symmetry; exact Hperm]. }
  assert (Hids : map train_id (map snd (Object_entries o2))
                 = map fst (Object_entries o2)).
  { rewrite map_map. apply map_ext_in. intros [k v] Hkv.
    apply Hin in Hkv. now destruct (Hval _ _ Hkv). }
  split.
  { rewrite Hids. eapply Permutation_NoDup; [| exact N2].
    symmetry. apply Permutation_map. exact Hperm. }
  split.
  { intros e He. apply in_map_iff in He. destruct He as ([k v] & <- & Hkv).
    apply Hin in Hkv. cbn [snd]. destruct (Hval _ _ Hkv) as [Hid [H | (Hk & Hp & Hr)]];
      [now left |].
    right. rewrite Hid. auto. }
  split.
  { intros e He. apply K0 in He. apply K1, K2 in He.
    apply in_map_iff in He. destruct He as ([k v] & Hk & Hkv). cbn [fst] in Hk.
    subst k. exists v. split.
    - apply in_map_iff. exists (train_id e, v). split; [reflexivity |].
      now apply Hin.
    - now destruct (Hval _ _ Hkv). }
  intros id [-> | ->] Hex.
  - destruct (S1 Hex) as (v & Hv & Hid & Hp & Hr).
    exists v. split; [| auto].
    apply in_map_iff. exists ("T104", v). split; [reflexivity |].
    apply Hin. apply O2; [discriminate | exact Hv].
  - destruct (S2 Hex) as (v & Hv & Hid & Hp & Hr).
    exists v. split; [| auto].
    apply in_map_iff. exists ("T106", v). split; [reflexivity |].
    now apply Hin.
Qed.

(** X23.  The "before" panel has at most one entry per train.  Each of its
    entries comes from the base snapshot or is one of the two synthetic
    entries for T104 and T106; every train of the base snapshot is
    represented; and whenever train T104 (or T106) is in the dataset, the
    panel shows it on platform 1 with the synthetic reason, whatever the
    base snapshot says. *)
Theorem beforeEntries_spec :
  forall (trains : list Train) (baseBefore : list ScheduleEntry),
    let before := beforeEntries trains baseBefore in
    NoDup (map train_id before) /\
    (forall e, In e before ->
       In e baseBefore \/
       ((train_id e = "T104" \/ train_id e = "T106") /\
        assigned_platform e = 1 /\
        reason e = Some "pre-optimization conflict baseline")) /\
    (forall e, In e baseBefore ->
       exists e', In e' before /\ train_id e' = train_id e) /\
    (forall id, id = "T104" \/ id = "T106" ->
       getTrain trains id <> None ->
       exists e, In e before /\ train_id e = id /\ assigned_platform e = 1 /\
                 reason e = Some "pre-optimization conflict baseline").
Proof. exact beforeEntries_shape. Qed.

(** ** The whole map in schedule-fallback mode *)

Lemma mapM_elems {A B} (f : A -> Rand B) (l : list A) :
  forall g : Rng,
    Forall2 (fun x y => exists g0, y = fst (f x g0)) l (fst (mapM f l g)).
Proof.
  induction l as [|x l IH]; intro g; cbn [mapM].
  - constructor.
  - unfold bind, ret. destruct (f x g) as [y g1] eqn:Hf.
    specialize (IH g1). destruct (mapM f l g1) as [ys g2]. cbn [fst] in *.
    constructor; [| exact IH]. exists g. now rewrite Hf.
Qed.

Lemma concat_dots_ids (E : list (string * list ScheduleEntry))
    (dss : list (list Dot)) :
  Forall2 (fun kv ds => (List.length ds <= 1)%nat /\
                        forall d, In d ds -> d_id d = fst kv) E dss ->
  NoDup (map fst E) ->
  NoDup (map d_id (List.concat dss)) /\
  forall d, In d (List.concat dss) -> In (d_id d) (map fst E).
Proof.
  induction 1 as [|kv ds E dss [Hlen Hid] HF IH]; intro Hnd.
  - cbn. split; [constructor | intros d []].
  - cbn [map] in Hnd. inversion Hnd as [| ? ? Hn Hd]; subst.
    destruct (IH Hd) as [IH1 IH2]. cbn [List.concat map]. split.
    + rewrite map_app. apply NoDup_app.
      * destruct ds as [|d0 [|d1 ds]]; cbn in Hlen |- *;
          [constructor | repeat constructor; intros [] | lia].
      * exact IH1.
      * intros x Hx Hx'. apply in_map_iff in Hx, Hx'.
        destruct Hx as (d & <- & Hdin). destruct Hx' as (d' & Heq & Hd'in).
        apply Hn. rewrite <- (Hid d Hdin), <- Heq. now apply IH2.
    + intros d Hdin. apply in_app_or in Hdin. destruct Hdin as [Hdin | Hdin].
      * left. symmetry. now apply Hid.
      * right. now apply IH2.
Qed.

(** X24.  In schedule-fallback mode the map shows at most one dot per
    train: the ids of the dots are pairwise distinct, and each is the id of
    a train that has an entry in the schedule. *)
Theorem fallback_map_one_dot_per_train :
  forall (getTime : string -> Z) (trains : list Train) (nodeList : list Node)
         (nowMs : Z) (schedule : list ScheduleEntry) (g : Rng),
    let dots := fst (trainDots getTime trains nodeList nowMs []
                               (trainSegments getTime schedule) g) in
    NoDup (map d_id dots) /\
    forall d, In d dots -> exists e, In e schedule /\ train_id e = d_id d.
Proof.
  intros getTime trains nodeList nowMs schedule g dots. subst dots.
  unfold trainDots. cbn [is_empty negb]. unfold bind, ret.
  set (segs := trainSegments getTime schedule).
  set (f := fun kv : string * list ScheduleEntry =>
              fallbackDots getTime trains nodeList nowMs (fst kv) (snd kv)).
  pose proof (mapM_elems f (Object_entries segs) g) as HF.
  destruct (mapM f (Object_entries segs) g) as [dss g']. cbn [fst] in *.
  destruct (trainSegments_shape getTime schedule) as (Hnd & _ & Harr).
  fold segs in Hnd, Harr.
  pose proof (Object_entries_perm segs) as Hperm.
  assert (HF' : Forall2 (fun kv ds => (List.length ds <= 1)%nat /\
                                      forall d, In d ds -> d_id d = fst kv)
                        (Object_entries segs) dss).
  { eapply Forall2_impl; [| exact HF]. intros kv ds (g0 & ->). subst f.
    cbv beta.
    destruct (fallbackDots_shape getTime trains nodeList nowMs (fst kv) (snd kv) g0)
      as (H1 & H2 & _). auto. }
  assert (Hnd' : NoDup (map fst (Object_entries segs))).
  { eapply Permutation_NoDup; [| exact Hnd].
    symmetry. apply Permutation_map. exact Hperm. }
  destruct (concat_dots_ids _ _ HF' Hnd') as [H1 H2].
  split; [exact H1 |].
  intros d Hd. apply H2 in Hd. apply in_map_iff in Hd.
  destruct Hd as ([k arr] & Hk & Hkv). cbn [fst] in Hk.
  apply (Permutation_in _ Hperm) in Hkv.
  destruct (Harr _ _ Hkv) as (Hne & Hp & _).
  destruct arr as [|e arr]; [congruence |].
  assert (He : In e (filter (of_train k) schedule))
    by (apply (Permutation_in _ Hp); now left).
  apply filter_In in He. destruct He as [He1 He2].
  unfold of_train in He2. apply String.eqb_eq in He2.
  exists e. split; [exact He1 | congruence].
Qed.

Lemma nodeFor_in (nodeList : list Node) (id : string) (n : Node) :
  nodeFor nodeList id = Some n -> In n nodeList.
Proof. intro H. now apply find_first_some in H. Qed.

Lemma in_concat_elems {A B} (R : A -> list B -> Prop) (l : list A)
    (dss : list (list B)) (d : B) :
  Forall2 R l dss -> In d (List.concat dss) ->
  exists x ds, In x l /\ R x ds /\ In d ds.
Proof.
  induction 1 as [|x ds l dss HR HF IH]; cbn [List.concat]; [intros [] |].
  intro H. apply in_app_or in H. destruct H as [H | H].
  - exists x, ds. split; [now left | auto].
  - destruct (IH H) as (x' & ds' & Hx & HR' & Hd).
    exists x', ds'. split; [now right | auto].
Qed.

(** X25.  When the random draws are in [0, 1), either no station has
    coordinates or every station has both, and no position has been pushed,
    every train dot of the map has finite coordinates inside the canvas:
    40 <= x <= 960 and 40 <= y <= 280. *)
Theorem GeoMap_dots_in_canvas :
  forall (getTime : string -> Z) (trains : list Train)
         (stations : list Station) (schedule : list ScheduleEntry)
         (nowMs : Z) (g : Rng),
    unit_draws g ->
    hasGeo stations = false \/
    (forall st, In st stations ->
       exists la lo, latitude st = Some la /\ longitude st = Some lo) ->
    let out := fst (GeoMap getTime trains stations schedule [] nowMs g) in
    forall d, In d (snd out) ->
      exists x y : Q,
        d_x d = Some x /\ d_y d = Some y /\
        (40 <= x)%Q /\ (x <= 960)%Q /\ (40 <= y)%Q /\ (y <= 280)%Q.
Proof.
  intros getTime trains stations schedule nowMs g Hg Hcase out d Hd.
  subst out. unfold GeoMap, bind, ret in Hd.
  destruct (nodes_canvas_shape stations g Hg Hcase) as [_ Hcanvas].
  destruct (nodes stations g) as [ns g1]. cbn [fst] in Hcanvas.
  unfold trainDots in Hd. cbn [is_empty negb] in Hd. unfold bind, ret in Hd.
  set (f := fun kv : string * list ScheduleEntry =>
              fallbackDots getTime trains ns nowMs (fst kv) (snd kv)) in *.
  pose proof (mapM_elems f (Object_entries (trainSegments getTime schedule)) g1)
    as HF.
  destruct (mapM f (Object_entries (trainSegments getTime schedule)) g1)
    as [dss g2]. cbn [fst snd] in *.
  destruct (in_concat_elems _ _ _ d HF Hd) as (kv & ds & _ & (g0 & ->) & Hin).
  subst f. cbv beta in Hin.
  rewrite Forall_forall in Hcanvas.
  destruct (fallbackDots_cases getTime trains ns nowMs (fst kv) (snd kv) g0 d Hin)
    as (g' & [(cur & n & _ & Hn & -> & _) |
              (pre & cur & next & post & a & b & _ & Ha & Hb & _ & Hsd)]).
  - destruct (Hcanvas n (nodeFor_in _ _ _ Hn)) as (x & y & Hx & Hy & Hb).
    exists x, y.
    destruct (stationDot_fields getTime trains nowMs (fst kv) cur n)
      as (_ & _ & _ & Hdx & Hdy).
    rewrite Hdx, Hdy. auto.
  - destruct (Hcanvas a (nodeFor_in _ _ _ Ha))
      as (ax & ay & Hax & Hay & A1 & A2 & A3 & A4).
    destruct (Hcanvas b (nodeFor_in _ _ _ Hb))
      as (bx & by_ & Hbx & Hby & B1 & B2 & B3 & B4).
    pose proof (segmentDot_fields getTime trains nowMs (fst kv) cur next a b g0)
      as Hf.
    cbv zeta in Hf. rewrite Hsd in Hf. cbn [fst] in Hf.
    destruct Hf as (_ & _ & Hx & Hy).
    set (r := Qmax 0 (Qmin 1 (inject_Z (nowMs - getTime (actual_departure cur))
                              / Qmax 1 (inject_Z (getTime (actual_arrival next)
                                         - getTime (actual_departure cur)))))%Q)
      in *.
    assert (Hr0 : (0 <= r)%Q) by apply Q.le_max_l.
    assert (Hr1 : (r <= 1)%Q)
      by (apply Q.max_lub; [discriminate | apply Q.le_min_l]).
    rewrite Hax, Hbx in Hx. rewrite Hay, Hby in Hy. cbn in Hx, Hy.
    eexists _, _. split; [exact Hx |]. split; [exact Hy |].
    repeat split; nra.
Qed.

Lemma GeoMap_dots_in_canvas_witness :
  exists (d : Dot) (x y : Q),
    In d (snd (fst (GeoMap utc_ms sample_trains sample_stations
                      [entry_T1; entry_T1_SC] []
                      (utc_ms "2025-09-22T09:18:00") draws_low))) /\
    d_x d = Some x /\ d_y d = Some y /\
    (40 <= x)%Q /\ (x <= 960)%Q /\ (40 <= y)%Q /\ (y <= 280)%Q.
Proof.
  assert (Hg : unit_draws draws_low)
    by (intro n; split; [discriminate | reflexivity]).
  eexists.
  match goal with
  | |- exists x y, In ?d _ /\ _ =>
      destruct (GeoMap_dots_in_canvas utc_ms sample_trains sample_stations
                  [entry_T1; entry_T1_SC]
                  (utc_ms "2025-09-22T09:18:00") draws_low Hg
                  (or_introl eq_refl) d (or_introl eq_refl))
        as (x & y & H)
  end.
  exists x, y. split; [left; reflexivity | exact H].
Defined.

(** ** The map with pushed positions *)


(** HYB and SC come from the position table; BZA is placed with two draws,
    and these are the only ones. *)
Example push_mode_draws_for_nodes (g : Rng) :
  let out := GeoMap utc_ms sample_trains sample_stations sample_schedule
               [mkPosition "T1" "arrived" "HYB" "BZA" None] 0 g in
  (forall n : nat, snd out n = g (S (S n))) /\
  map d_status (snd (fst out)) = [stopped].
Proof. split; reflexivity. Qed.

(** ** The station at which a train is drawn *)

Section StationFacts.

Variable getTime : string -> Z.
Variable trains : list Train.
Variable nodeList : list Node.
Variable nowMs : Z.

(** The loop places the train either at the station of the first entry that
    has a node and whose departure is still ahead (or which is the last one),
    without a draw, or on a segment. *)
Lemma walk_station_or_segment (tid : string) :
  forall (entries : list ScheduleEntry) (g g' : Rng) (d : Dot),
    walk getTime trains nodeList nowMs tid entries g = (Some d, g') ->
    (exists pre cur post n,
       entries = (pre ++ cur :: post)%list /\
       (nowMs <= getTime (actual_departure cur) \/ post = []) /\
       nodeFor nodeList (station_id cur) = Some n /\
       (forall p, In p pre ->
          getTime (actual_departure p) < nowMs \/
          nodeFor nodeList (station_id p) = None) /\
       d = stationDot getTime trains nowMs tid cur n /\ g' = g) \/
    placed_on_segment getTime trains nodeList nowMs tid entries g d g'.
Proof.
  induction entries as [|cur rest IH]; intros g g' d H; [discriminate H |].
  cbn [walk] in H.
  destruct (Z.leb_spec nowMs (getTime (actual_departure cur))) as [Hle | Hgt];
    cbn [orb] in H.
  - destruct (nodeFor nodeList (station_id cur)) as [n|] eqn:Hn.
    + unfold ret in H. injection H as <- <-.
      left. exists [], cur, rest, n. cbn [app].
      repeat split; auto. intros p [].
    + (* no node: the segment test, then the rest of the loop *)
      destruct rest as [|next rest']; [discriminate H |].
      cbn [hd_error] in H.
      assert (Hrest : walk getTime trains nodeList nowMs tid (next :: rest') g
                      = (Some d, g')).
      { destruct (_ && _); exact H. }
      destruct (IH g g' d Hrest)
        as [(pre & c & post & n & He & Hc & Hnc & Hpre & Hd & Hg) | Hs].
      * left. exists (cur :: pre), c, post, n. cbn [app]. rewrite He.
        repeat split; auto.
        intros p [<- | Hp]; [now right | now apply Hpre].
      * right. destruct Hs as (pre & c & nx & post & a & b & He & Hr).
        exists (cur :: pre), c, nx, post, a, b. cbn [app]. rewrite He.
        split; [reflexivity | exact Hr].
  - destruct rest as [|next rest'].
    + cbn [is_empty hd_error] in H.
      destruct (nodeFor nodeList (station_id cur)) as [n|] eqn:Hn;
        [| discriminate H].
      unfold ret in H. injection H as <- <-.
      left. exists [], cur, [], n. cbn [app].
      repeat split; auto. intros p [].
    + cbn [is_empty hd_error] in H.
      assert (Hcase :
        (exists a b,
           nodeFor nodeList (station_id cur) = Some a /\
           nodeFor nodeList (station_id next) = Some b /\
           getTime (actual_departure cur) <= nowMs
             <= getTime (actual_arrival next) /\
           segmentDot getTime trains nowMs tid cur next a b g = (d, g')) \/
        walk getTime trains nodeList nowMs tid (next :: rest') g
          = (Some d, g')).
      { destruct (Z.leb_spec (getTime (actual_departure cur)) nowMs)
          as [H1 | H1]; [| now right].
        destruct (Z.leb_spec nowMs (getTime (actual_arrival next)))
          as [H2 | H2]; [| now right].
        cbn [andb] in H.
        destruct (nodeFor nodeList (station_id cur)) as [a|] eqn:Ha;
          [| now right].
        destruct (nodeFor nodeList (station_id next)) as [b|] eqn:Hb;
          [| now right].
        unfold bind, ret in H.
        destruct (segmentDot getTime trains nowMs tid cur next a b g)
          as [d1 g2] eqn:Hsd.
        injection H as <- <-. left. exists a, b. repeat split; auto. }
      destruct Hcase as [(a & b & Ha & Hb & Ht & Hsd) | Hrest].
      * right. exists [], cur, next, rest', a, b. cbn [app].
        repeat split; auto; apply Ht.
      * destruct (IH g g' d Hrest)
          as [(pre & c & post & n & He & Hc & Hnc & Hpre & Hd & Hg) | Hs].
        -- left. exists (cur :: pre), c, post, n. cbn [app]. rewrite He.
           repeat split; auto.
           intros p [<- | Hp]; [now left | now apply Hpre].
        -- right. destruct Hs as (pre & c & nx & post & a & b & He & Hr).
           exists (cur :: pre), c, nx, post, a, b. cbn [app]. rewrite He.
           split; [reflexivity | exact Hr].
Qed.

End StationFacts.

(** C7, as the code has it.  In schedule-fallback mode a dot of a train is
    of one of two kinds.  Either it is the [moving] dot of two consecutive
    entries [cur], [next] of the itinerary with
    [actual_departure cur <= now <= actual_arrival next].  Or it is the dot of
    one entry [cur] of the itinerary, the first one that has a node and either
    has its actual departure still ahead or is the last entry: the dot then
    sits at the coordinates of the node of [cur]'s station, and it is
    [delayed] exactly when [cur]'s actual arrival exceeds the train's
    scheduled arrival by more than 2 minutes, otherwise [waiting] exactly
    when more than 5 minutes remain before [cur]'s actual departure, and
    [stopped] otherwise. *)
Theorem station_status :
  forall (getTime : string -> Z) (trains : list Train) (nodeList : list Node)
         (nowMs : Z) (tid : string) (entries : list ScheduleEntry) (g : Rng)
         (d : Dot),
    In d (fst (fallbackDots getTime trains nodeList nowMs tid entries g)) ->
    (d_status d = moving /\
     exists pre cur next post a b,
       entries = (pre ++ cur :: next :: post)%list /\
       nodeFor nodeList (station_id cur) = Some a /\
       nodeFor nodeList (station_id next) = Some b /\
       getTime (actual_departure cur) <= nowMs
         <= getTime (actual_arrival next) /\
       d = fst (segmentDot getTime trains nowMs tid cur next a b g)) \/
    (exists pre cur post n,
       entries = (pre ++ cur :: post)%list /\
       (nowMs <= getTime (actual_departure cur) \/ post = []) /\
       nodeFor nodeList (station_id cur) = Some n /\
       (forall p, In p pre ->
          getTime (actual_departure p) < nowMs \/
          nodeFor nodeList (station_id p) = None) /\
       d = stationDot getTime trains nowMs tid cur n /\
       d_id d = tid /\ d_x d = n_x n /\ d_y d = n_y n /\
       let late :=
         exists t sa, getTrain trains (train_id cur) = Some t /\
                      truthy (scheduled_arrival t) = Some sa /\
                      120000 < getTime (actual_arrival cur) - getTime sa in
       let early := nowMs < getTime (actual_departure cur) - 300000 in
       (d_status d = delayed <-> late) /\
       (d_status d = waiting <-> ~ late /\ early) /\
       (d_status d = stopped <-> ~ late /\ ~ early)).
Proof.
  intros getTime trains nodeList nowMs tid entries g d Hin.
  unfold fallbackDots in Hin.
  destruct entries as [|e0 rest]; [destruct Hin |].
  set (entries := e0 :: rest) in *.
  unfold bind in Hin.
  destruct (walk getTime trains nodeList nowMs tid entries g)
    as [[d0|] g'] eqn:Hw.
  - destruct Hin as [<- | []].
    apply walk_station_or_segment in Hw.
    destruct Hw as [(pre & cur & post & n & He & Hc & Hn & Hpre & -> & _) | Hs].
    + right. exists pre, cur, post, n.
      split; [exact He |]. split; [exact Hc |]. split; [exact Hn |].
      split; [exact Hpre |]. split; [reflexivity |].
      split; [reflexivity |]. split; [reflexivity |]. split; [reflexivity |].
      cbv zeta. rewrite <- (isDelayed_iff getTime trains cur).
      unfold stationDot. cbn [d_status].
      destruct (isDelayed getTime trains cur);
        [| destruct (Z.ltb_spec nowMs (getTime (actual_departure cur) - 300000))];
        repeat split; intros; try congruence; try lia;
        match goal with H : _ /\ _ |- _ => destruct H end;
        try congruence; try lia.
    + left. destruct Hs as (pre & cur & next & post & a & b & He & Ha & Hb & Ht & Hsd).
      split.
      * pose proof (segmentDot_fields getTime trains nowMs tid cur next a b g)
          as Hf.
        cbv zeta in Hf. rewrite Hsd in Hf. apply Hf.
      * exists pre, cur, next, post, a, b. rewrite Hsd. repeat split; auto;
          apply Ht.
  - apply (walk_none getTime trains nodeList nowMs tid entries g g'
             (mkEntry "" "" 0 "" "" None)) in Hw; [| discriminate].
    cbv zeta in Hin. rewrite Hw in Hin. destruct Hin.
Qed.

(** At 09:30 train T1, with the itinerary HYB (09:01 to 09:10) then SC (09:25
    to 09:35), is drawn at the node of SC, at (500, 100), and is [delayed]:
    it reached SC at 09:25, its scheduled arrival being 09:00. *)
Lemma station_status_witness :
  let now := utc_ms "2025-09-22T09:30:00" in
  let dots := fst (fallbackDots utc_ms sample_trains sample_nodes now "T1"
                     [entry_T1_ontime; entry_T1_SC] draws_low) in
  map d_status dots = [delayed] /\
  map d_x dots = [Some 500%Q] /\ map d_y dots = [Some 100%Q] /\
  exists t sa, getTrain sample_trains "T1" = Some t /\
               truthy (scheduled_arrival t) = Some sa /\
               120000 < utc_ms (actual_arrival entry_T1_SC) - utc_ms sa.
Proof.
  split; [reflexivity |]. split; [reflexivity |]. split; [reflexivity |].
  destruct (station_status utc_ms sample_trains sample_nodes
              (utc_ms "2025-09-22T09:30:00") "T1"
              [entry_T1_ontime; entry_T1_SC] draws_low
              (stationDot utc_ms sample_trains (utc_ms "2025-09-22T09:30:00")
                          "T1" entry_T1_SC
                          (mkNode "SC" (Some 500%Q) (Some 100%Q) (Some 6)))
              (or_introl eq_refl))
    as [[Hm _] | (pre & cur & post & n & He & _ & _ & _ & Hd & _ & _ & _ & Hs & _)].
  - discriminate Hm.
  - assert (Hcur : cur = entry_T1_SC).
    { destruct pre as [|p0 [|p1 pre]].
      - injection He as He _. subst cur. discriminate Hd.
      - injection He as _ He _. now subst cur.
      - injection He as _ _ He. destruct pre; discriminate He. }
    subst cur. apply Hs. reflexivity.
Defined.

(** ** The diff of a snapshot against itself, as the console computes it

    The comparison section diffs [afterEntries] against [beforeEntries], and
    [beforeEntries] is never the snapshot itself: it is the object [byId]
    built from it, with the entries of T104 and T106 overwritten.  When the
    baseline and the current snapshot are both [S], the set the console shows
    is [changedTrains (beforeEntries trains S) S]. *)






